(** * Sales-target reconciliation backend: a shallow embedding of
      [backend/server.js] and the properties of its reconciliation engine
      and of its routes.

    The file has five layers.

    - [JS]: the fragment of the JavaScript runtime the server relies on:
      strings ([trim], [toUpperCase], [startsWith], ...), the Number type
      (IEEE 754 binary64, taken from the Standard Library's [SpecFloat]),
      the conversions [String(v)] and [Number(s)], truthiness and
      [Math.round].
    - [Server]: the functions and the routes of [server.js], translated one
      by one, the database collections being explicit values threaded
      through the calls.
    - [App]: the bodies of the requests that [App.js] sends to the routes
      of the directory.
    - the notions the properties are stated with, and sample data;
    - the properties, stated over those definitions.

    Code that can throw returns an [option], [None] standing for the
    exception, or the state it leaves with a flag that tells whether it
    ended without one.  The database driver throws when a field declared
    [{ type: Number }] is given [NaN], in a filter or in a document that
    is saved, and when a salesperson is saved without a name; the [catch]
    branch of a route answers with status 500.

    Left out of the model: the diagnostic output ([DEBUG_SALES]), the
    removal of the uploaded files, the [timestamps] of the documents, and
    the other failures of the spreadsheet reader and of the database
    driver.  The fields of a request body are scalars; an identifier is
    the [ObjectId] a field denotes.

    Scope of the runtime model.  Text is ASCII: a [string] is a sequence of
    code units below 128.  On that range [toUpperCase] maps [a-z] to [A-Z]
    and leaves every other character alone, and the white space removed by
    [trim] and matched by [\s] is TAB, LF, VT, FF, CR and SPACE. *)

From Stdlib Require Import ZArith Lia List Bool Ascii String Permutation Sorted.
From Stdlib Require Import Floats.SpecFloat.
From stdpp Require Import base option list gmap strings fin_maps.

Local Open Scope Z_scope.

Module JS.

(** ** Strings *)

Definition code (c : ascii) : Z := Z.of_N (N_of_ascii c).

(** WhiteSpace and LineTerminator code points below 128. *)
Definition is_space (c : ascii) : bool :=
  let n := code c in
  (n =? 9) || (n =? 10) || (n =? 11) || (n =? 12) || (n =? 13) || (n =? 32).

Definition upper_char (c : ascii) : ascii :=
  let n := code c in
  if (97 <=? n) && (n <=? 122) then ascii_of_N (Z.to_N (n - 32)) else c.

(** [s.toUpperCase()] *)
Fixpoint toUpperCase (s : string) : string :=
  match s with
  | EmptyString => EmptyString
  | String c t => String (upper_char c) (toUpperCase t)
  end.

Fixpoint dropWhile (p : ascii -> bool) (s : string) : string :=
  match s with
  | EmptyString => EmptyString
  | String c t => if p c then dropWhile p t else s
  end.

(** Removes the longest suffix all of whose characters satisfy [p]. *)
Fixpoint dropWhileEnd (p : ascii -> bool) (s : string) : string :=
  match s with
  | EmptyString => EmptyString
  | String c t =>
      match dropWhileEnd p t with
      | EmptyString => if p c then EmptyString else String c EmptyString
      | r => String c r
      end
  end.

Fixpoint takeWhile (p : ascii -> bool) (s : string) : string :=
  match s with
  | EmptyString => EmptyString
  | String c t => if p c then String c (takeWhile p t) else EmptyString
  end.

(** [s.trim()] *)
Definition trim (s : string) : string :=
  dropWhileEnd is_space (dropWhile is_space s).

(** [s.startsWith(p)] *)
Definition startsWith (s p : string) : bool := String.prefix p s.

(** [s.includes(sub)] *)
Fixpoint includes (s sub : string) : bool :=
  String.prefix sub s ||
  match s with
  | EmptyString => false
  | String _ t => includes t sub
  end.

(** [s.replace(/c/g, "")] for a single character [c]. *)
Fixpoint remove_char (c : ascii) (s : string) : string :=
  match s with
  | EmptyString => EmptyString
  | String d t => if Ascii.eqb d c then remove_char c t else String d (remove_char c t)
  end.

(** [s.split(c)] for a one-character separator: never empty. *)
Fixpoint split (c : ascii) (s : string) : list string :=
  match s with
  | EmptyString => [EmptyString]
  | String d t =>
      if Ascii.eqb d c then EmptyString :: split c t
      else match split c t with
           | p :: ps => String d p :: ps
           | [] => [String d EmptyString]
           end
  end.

Definition is_empty (s : string) : bool :=
  match s with EmptyString => true | _ => false end.

(** [/^lit$/i.test(s)] for a literal [lit] of letters and spaces. *)
Definition test_literal_ci (lit s : string) : bool :=
  String.eqb (toUpperCase s) (toUpperCase lit).

Fixpoint drop (n : nat) (s : string) : string :=
  match n, s with
  | O, _ => s
  | S n', String _ t => drop n' t
  | S _, EmptyString => EmptyString
  end.

(** [/^label\s*:/i.test(s)] for a literal [label] of letters. *)
Definition test_label_ci (label s : string) : bool :=
  String.prefix (toUpperCase label) (toUpperCase s) &&
  match dropWhile is_space (drop (String.length label) s) with
  | String c _ => Ascii.eqb c ":"
  | EmptyString => false
  end.

(** ** Numbers: IEEE 754 binary64 *)

Definition prec : Z := 53.
Definition emax : Z := 1024.

Definition number : Type := spec_float.

Definition NaN : number := S754_nan.
Definition pos_zero : number := S754_zero false.
Definition Infinity : number := S754_infinity false.

(** The Number nearest to the integer [n] (ties to even). *)
Definition of_Z (n : Z) : number := binary_normalize prec emax n 0 false.

Definition add : number -> number -> number := SFadd prec emax.
Definition sub : number -> number -> number := SFsub prec emax.
Definition mul : number -> number -> number := SFmul prec emax.
Definition neg : number -> number := SFopp.

(** [x === y] on Numbers: [NaN] differs from everything, [-0] equals [+0]. *)
Definition strict_eq : number -> number -> bool := SFeqb.

Definition isNaN (x : number) : bool :=
  match x with S754_nan => true | _ => false end.

(** ToBoolean on a Number: [+0], [-0] and [NaN] are falsy. *)
Definition truthy_number (x : number) : bool :=
  match x with
  | S754_zero _ | S754_nan => false
  | _ => true
  end.

(** [Math.round(x)]: the nearest integer, ties towards [+Infinity]; the
    result keeps the sign of [x] when it is zero. *)
Definition Math_round (x : number) : number :=
  match x with
  | S754_finite s m e =>
      if 0 <=? e then x
      else
        let d := 2 ^ (- e) in
        let n := (2 * (if s then Z.neg m else Z.pos m) + d) / (2 * d) in
        if n =? 0 then S754_zero s else of_Z n
  | _ => x
  end.

(** *** [Number(s)]: StringToNumber *)

Definition digit_of (c : ascii) : option Z :=
  let n := code c in
  if (48 <=? n) && (n <=? 57) then Some (n - 48) else None.

Definition hex_digit_of (c : ascii) : option Z :=
  let n := code c in
  if (48 <=? n) && (n <=? 57) then Some (n - 48)
  else if (65 <=? n) && (n <=? 70) then Some (n - 55)
  else if (97 <=? n) && (n <=? 102) then Some (n - 87)
  else None.

Definition octal_digit_of (c : ascii) : option Z :=
  let n := code c in
  if (48 <=? n) && (n <=? 55) then Some (n - 48) else None.

Definition binary_digit_of (c : ascii) : option Z :=
  let n := code c in
  if (48 <=? n) && (n <=? 49) then Some (n - 48) else None.

(** Reads the longest prefix of digits: the value accumulated on [acc],
    the number of digits read added to [cnt], and the rest. *)
Fixpoint read_digits (base : Z) (dig : ascii -> option Z) (s : string)
    (acc cnt : Z) : Z * Z * string :=
  match s with
  | EmptyString => (acc, cnt, s)
  | String c t =>
      match dig c with
      | Some d => read_digits base dig t (acc * base + d) (cnt + 1)
      | None => (acc, cnt, s)
      end
  end.

(** The mathematical value of a StrUnsignedDecimalLiteral: [Infinity], or
    [m * 10 ^ e10] written with [nd] digits. *)
Inductive literal : Type :=
  | LitInfinity
  | LitDecimal (m e10 nd : Z).

(** An optional sign: whether it is [-], and what follows it. *)
Definition split_sign (s : string) : bool * string :=
  match s with
  | String c t =>
      if Ascii.eqb c "+" then (false, t)
      else if Ascii.eqb c "-" then (true, t)
      else (false, s)
  | EmptyString => (false, s)
  end.

(** SignedInteger, which must end the string. *)
Definition parse_exponent (s : string) : option Z :=
  let '(sg, s1) := split_sign s in
  let '(v, cnt, rest) := read_digits 10 digit_of s1 0 0 in
  if (0 <? cnt) && is_empty rest then Some (if sg then - v else v) else None.

(** StrUnsignedDecimalLiteral *)
Definition parse_unsigned_decimal (s : string) : option literal :=
  if String.eqb s "Infinity" then Some LitInfinity
  else
    let '(ip, ni, r1) := read_digits 10 digit_of s 0 0 in
    let '(m, nf, r2) :=
      match r1 with
      | String c t =>
          if Ascii.eqb c "." then read_digits 10 digit_of t ip 0
          else (ip, 0, r1)
      | EmptyString => (ip, 0, r1)
      end in
    if ni + nf =? 0 then None
    else
      match r2 with
      | EmptyString => Some (LitDecimal m (- nf) (ni + nf))
      | String c t =>
          if Ascii.eqb c "e" || Ascii.eqb c "E" then
            match parse_exponent t with
            | Some x => Some (LitDecimal m (x - nf) (ni + nf))
            | None => None
            end
          else None
      end.

(** The Number nearest to [m * 10 ^ e10] (ties to even), with sign [sg];
    [m] is non-negative and has at most [nd] decimal digits.  A negative
    power of ten is divided out after a shift by [sh] bits, with a sticky
    bit for the remainder: the quotient keeps at least 63 bits, or reaches
    down to [2 ^ (- 1100)], so the sticky bit is below every rounding
    boundary of binary64. *)
Definition round_decimal (sg : bool) (m e10 nd : Z) : number :=
  if m =? 0 then S754_zero sg
  else if 400 <? e10 then S754_infinity sg
  else if e10 + nd <? - 400 then S754_zero sg
  else if 0 <=? e10 then
    binary_normalize prec emax (if sg then - (m * 10 ^ e10) else m * 10 ^ e10) 0 sg
  else
    let den := 10 ^ (- e10) in
    let sh := Z.min 1100 (Z.max 0 (64 + Z.log2 den - Z.log2 m)) in
    let q := (m * 2 ^ sh) / den in
    let r := (m * 2 ^ sh) mod den in
    let mant := 2 * q + (if r =? 0 then 0 else 1) in
    binary_normalize prec emax (if sg then - mant else mant) (- sh - 1) sg.

Definition number_of_literal (sg : bool) (l : option literal) : number :=
  match l with
  | None => NaN
  | Some LitInfinity => S754_infinity sg
  | Some (LitDecimal m e10 nd) => round_decimal sg m e10 nd
  end.

(** NonDecimalIntegerLiteral after its two-character prefix. *)
Definition parse_radix (base : Z) (dig : ascii -> option Z) (s : string) : number :=
  let '(v, cnt, rest) := read_digits base dig s 0 0 in
  if (0 <? cnt) && is_empty rest then of_Z v else NaN.

(** NonDecimalIntegerLiteral: [0x], [0o] or [0b], in either case, then
    digits of that radix; [None] when the text has no such prefix. *)
Definition radix_literal (t : string) : option number :=
  match t with
  | String c1 (String c2 r) =>
      if Ascii.eqb c1 "0" then
        if Ascii.eqb c2 "x" || Ascii.eqb c2 "X" then Some (parse_radix 16 hex_digit_of r)
        else if Ascii.eqb c2 "o" || Ascii.eqb c2 "O" then Some (parse_radix 8 octal_digit_of r)
        else if Ascii.eqb c2 "b" || Ascii.eqb c2 "B" then Some (parse_radix 2 binary_digit_of r)
        else None
      else None
  | _ => None
  end.

(** [Number(s)] for a string [s]: white space around the literal is
    dropped, and the empty text is [+0]. *)
Definition StringToNumber (s : string) : number :=
  let t := trim s in
  if is_empty t then pos_zero
  else
    match radix_literal t with
    | Some n => n
    | None =>
        let '(sg, u) := split_sign t in
        number_of_literal sg (parse_unsigned_decimal u)
    end.

(** *** [String(x)]: Number::toString, radix 10 *)

(** The decimal digits of a non-negative integer, most significant first. *)
Fixpoint dec_digits (fuel : nat) (n : Z) (acc : string) : string :=
  match fuel with
  | O => acc
  | S f =>
      let acc' := String (ascii_of_N (Z.to_N (48 + n mod 10))) acc in
      if n <? 10 then acc' else dec_digits f (n / 10) acc'
  end.

Definition string_of_nat_Z (n : Z) : string :=
  dec_digits (S (Z.to_nat (Z.log2 n))) n EmptyString.

Fixpoint zeros (n : nat) : string :=
  match n with
  | O => EmptyString
  | S k => String "0" (zeros k)
  end.

Fixpoint take (n : nat) (s : string) : string :=
  match n, s with
  | S n', String c t => String c (take n' t)
  | _, _ => EmptyString
  end.

(** [a * 10 ^ t] and [b * 2 ^ e] brought to a common positive scale. *)
Definition scale10 (t e : Z) : Z := 10 ^ Z.max t 0 * 2 ^ Z.max (- e) 0.
Definition scale2 (t e : Z) : Z := 10 ^ Z.max (- t) 0 * 2 ^ Z.max e 0.

(** For the positive canonical Number [m * 2 ^ e]: whether [s * 10 ^ t]
    rounds to it.  The bounds are its two rounding boundaries, counted in
    units of [2 ^ (e - 2)]; they belong to the interval when [m] is even. *)
Definition rounds_to (m e s t : Z) : bool :=
  let closer := (m =? 2 ^ 52) && (- 1074 <? e) in
  let lo := if closer then 4 * m - 1 else 4 * m - 2 in
  let hi := 4 * m + 2 in
  let a := s * scale10 t (e - 2) in
  let k := scale2 t (e - 2) in
  if Z.even m then (lo * k <=? a) && (a <=? hi * k)
  else (lo * k <? a) && (a <? hi * k).

(** The [n] with [10 ^ (n - 1) <= m * 2 ^ e < 10 ^ n], searched upwards
    from an estimate that is below it. *)
Fixpoint decimal_exponent (fuel : nat) (m e n : Z) : Z :=
  match fuel with
  | O => n
  | S f =>
      if m * scale2 n e <? scale10 n e then n
      else decimal_exponent f m e (n + 1)
  end.

(** The candidate with [k] digits for [m * 2 ^ e], whose decimal exponent
    is [n0]: the nearer of the two multiples of [10 ^ (n0 - k)] around it
    that round to it, if one does. *)
Definition digits_candidate (m e n0 k : Z) : option (Z * Z) :=
  let t := n0 - k in
  let v := m * scale2 t e in
  let p := scale10 t e in
  let s_lo := v / p in
  let s_hi := s_lo + 1 in
  let ok_lo := rounds_to m e s_lo t in
  let ok_hi := rounds_to m e s_hi t in
  let d_lo := v - s_lo * p in
  let d_hi := s_hi * p - v in
  let pick_hi :=
    if ok_lo && ok_hi then (d_hi <? d_lo) || ((d_hi =? d_lo) && Z.even s_hi)
    else ok_hi in
  if negb (ok_lo || ok_hi) then None
  else if pick_hi then
    (if s_hi =? 10 ^ k then Some (10 ^ (k - 1), n0 + 1) else Some (s_hi, n0))
  else Some (s_lo, n0).

(** The shortest digit string [s] of [k] digits and the exponent [n] with
    [s * 10 ^ (n - k)] rounding to [m * 2 ^ e]. *)
Fixpoint shortest (fuel : nat) (m e n0 k : Z) : Z * Z * Z :=
  match fuel with
  | O => (m, k, n0)
  | S f =>
      match digits_candidate m e n0 k with
      | Some (s, n) => (s, k, n)
      | None => shortest f m e n0 (k + 1)
      end
  end.

(** The layout of Number::toString for the digits [s] ([k] of them) and
    the exponent [n]. *)
Definition layout (s k n : Z) : string :=
  let ds := string_of_nat_Z s in
  if (k <=? n) && (n <=? 21) then ds +:+ zeros (Z.to_nat (n - k))
  else if (0 <? n) && (n <=? 21) then
    take (Z.to_nat n) ds +:+ "." +:+ drop (Z.to_nat n) ds
  else if (- 6 <? n) && (n <=? 0) then
    "0." +:+ zeros (Z.to_nat (- n)) +:+ ds
  else
    let x := n - 1 in
    let sgn := if x <? 0 then "-" else "+" in
    let mant := if k =? 1 then ds else take 1%nat ds +:+ "." +:+ drop 1%nat ds in
    mant +:+ "e" +:+ sgn +:+ string_of_nat_Z (Z.abs x).

Definition positive_to_string (m : positive) (e : Z) : string :=
  let est := (Z.log2 (Z.pos m) + e) * 30103 / 100000 in
  let n0 := decimal_exponent 5 (Z.pos m) e (est - 1) in
  let '(s, k, n) := shortest 17 (Z.pos m) e n0 1 in
  layout s k n.

(** [String(x)] for a Number [x]. *)
Definition NumberToString (x : number) : string :=
  match x with
  | S754_nan => "NaN"
  | S754_zero _ => "0"
  | S754_infinity s => if s then "-Infinity" else "Infinity"
  | S754_finite s m e =>
      match binary_round prec emax false m e with
      | S754_finite _ m' e' =>
          (if s then "-" else "") +:+ positive_to_string m' e'
      | S754_infinity _ => if s then "-Infinity" else "Infinity"
      | S754_zero _ => "0"
      | S754_nan => "NaN"
      end
  end.

(** ** Values *)

(** The values the server handles: what a spreadsheet cell, a form field or
    a document field can hold. *)
Inductive value : Type :=
  | VUndefined
  | VNull
  | VBool (b : bool)
  | VNumber (n : number)
  | VString (s : string).

(** ToBoolean *)
Definition truthy (v : value) : bool :=
  match v with
  | VUndefined | VNull => false
  | VBool b => b
  | VNumber n => truthy_number n
  | VString s => negb (is_empty s)
  end.

(** [String(v)] *)
Definition ToString (v : value) : string :=
  match v with
  | VUndefined => "undefined"
  | VNull => "null"
  | VBool b => if b then "true" else "false"
  | VNumber n => NumberToString n
  | VString s => s
  end.

(** [Number(v)] *)
Definition ToNumber (v : value) : number :=
  match v with
  | VUndefined => NaN
  | VNull => pos_zero
  | VBool b => if b then of_Z 1 else pos_zero
  | VNumber n => n
  | VString s => StringToNumber s
  end.

(** [a || b] on values and on Numbers. *)
Definition or_else (a b : value) : value := if truthy a then a else b.
Definition or_number (a b : number) : number := if truthy_number a then a else b.

(** ** Objects used as dictionaries *)

(** An array index: the canonical decimal text of an integer between 0 and
    [2 ^ 32 - 2]. *)
Definition array_index (k : string) : option Z :=
  match k with
  | EmptyString => None
  | String c t =>
      let '(v, _, rest) := read_digits 10 digit_of k 0 0 in
      if is_empty rest && (negb (Ascii.eqb c "0") || is_empty t) && (v <=? 4294967294)
      then Some v else None
  end.

Fixpoint insert_by_index {A : Type} (v : Z) (e : string * A)
    (l : list (Z * (string * A))) : list (Z * (string * A)) :=
  match l with
  | [] => [(v, e)]
  | (v', e') :: t =>
      if v <=? v' then (v, e) :: l else (v', e') :: insert_by_index v e t
  end.

(** The order in which [Object.keys] and [Object.entries] list the
    properties of an object, given in insertion order: array indices first,
    ascending, then the other keys as inserted. *)
Definition own_keys_order {A : Type} (m : list (string * A)) : list (string * A) :=
  List.map snd
    (List.fold_right
       (fun e acc =>
          match array_index (fst e) with
          | Some v => insert_by_index v e acc
          | None => acc
          end) [] m)
  ++ List.filter
       (fun e => match array_index (fst e) with Some _ => false | None => true end) m.

End JS.

Declare Scope js_scope.
Delimit Scope js_scope with js.
Infix "<||>" := JS.or_else (at level 51, left associativity) : js_scope.
Local Open Scope js_scope.

Module Server.
Import JS.

(** ** Collections *)

Module Salesperson.
(** [salespersonSchema]; [_id] is the document's ObjectId. *)
Record t : Type := mk
  { _id : N; name : string; brand : option string; section : option string }.
End Salesperson.

Module MonthlyAchievement.
(** [monthlyAchievementSchema] *)
Record t : Type := mk
  { salesperson : N;
    year : number;
    month : number;
    ownAchievement : number;
    otherAchievement : number;
    totalAchievement : number }.
End MonthlyAchievement.

(** A collection is the list of its documents, oldest first. *)
Definition salespersons : Type := list Salesperson.t.
Definition achievements : Type := list MonthlyAchievement.t.

(** The filter [{ salesperson, year, month }]. *)
Definition matches_key (id : N) (y m : number) (d : MonthlyAchievement.t) : bool :=
  N.eqb (MonthlyAchievement.salesperson d) id &&
  strict_eq (MonthlyAchievement.year d) y &&
  strict_eq (MonthlyAchievement.month d) m.

(** The filter [{ year, month }]. *)
Definition matches_period (y m : number) (d : MonthlyAchievement.t) : bool :=
  strict_eq (MonthlyAchievement.year d) y &&
  strict_eq (MonthlyAchievement.month d) m.

(** A field declared [{ type: Number }] takes every Number but [NaN]: the
    cast of a filter that holds [NaN] throws, and so does the validation
    of a document that holds it when the document is saved. *)
Definition is_number (n : number) : bool := negb (isNaN n).

(** [MonthlyAchievement.findOne({ salesperson, year, month })], for a filter
    that is cast. *)
Definition findAchievement (db : achievements) (id : N) (y m : number)
    : option MonthlyAchievement.t :=
  List.find (matches_key id y m) db.

(** [MonthlyAchievement.deleteMany({ year, month })], for a filter that is
    cast. *)
Definition deleteMany (db : achievements) (y m : number) : achievements :=
  List.filter (fun d => negb (matches_period y m d)) db.

(** [Salesperson.findOne({ name })] *)
Definition findSalesperson (sps : salespersons) (nm : string)
    : option Salesperson.t :=
  List.find (fun sp => String.eqb (Salesperson.name sp) nm) sps.

(** Saving a document that was found: it replaces the stored one. *)
Fixpoint save_first {A : Type} (p : A -> bool) (f : A -> A) (l : list A) : list A :=
  match l with
  | [] => []
  | x :: t => if p x then f x :: t else x :: save_first p f t
  end.

(** ** Business helpers *)

Definition FINANCE_CUSTOMERS : gset string :=
  {[ "BAJAJ FINANCE LTD"; "TVS FINANCE LTD"; "HDB FINANCE LTD" ]}.

(** [num(val)] *)
Definition num (val : value) : number :=
  match val with
  | VUndefined | VNull | VString EmptyString => pos_zero
  | _ =>
      let n := StringToNumber (trim (remove_char "," (ToString val))) in
      if isNaN n then pos_zero else n
  end.

(** [isSparesItem(itemModel)] *)
Definition isSparesItem (itemModel : value) : bool :=
  if negb (truthy itemModel) then false
  else startsWith (toUpperCase (trim (ToString itemModel))) "SPARES".

(** [normalizeInvoiceNo(v)]; the replacement of [/\*+$/] removes the
    trailing run of asterisks. *)
Definition normalizeInvoiceNo (v : value) : string :=
  if negb (truthy v) then ""
  else dropWhileEnd (Ascii.eqb "*") (toUpperCase (trim (ToString v))).

(** The validation of a document of [MonthlyAchievement] that is saved:
    none of the three totals is [NaN]. *)
Definition validates_achievement (d : MonthlyAchievement.t) : bool :=
  is_number (MonthlyAchievement.ownAchievement d)
  && is_number (MonthlyAchievement.otherAchievement d)
  && is_number (MonthlyAchievement.totalAchievement d).

(** [upsertAchievement(salespersonId, year, month, ownDelta, otherDelta)]:
    the collection after the call, [None] when [findOne] or [save] throws. *)
Definition upsertAchievement (db : achievements) (salespersonId : N)
    (year month ownDelta otherDelta : number) : option achievements :=
  if negb (is_number year) || negb (is_number month) then None
  else
    let totalDelta := add ownDelta otherDelta in
    match findAchievement db salespersonId year month with
    | Some existing =>
        let merge := fun existing =>
          MonthlyAchievement.mk
            (MonthlyAchievement.salesperson existing)
            (MonthlyAchievement.year existing)
            (MonthlyAchievement.month existing)
            (add (MonthlyAchievement.ownAchievement existing) ownDelta)
            (add (MonthlyAchievement.otherAchievement existing) otherDelta)
            (add (MonthlyAchievement.totalAchievement existing) totalDelta) in
        if validates_achievement (merge existing) then
          Some (save_first (matches_key salespersonId year month) merge db)
        else None
    | None =>
        let doc :=
          MonthlyAchievement.mk salespersonId year month
            ownDelta otherDelta totalDelta in
        if validates_achievement doc then Some (db ++ [doc]) else None
    end.

(** ** processRowsForSalesperson *)

(** A row of a block: the object built from the shared header. *)
Abbreviation row := (gmap string value).

(** [row[k]] *)
Definition cell (r : row) (k : string) : value := default VUndefined (r !! k).

Module LineItem.
Record t : Type := mk { model : value; brand : value; netAmount : number }.
End LineItem.

Module Invoice.
Record t : Type := mk
  { invoiceNo : string;
    customer : value;
    netInvoice : number;
    amountRealised : number;
    invoiceValue : number;
    ccCharges : number;
    negRoundOff : number;
    posRoundOff : number;
    cashDiscount : number;
    items : list LineItem.t }.
End Invoice.

(** The [Map] of invoices: its entries in insertion order. *)
Definition invoice_map : Type := list (string * Invoice.t).

(** [invoices.get(k)] *)
Fixpoint map_get (m : invoice_map) (k : string) : option Invoice.t :=
  match m with
  | [] => None
  | (k', v) :: t => if String.eqb k' k then Some v else map_get t k
  end.

(** [invoices.set(k, v)], and the effect of mutating the object stored
    under [k]: an existing entry keeps its place. *)
Fixpoint map_set (m : invoice_map) (k : string) (v : Invoice.t) : invoice_map :=
  match m with
  | [] => [(k, v)]
  | (k', v') :: t =>
      if String.eqb k' k then (k', v) :: t else (k', v') :: map_set t k v
  end.

(** The cell expressions of the loop over the rows. *)
Definition invNoCell (r : row) : value :=
  cell r "Invoice No." <||> cell r "Invoice No" <||> cell r "INVOICE NO"
    <||> cell r "Invoice" <||> cell r "Inv No".

(** [invNoRaw], after [invNoRaw ? String(invNoRaw).trim() : ""]. *)
Definition invNoRaw (r : row) : string :=
  let v := invNoCell r in
  if truthy v then trim (ToString v) else "".

Definition customerCell (r : row) : value :=
  cell r "Customer" <||> cell r "Financier/Customer"
    <||> cell r "Financier / Customer" <||> cell r "Party" <||> VString "".

(** The monetary fields of an invoice. *)
Inductive money : Type :=
  | NetInvoice | AmountRealised | InvoiceValue | CcCharges
  | NegRoundOff | PosRoundOff | CashDiscount.

(** What a row supplies for a monetary field. *)
Definition candidate (f : money) (r : row) : number :=
  match f with
  | NetInvoice => num (cell r "Net Invoice" <||> cell r "Net Inv")
  | AmountRealised => num (cell r "Amount Realised" <||> cell r "Amt Realised")
  | InvoiceValue => num (cell r "Invoice Value" <||> cell r "Inv Value")
  | CcCharges => num (cell r "(+) CREDIT CARD CHARGES")
  | NegRoundOff => num (cell r "(-) Round Off")
  | PosRoundOff => num (cell r "(+) Round Off")
  | CashDiscount => num (cell r "(-) CASH DISCOUNT")
  end.

Definition field (f : money) (inv : Invoice.t) : number :=
  match f with
  | NetInvoice => Invoice.netInvoice inv
  | AmountRealised => Invoice.amountRealised inv
  | InvoiceValue => Invoice.invoiceValue inv
  | CcCharges => Invoice.ccCharges inv
  | NegRoundOff => Invoice.negRoundOff inv
  | PosRoundOff => Invoice.posRoundOff inv
  | CashDiscount => Invoice.cashDiscount inv
  end.

(** The object created for an invoice number met for the first time. *)
Definition new_invoice (normInvNo : string) (r : row) : Invoice.t :=
  Invoice.mk normInvNo (customerCell r)
    (candidate NetInvoice r) (candidate AmountRealised r)
    (candidate InvoiceValue r) (candidate CcCharges r)
    (candidate NegRoundOff r) (candidate PosRoundOff r)
    (candidate CashDiscount r) [].

(** [if (!inv.f && c) inv.f = c] *)
Definition fill_one (cur c : number) : number :=
  if negb (truthy_number cur) && truthy_number c then c else cur.

(** The [else] branch: invoice-level numbers filled in if still missing. *)
Definition fill_invoice (inv : Invoice.t) (r : row) : Invoice.t :=
  Invoice.mk (Invoice.invoiceNo inv) (Invoice.customer inv)
    (fill_one (Invoice.netInvoice inv) (candidate NetInvoice r))
    (fill_one (Invoice.amountRealised inv) (candidate AmountRealised r))
    (fill_one (Invoice.invoiceValue inv) (candidate InvoiceValue r))
    (fill_one (Invoice.ccCharges inv) (candidate CcCharges r))
    (fill_one (Invoice.negRoundOff inv) (candidate NegRoundOff r))
    (fill_one (Invoice.posRoundOff inv) (candidate PosRoundOff r))
    (fill_one (Invoice.cashDiscount inv) (candidate CashDiscount r))
    (Invoice.items inv).

(** The line item pushed for a row. *)
Definition line_item (r : row) : LineItem.t :=
  LineItem.mk
    (cell r "Item/Model" <||> cell r "Item" <||> VString "")
    (cell r "Brand" <||> VString "")
    (num (cell r "Net Amount" <||> cell r "Net Amt")).

(** [inv.items.push(item)] *)
Definition push_item (inv : Invoice.t) (it : LineItem.t) : Invoice.t :=
  Invoice.mk (Invoice.invoiceNo inv) (Invoice.customer inv)
    (Invoice.netInvoice inv) (Invoice.amountRealised inv)
    (Invoice.invoiceValue inv) (Invoice.ccCharges inv)
    (Invoice.negRoundOff inv) (Invoice.posRoundOff inv)
    (Invoice.cashDiscount inv) (Invoice.items inv ++ [it]).

(** The state of the first loop: [invoices] and [lastInvNo] ([None] is
    [null]). *)
Definition agg_state : Type := invoice_map * option string.

(** [normInvNo] for a row: its own number, or the inherited one. *)
Definition normInvNo (lastInvNo : option string) (r : row) : option string :=
  if negb (is_empty (invNoRaw r))
  then Some (normalizeInvoiceNo (VString (invNoRaw r)))
  else lastInvNo.

(** One iteration of [for (const row of rows)]. *)
Definition agg_step (st : agg_state) (r : row) : agg_state :=
  let '(invoices, lastInvNo) := st in
  match normInvNo lastInvNo r with
  | None => st
  | Some k =>
      if is_empty k then st
      else
        let lastInvNo' := if negb (is_empty (invNoRaw r)) then Some k else lastInvNo in
        let inv :=
          match map_get invoices k with
          | None => new_invoice k r
          | Some inv => fill_invoice inv r
          end in
        (map_set invoices k (push_item inv (line_item r)), lastInvNo')
  end.

Definition aggregate_from (st : agg_state) (rows : list row) : agg_state :=
  List.fold_left agg_step rows st.

(** The invoices built from the rows of a block. *)
Definition aggregate (rows : list row) : invoice_map :=
  fst (aggregate_from ([], None) rows).

(** [ownBrand] *)
Definition ownBrand (sp : Salesperson.t) : option string :=
  match Salesperson.brand sp with
  | Some b => if is_empty b then None else Some (toUpperCase b)
  | None => None
  end.

(** [ownBrand && modelUpper.startsWith(ownBrand)] *)
Definition is_own (ownBrand : option string) (modelUpper : string) : bool :=
  match ownBrand with
  | Some b => negb (is_empty b) && startsWith modelUpper b
  | None => false
  end.

(** The per-invoice sums [(sparesTotal, ownNet, otherNet)]. *)
Definition nets : Type := number * number * number.

(** [model] and [netAmount] of the loop over the items. *)
Definition model_of (item : LineItem.t) : string :=
  ToString (LineItem.model item <||> VString "").

Definition netAmount_of (item : LineItem.t) : number :=
  or_number (LineItem.netAmount item) pos_zero.

(** One iteration of [for (const item of inv.items)]. *)
Definition item_step (ownBrand : option string) (acc : nets) (item : LineItem.t) : nets :=
  let '(sparesTotal, ownNet, otherNet) := acc in
  let model := model_of item in
  let netAmount := netAmount_of item in
  if negb (truthy_number netAmount) then acc
  else if isSparesItem (VString model) then (add sparesTotal netAmount, ownNet, otherNet)
  else
    let modelUpper := toUpperCase model in
    if is_own ownBrand modelUpper then (sparesTotal, add ownNet netAmount, otherNet)
    else (sparesTotal, ownNet, add otherNet netAmount).

Definition classify (ownBrand : option string) (inv : Invoice.t) : nets :=
  List.fold_left (item_step ownBrand) (Invoice.items inv) (pos_zero, pos_zero, pos_zero).

Definition canonical_customer (inv : Invoice.t) : string :=
  toUpperCase (trim (ToString (Invoice.customer inv <||> VString ""))).

Definition finalInvoiceValue (inv : Invoice.t) : number :=
  sub (add (sub (sub (Invoice.invoiceValue inv) (Invoice.ccCharges inv))
                (Invoice.negRoundOff inv))
           (Invoice.posRoundOff inv))
      (Invoice.cashDiscount inv).

Definition adjustedInvoice (ownBrand : option string) (inv : Invoice.t) : number :=
  sub (finalInvoiceValue inv) (fst (fst (classify ownBrand inv))).

Definition isMismatch (inv : Invoice.t) : bool :=
  negb (strict_eq (Math_round (or_number (Invoice.netInvoice inv) pos_zero))
                  (Math_round (or_number (Invoice.amountRealised inv) pos_zero))).

Definition isFinanceCustomer (inv : Invoice.t) : bool :=
  bool_decide (canonical_customer inv ∈ FINANCE_CUSTOMERS).

(** One iteration of [for (const [invKey, inv] of invoices)] on
    [(totalOwn, totalOther)]. *)
Definition invoice_step (returnInvoiceSet : gset string) (ownBrand : option string)
    (totals : number * number) (entry : string * Invoice.t) : number * number :=
  let '(totalOwn, totalOther) := totals in
  let '(invKey, inv) := entry in
  if bool_decide (invKey ∈ returnInvoiceSet) then totals
  else
    let '(_, ownNet, otherNet) := classify ownBrand inv in
    if isMismatch inv && negb (isFinanceCustomer inv) then totals
    else if strict_eq ownNet pos_zero && strict_eq otherNet pos_zero then totals
    else (add totalOwn ownNet, add totalOther otherNet).

(** [(totalOwn, totalOther)] after the loop over the invoices. *)
Definition reconcile (returnInvoiceSet : gset string) (ownBrand : option string)
    (invoices : invoice_map) : number * number :=
  List.fold_left (invoice_step returnInvoiceSet ownBrand) invoices (pos_zero, pos_zero).

(** [processRowsForSalesperson(rows, salespersonName, year, month, factor,
    returnInvoiceSet)]: the achievements after the call, [None] when
    [upsertAchievement] throws. *)
Definition processRowsForSalesperson (sps : salespersons) (db : achievements)
    (rows : list row) (salespersonName : string) (year month factor : number)
    (returnInvoiceSet : gset string) : option achievements :=
  let invoices := aggregate rows in
  match findSalesperson sps (toUpperCase (trim salespersonName)) with
  | None => Some db
  | Some sp =>
      let '(totalOwn, totalOther) := reconcile returnInvoiceSet (ownBrand sp) invoices in
      upsertAchievement db (Salesperson._id sp) year month
        (mul factor totalOwn) (mul factor totalOther)
  end.

(** ** extractReturnInvoiceSet *)

(** A sheet as [XLSX.utils.sheet_to_json(sheet, { header: 1, defval: "" })]
    returns it: the rows, each the array of its cells. *)
Definition sheet : Type := list (list value).

(** [arr[i]] *)
Definition at_index (arr : list value) (i : nat) : value :=
  List.nth i arr VUndefined.

(** [arr.findIndex(p)], [None] standing for [-1]. *)
Fixpoint findIndex (p : value -> bool) (arr : list value) : option nat :=
  match arr with
  | [] => None
  | c :: t => if p c then Some O else option_map S (findIndex p t)
  end.

(** [raw.split(/\s+/)[0]] for a trimmed, non-empty [raw]. *)
Definition first_token (raw : string) : string :=
  takeWhile (fun c => negb (is_space c)) raw.

(** [extractReturnInvoiceSet], from the rows of the returns file. *)
Definition extractReturnInvoiceSet (rows : sheet) : gset string :=
  match rows with
  | [] => ∅
  | headerRow :: body =>
      let refColIndex :=
        match findIndex
                (fun c => startsWith (toUpperCase (trim (ToString c))) "REF. DOC")
                headerRow with
        | Some i => i
        | None => O
        end in
      List.fold_left
        (fun (returnSet : gset string) rowArr =>
           let raw := trim (ToString (at_index rowArr refColIndex <||> VString "")) in
           if is_empty raw then returnSet
           else
             let norm := normalizeInvoiceNo (VString (first_token raw)) in
             if is_empty norm then returnSet else {[ norm ]} ∪ returnSet)
        body ∅
  end.

(** ** processExcelFileMulti *)

(** The state of the scan: [currentSalesperson], [rowsBySalesperson] (its
    keys in insertion order) and [globalHeader]. *)
Record seg_state : Type := mk_seg
  { currentSalesperson : option string;
    rowsBySalesperson : list (string * list row);
    globalHeader : option (list value) }.

Definition firstCell (rowArr : list value) : string :=
  trim (ToString (at_index rowArr 0 <||> VString "")).

Definition secondCell (rowArr : list value) : string :=
  trim (ToString (at_index rowArr 1 <||> VString "")).

(** [secondCell.toUpperCase().includes("TOTAL")] *)
Definition second_has_total (rowArr : list value) : bool :=
  includes (toUpperCase (secondCell rowArr)) "TOTAL".

(** [/^Date$/i.test(firstCell)] *)
Definition is_date_row (rowArr : list value) : bool :=
  test_literal_ci "Date" (firstCell rowArr).

Definition isRowEmpty (rowArr : list value) : bool :=
  List.forallb (fun c => is_empty (trim (ToString (c <||> VString "")))) rowArr.

Definition is_meta_row (rowArr : list value) : bool :=
  isRowEmpty rowArr
  || test_literal_ci "total" (firstCell rowArr)
  || test_literal_ci "grand total" (firstCell rowArr)
  || test_label_ci "branch" (firstCell rowArr)
  || test_label_ci "period" (firstCell rowArr).

(** The object built from [globalHeader] and a row, cell by cell. *)
Fixpoint rowObj_from (header : list value) (rowArr : list value) (idx : nat)
    (acc : row) : row :=
  match header with
  | [] => acc
  | h :: hs =>
      rowObj_from hs rowArr (S idx)
        (if negb (truthy h) then acc
         else <[ trim (ToString h) := at_index rowArr idx ]> acc)
  end.

Definition rowObj (header rowArr : list value) : row :=
  rowObj_from header rowArr O ∅.

Fixpoint has_block (m : list (string * list row)) (k : string) : bool :=
  match m with
  | [] => false
  | (k', _) :: t => String.eqb k' k || has_block t k
  end.

(** [rowsBySalesperson[k].push(r)] *)
Fixpoint push_row (m : list (string * list row)) (k : string) (r : row)
    : list (string * list row) :=
  match m with
  | [] => []
  | (k', rs) :: t =>
      if String.eqb k' k then (k', rs ++ [r]) :: t else (k', rs) :: push_row t k r
  end.

(** The name after the first colon of a [Salesperson: NAME] line. *)
Definition namePart (firstCell : string) : string :=
  match split ":" firstCell with
  | _ :: p :: _ => if is_empty p then "" else trim p
  | _ => ""
  end.

Definition isSome {A : Type} (o : option A) : bool :=
  match o with Some _ => true | None => false end.

(** One iteration of [for (const rowArr of rows)]. *)
Definition seg_step (st : seg_state) (rowArr : list value) : seg_state :=
  if second_has_total rowArr then st
  else if negb (isSome (globalHeader st)) && is_date_row rowArr then
    mk_seg (currentSalesperson st) (rowsBySalesperson st) (Some rowArr)
  else if test_label_ci "Salesperson" (firstCell rowArr) then
    let nm := namePart (firstCell rowArr) in
    if is_empty nm then mk_seg None (rowsBySalesperson st) (globalHeader st)
    else
      let cur := toUpperCase nm in
      mk_seg (Some cur)
        (if has_block (rowsBySalesperson st) cur then rowsBySalesperson st
         else rowsBySalesperson st ++ [(cur, [])])
        (globalHeader st)
  else
    match currentSalesperson st, globalHeader st with
    | Some cur, Some header =>
        if is_empty cur then st
        else if is_meta_row rowArr then st
        else
          mk_seg (currentSalesperson st)
            (push_row (rowsBySalesperson st) cur (rowObj header rowArr))
            (globalHeader st)
    | _, _ => st
    end.

Definition seg_init : seg_state := mk_seg None [] None.

(** The scan of a whole sheet. *)
Definition segment (rows : sheet) : seg_state :=
  List.fold_left seg_step rows seg_init.

(** The loop over [salespersonNames]: the achievements when it ends, and
    whether it ended without a throw. *)
Fixpoint process_blocks (sps : salespersons) (db : achievements)
    (blocks : list (string * list row)) (year month : number)
    (returnInvoiceSet : gset string) : achievements * bool :=
  match blocks with
  | [] => (db, true)
  | (name, blockRows) :: rest =>
      match blockRows with
      | [] => process_blocks sps db rest year month returnInvoiceSet
      | _ =>
          match processRowsForSalesperson sps db blockRows name year month
                  (of_Z 1) returnInvoiceSet with
          | Some db' => process_blocks sps db' rest year month returnInvoiceSet
          | None => (db, false)
          end
      end
  end.

(** [processExcelFileMulti], from the rows of the sales file: the blocks
    are handed to [processRowsForSalesperson] in the order of
    [Object.keys(rowsBySalesperson)]. *)
Definition processExcelFileMulti (sps : salespersons) (db : achievements)
    (rows : sheet) (year month : number) (returnInvoiceSet : gset string)
    : achievements * bool :=
  process_blocks sps db (own_keys_order (rowsBySalesperson (segment rows)))
    year month returnInvoiceSet.

(** ** POST /api/upload-sales *)

(** The request: the form fields [year] and [month], and the uploaded
    files, each given by the rows of its first sheet. *)
Record upload_request : Type := mk_request
  { body_year : value;
    body_month : value;
    salesFile : option sheet;
    returnsFile : option sheet;
    file : option sheet }.

(** The response: its status and the [error] or [message] it carries. *)
Record response : Type := mk_response { status : Z; text : string }.

(** [req.files?.salesFile?.[0] || req.files?.file?.[0] || null] *)
Definition salesUploaded (req : upload_request) : option sheet :=
  match salesFile req with
  | Some f => Some f
  | None => file req
  end.

(** The handler: the response and the achievements it leaves; [message]
    is the message of the exception that is caught, as the driver words
    it. *)
Definition upload_sales (message : string) (sps : salespersons)
    (db : achievements) (req : upload_request) : response * achievements :=
  if negb (truthy (body_year req)) || negb (truthy (body_month req)) then
    (mk_response 400 "year and month are required", db)
  else
    let yearNum := ToNumber (body_year req) in
    let monthNum := ToNumber (body_month req) in
    if negb (is_number yearNum) || negb (is_number monthNum) then
      (mk_response 500 message, db)
    else
      let db1 := deleteMany db yearNum monthNum in
      match salesUploaded req with
      | None => (mk_response 400 "Sales Excel file is required", db1)
      | Some sales =>
          let returnInvoiceSet :=
            match returnsFile req with
            | Some returns => extractReturnInvoiceSet returns
            | None => ∅
            end in
          let '(db2, completed) :=
            processExcelFileMulti sps db1 sales yearNum monthNum returnInvoiceSet in
          if completed then
            (mk_response 200 "Sales processed successfully (returns used to skip invoices)",
             db2)
          else (mk_response 500 message, db2)
      end.

(** ** upsertSalesperson *)

(** Code that can throw returns an [option]: [None] when it throws. *)

(** [x ? x.trim().toUpperCase() : null]: a truthy [x] that is not a string
    has no [trim], and the call throws. *)
Definition upper_or_null (x : value) : option (option string) :=
  if truthy x then
    match x with
    | VString s => Some (Some (toUpperCase (trim s)))
    | _ => None
    end
  else Some None.

(** The new content of a field of an existing document: untouched when the
    argument is [undefined]. *)
Definition updated_field (arg : value) (old : option string) : option (option string) :=
  match arg with
  | VUndefined => Some old
  | _ => upper_or_null arg
  end.

(** The content of a field of a new document. *)
Definition initial_field (arg : value) : option (option string) :=
  match arg with
  | VUndefined => Some None
  | _ => upper_or_null arg
  end.

(** [name: { type: String, required: true }]: a document whose name is
    empty does not pass validation, and [save] throws. *)
Definition validates (sp : Salesperson.t) : bool :=
  negb (is_empty (Salesperson.name sp)).

(** [upsertSalesperson(name, brand, section)], the declaration in force
    (the later of the two); [newId] gives the [_id] of a document created
    in a collection.  The result is the collection after the call and the
    document returned. *)
Definition upsertSalesperson (newId : salespersons -> N) (sps : salespersons)
    (name brand section : value) : option (salespersons * Salesperson.t) :=
  match name with
  | VString s =>
      let normalizedName := toUpperCase (trim s) in
      match findSalesperson sps normalizedName with
      | Some existing =>
          match updated_field brand (Salesperson.brand existing) with
          | None => None
          | Some b =>
              match updated_field section (Salesperson.section existing) with
              | None => None
              | Some c =>
                  let saved :=
                    Salesperson.mk (Salesperson._id existing)
                      (Salesperson.name existing) b c in
                  if validates saved then
                    Some (save_first
                            (fun sp => String.eqb (Salesperson.name sp) normalizedName)
                            (fun _ => saved) sps,
                          saved)
                  else None
              end
          end
      | None =>
          match initial_field brand with
          | None => None
          | Some b =>
              match initial_field section with
              | None => None
              | Some c =>
                  let sp := Salesperson.mk (newId sps) normalizedName b c in
                  if validates sp then Some (sps ++ [sp], sp) else None
              end
          end
      end
  | _ => None
  end.

(** ** The routes of the directory *)

(** What a route answers: [res.json(a)], or [res.status(s).json({ error })]. *)
Inductive reply (A : Type) : Type :=
  | Json (a : A)
  | Failure (status : Z) (error : string).
Arguments Json {A} a.
Arguments Failure {A} status error.

(** [Salesperson.find().sort({ name: 1 })]: ascending by name, the order
    of the character codes. *)
Fixpoint insert_by_name (sp : Salesperson.t) (l : salespersons) : salespersons :=
  match l with
  | [] => [sp]
  | x :: t =>
      if String.leb (Salesperson.name sp) (Salesperson.name x) then sp :: l
      else x :: insert_by_name sp t
  end.

Definition sort_by_name (sps : salespersons) : salespersons :=
  List.fold_right insert_by_name [] sps.

(** [POST /api/salespersons] with the body [{ name, brand, section }] *)
Definition post_salespersons (newId : salespersons -> N) (sps : salespersons)
    (name brand section : value) : reply Salesperson.t * salespersons :=
  if negb (truthy name) then (Failure 400 "name is required", sps)
  else
    match upsertSalesperson newId sps name brand section with
    | Some (sps', sp) => (Json sp, sps')
    | None => (Failure 500 "Failed to upsert salesperson", sps)
    end.

(** An item of the array of [POST /api/salespersons/bulk]; [item_id] is
    the document the [id] field denotes, [None] when the field is missing
    or falsy. *)
Record bulk_item : Type := mk_item
  { item_id : option N;
    item_name : value;
    item_brand : value;
    item_section : value }.

(** [Salesperson.findById(id)] *)
Definition findById (sps : salespersons) (id : N) : option Salesperson.t :=
  List.find (fun sp => N.eqb (Salesperson._id sp) id) sps.

(** [x ? String(x).trim().toUpperCase() : null] *)
Definition upper_string_or_null (x : value) : option string :=
  if truthy x then Some (toUpperCase (trim (ToString x))) else None.

(** The document an item designates, and the test that finds it again. *)
Definition designated (sps : salespersons) (it : bulk_item)
    : option (Salesperson.t * (Salesperson.t -> bool)) :=
  match item_id it with
  | Some id =>
      option_map (fun sp => (sp, fun d => N.eqb (Salesperson._id d) id))
        (findById sps id)
  | None =>
      if truthy (item_name it) then
        let nm := toUpperCase (trim (ToString (item_name it))) in
        option_map (fun sp => (sp, fun d => String.eqb (Salesperson.name d) nm))
          (findSalesperson sps nm)
      else None
  end.

(** The loop over the items ([None] is an item that is falsy): the
    collection when the loop ends, and whether it ended without a throw. *)
Fixpoint bulk_loop (sps : salespersons) (items : list (option bulk_item))
    : salespersons * bool :=
  match items with
  | [] => (sps, true)
  | None :: rest => bulk_loop sps rest
  | Some it :: rest =>
      match designated sps it with
      | None => bulk_loop sps rest
      | Some (sp, again) =>
          let saved :=
            Salesperson.mk (Salesperson._id sp) (Salesperson.name sp)
              (upper_string_or_null (item_brand it))
              (upper_string_or_null (item_section it)) in
          if validates saved then bulk_loop (save_first again (fun _ => saved) sps) rest
          else (sps, false)
      end
  end.

(** [POST /api/salespersons/bulk]; the body field [salespersons] is [None]
    when it is not an array. *)
Definition post_salespersons_bulk (sps : salespersons)
    (body : option (list (option bulk_item))) : reply salespersons * salespersons :=
  match body with
  | None => (Failure 400 "salespersons array is required", sps)
  | Some items =>
      let '(sps', ok) := bulk_loop sps items in
      if ok then (Json (sort_by_name sps'), sps')
      else (Failure 500 "Failed to bulk update salespersons", sps')
  end.

(** [GET /api/salespersons] *)
Definition get_salespersons (sps : salespersons) : reply salespersons :=
  Json (sort_by_name sps).

(** ** Targets *)

Module MonthlyTarget.
(** [monthlyTargetSchema] *)
Record t : Type := mk
  { salesperson : N; year : number; month : number; target : number }.
End MonthlyTarget.

Definition targets : Type := list MonthlyTarget.t.

(** The filter [{ salesperson, year, month }] on targets. *)
Definition matches_target (id : N) (y m : number) (d : MonthlyTarget.t) : bool :=
  N.eqb (MonthlyTarget.salesperson d) id &&
  strict_eq (MonthlyTarget.year d) y &&
  strict_eq (MonthlyTarget.month d) m.

(** [MonthlyTarget.findOne({ salesperson, year, month })] *)
Definition findTarget (ts : targets) (id : N) (y m : number)
    : option MonthlyTarget.t :=
  List.find (matches_target id y m) ts.

(** A truthy value given for a field declared [{ type: Number }]: the
    schema casts it with [Number], and refuses [NaN]. *)
Definition castNumber (v : value) : option number :=
  let n := ToNumber v in
  if isNaN n then None else Some n.

(** The statements that both target routes run once the salesperson is
    known: the target found is overwritten, or one is created. *)
Definition store_target (ts : targets) (id : N) (year month : value) (t : number)
    : option targets :=
  match castNumber year, castNumber month with
  | Some y, Some m =>
      match findTarget ts id y m with
      | Some _ =>
          if isNaN t then None
          else
            Some (save_first (matches_target id y m)
                    (fun existing =>
                       MonthlyTarget.mk (MonthlyTarget.salesperson existing)
                         (MonthlyTarget.year existing) (MonthlyTarget.month existing) t)
                    ts)
      | None =>
          if isNaN t then None
          else Some (ts ++ [MonthlyTarget.mk id y m t])
      end
  | _, _ => None
  end.

(** [POST /api/targets] with the body [{ name, year, month, target }]:
    the answer, the salespersons and the targets after the request. *)
Definition post_targets (newId : salespersons -> N) (sps : salespersons)
    (ts : targets) (name year month target : value)
    : reply unit * salespersons * targets :=
  if negb (truthy name) || negb (truthy year) || negb (truthy month) then
    (Failure 400 "name, year, month are required", sps, ts)
  else
    match upsertSalesperson newId sps name VUndefined VUndefined with
    | None => (Failure 500 "Failed to set target", sps, ts)
    | Some (sps', sp) =>
        let t := ToNumber (target <||> VNumber pos_zero) in
        match store_target ts (Salesperson._id sp) year month t with
        | Some ts' => (Json tt, sps', ts')
        | None => (Failure 500 "Failed to set target", sps', ts)
        end
    end.

(** An item of the array of [POST /api/targets/bulk]. *)
Record target_item : Type := mk_target_item
  { target_name : value; target_value : value }.

(** The loop over the items of [POST /api/targets/bulk]. *)
Fixpoint targets_loop (newId : salespersons -> N) (sps : salespersons)
    (ts : targets) (year month : value) (items : list (option target_item))
    : salespersons * targets * bool :=
  match items with
  | [] => (sps, ts, true)
  | None :: rest => targets_loop newId sps ts year month rest
  | Some item :: rest =>
      if negb (truthy (target_name item)) then targets_loop newId sps ts year month rest
      else
        let name := trim (ToString (target_name item)) in
        let t := ToNumber (target_value item <||> VNumber pos_zero) in
        match upsertSalesperson newId sps (VString name) VUndefined VUndefined with
        | None => (sps, ts, false)
        | Some (sps', sp) =>
            match store_target ts (Salesperson._id sp) year month t with
            | Some ts' => targets_loop newId sps' ts' year month rest
            | None => (sps', ts, false)
            end
        end
  end.

(** [POST /api/targets/bulk] with the body [{ year, month, targets }];
    [items] is [None] when [targets] is not an array. *)
Definition post_targets_bulk (newId : salespersons -> N) (sps : salespersons)
    (ts : targets) (year month : value) (items : option (list (option target_item)))
    : reply unit * salespersons * targets :=
  if negb (truthy year) || negb (truthy month) then
    (Failure 400 "year and month are required", sps, ts)
  else
    match items with
    | None => (Failure 400 "targets array is required", sps, ts)
    | Some l =>
        let '(sps', ts', ok) := targets_loop newId sps ts year month l in
        if ok then (Json tt, sps', ts')
        else (Failure 500 "Failed to bulk set targets", sps', ts')
    end.

(** ** GET /api/dashboard *)

Definition div : number -> number -> number := SFdiv prec emax.

(** [a > b] on Numbers. *)
Definition gt (a b : number) : bool := SFltb b a.

Record dashboard_row : Type := mk_dashboard_row
  { row_name : string;
    row_brand : option string;
    row_section : option string;
    row_target : number;
    row_ownAchievement : number;
    row_otherAchievement : number;
    row_totalAchievement : number;
    row_totalPercent : option number }.

(** [doc?.field || 0] *)
Definition field_or_zero {A : Type} (doc : option A) (f : A -> number) : number :=
  match doc with
  | Some d => or_number (f d) pos_zero
  | None => pos_zero
  end.

(** The body of the loop over the salespersons. *)
Definition dashboard_entry (ts : targets) (achs : achievements) (year month : number)
    (sp : Salesperson.t) : dashboard_row :=
  let targetDoc := findTarget ts (Salesperson._id sp) year month in
  let achievement := findAchievement achs (Salesperson._id sp) year month in
  let target := field_or_zero targetDoc MonthlyTarget.target in
  let ownAchievement := field_or_zero achievement MonthlyAchievement.ownAchievement in
  let otherAchievement := field_or_zero achievement MonthlyAchievement.otherAchievement in
  let totalAchievement := field_or_zero achievement MonthlyAchievement.totalAchievement in
  let totalPercent :=
    if gt target pos_zero then Some (mul (div totalAchievement target) (of_Z 100))
    else None in
  mk_dashboard_row (Salesperson.name sp) (Salesperson.brand sp) (Salesperson.section sp)
    target ownAchievement otherAchievement totalAchievement totalPercent.

(** [GET /api/dashboard?year=..&month=..] *)
Definition get_dashboard (sps : salespersons) (ts : targets) (achs : achievements)
    (query_year query_month : value) : reply (list dashboard_row) :=
  let year := ToNumber query_year in
  let month := ToNumber query_month in
  if negb (truthy_number year) || negb (truthy_number month) then
    Failure 400 "year and month query parameters are required"
  else Json (List.map (dashboard_entry ts achs year month) (sort_by_name sps)).

End Server.

(** * The requests of the front end *)

Module App.
Import JS Server.

(** A row of [brandTable]. *)
Record brand_row : Type := mk_brand_row { id : N; name : string; brand : string }.

(** [fetchSalespersons]: the table built from the list the server sent. *)
Definition brandTable_of (fetched : salespersons) : list brand_row :=
  List.map
    (fun sp =>
       mk_brand_row (Salesperson._id sp) (Salesperson.name sp)
         match Salesperson.brand sp with
         | Some b => if is_empty b then "" else b
         | None => ""
         end)
    fetched.

(** [handleSaveAllBrands]: the array sent to [POST /api/salespersons/bulk],
    each item holding [id] and [brand] only. *)
Definition saveAllBrands_body (brandTable : list brand_row)
    : option (list (option bulk_item)) :=
  Some (List.map
          (fun row => Some (mk_item (Some (id row)) VUndefined (VString (brand row))
                              VUndefined))
          brandTable).

(** [handleAddSalesperson]: the body sent to [POST /api/salespersons],
    [None] when the form is refused because the name is blank. *)
Definition addSalesperson_body (spName spBrand : string)
    : option (value * value * value) :=
  if is_empty (trim spName) then None
  else Some (VString spName, VString spBrand <||> VNull, VUndefined).

End App.

(** * Notions used by the properties *)

Import JS Server.

(** Whether the last character of [s] satisfies [p]. *)
Fixpoint ends_with (p : ascii -> bool) (s : string) : bool :=
  match s with
  | EmptyString => false
  | String c EmptyString => p c
  | String _ t => ends_with p t
  end.

Definition starts_with_space (s : string) : bool :=
  match s with
  | String c _ => is_space c
  | EmptyString => false
  end.

(** The text [num] hands to [Number]: commas removed, then trimmed. *)
Definition clean (val : value) : string :=
  trim (remove_char "," (ToString val)).

(** Follows the words of the specification of [toNumber]: the text parsed
    as a decimal, that is an optional sign, digits with an optional
    fraction, and an optional exponent; [None] when it is not one. *)
Definition parse_decimal (t : string) : option number :=
  let '(sg, u) := split_sign t in
  match parse_unsigned_decimal u with
  | Some (LitDecimal m e10 nd) => Some (round_decimal sg m e10 nd)
  | _ => None
  end.

(** The classes of line items, and the class of a line for a salesperson:
    a line with no amount is ignored; a spares line is one whose trimmed,
    uppercased model starts with [SPARES]; another line is the
    salesperson's own when the brand is set, is not empty, and its
    uppercased form starts the uppercased model. *)
Inductive line_class : Type := Ignored | Spares | Own | Other.

Definition line_class_eqb (a b : line_class) : bool :=
  match a, b with
  | Ignored, Ignored | Spares, Spares | Own, Own | Other, Other => true
  | _, _ => false
  end.

Definition brand_starts (sp : Salesperson.t) (model : string) : bool :=
  match Salesperson.brand sp with
  | Some b => negb (is_empty b) && startsWith (toUpperCase model) (toUpperCase b)
  | None => false
  end.

Definition class_of (sp : Salesperson.t) (item : LineItem.t) : line_class :=
  if negb (truthy_number (netAmount_of item)) then Ignored
  else if startsWith (toUpperCase (trim (model_of item))) "SPARES" then Spares
  else if brand_starts sp (model_of item) then Own
  else Other.

(** The amounts of the lines of one class, added in the order of the lines. *)
Definition class_total (sp : Salesperson.t) (c : line_class) (items : list LineItem.t)
    : number :=
  List.fold_left add
    (List.map netAmount_of
       (List.filter (fun it => line_class_eqb (class_of sp it) c) items))
    pos_zero.

(** Follows the words of C2: own when "the salesperson's brand is non-null
    and the uppercased model starts with that brand string". *)
Definition own_as_claimed (sp : Salesperson.t) (model : string) : bool :=
  match Salesperson.brand sp with
  | Some b => startsWith (toUpperCase model) b
  | None => false
  end.

(** Sample data: a salesperson whose brand was stored as the empty string,
    one with the brand of the specification's examples, and lines and
    invoices for them. *)
Definition sp_empty_brand : Salesperson.t := Salesperson.mk 1 "ASHA" (Some "") None.
Definition sp_videum : Salesperson.t := Salesperson.mk 2 "RAVI" (Some "VIDEUM") None.
Definition sp_no_brand : Salesperson.t := Salesperson.mk 3 "MEENA" None None.

Definition line_acme : LineItem.t := LineItem.mk (VString "ACME X") (VString "") (of_Z 100).
Definition line_videum : LineItem.t :=
  LineItem.mk (VString "VIDEUM X200") (VString "") (of_Z 5000).
Definition line_spares : LineItem.t :=
  LineItem.mk (VString "SPARES-X") (VString "") (of_Z 200).

(** [netInvoice = 1000], [amountRealised = 999]. *)
Definition mismatch_invoice (customer : string) : Invoice.t :=
  Invoice.mk "INV1" (VString customer) (of_Z 1000) (of_Z 999) (of_Z 1000)
    pos_zero pos_zero pos_zero pos_zero [line_videum; line_spares].

(** The mantissa [p] shifted left by [k] bits, as [shl_align] computes it. *)
Definition shl (p : positive) (k : Z) : positive :=
  match k with Zpos j => Pos.iter xO p j | _ => p end.

(** The integers every Number represents exactly: below [2 ^ 53] in
    absolute value. *)
Definition fits (n : Z) : Prop := Z.abs n < 2 ^ 53.

(** The canonical representation of an integer that fits. *)
Definition canon (n : Z) : number :=
  match n with
  | Z0 => S754_zero false
  | Zpos p =>
      S754_finite false (shl p (53 - Z.pos (digits2_pos p))) (Z.pos (digits2_pos p) - 53)
  | Zneg p =>
      S754_finite true (shl p (53 - Z.pos (digits2_pos p))) (Z.pos (digits2_pos p) - 53)
  end.

(** The record [upsertAchievement] stores over an existing one, and the one
    it creates. *)
Definition merged (r : MonthlyAchievement.t) (dOwn dOther : number) : MonthlyAchievement.t :=
  MonthlyAchievement.mk (MonthlyAchievement.salesperson r) (MonthlyAchievement.year r)
    (MonthlyAchievement.month r)
    (add (MonthlyAchievement.ownAchievement r) dOwn)
    (add (MonthlyAchievement.otherAchievement r) dOther)
    (add (MonthlyAchievement.totalAchievement r) (add dOwn dOther)).

Definition created (id : N) (y m dOwn dOther : number) : MonthlyAchievement.t :=
  MonthlyAchievement.mk id y m dOwn dOther (add dOwn dOther).

(** A sequence of merges for one key, in order: [None] when one of them
    throws. *)
Fixpoint merge_all (db : achievements) (id : N) (y m : number)
    (ds : list (number * number)) : option achievements :=
  match ds with
  | [] => Some db
  | d :: rest =>
      match upsertAchievement db id y m (fst d) (snd d) with
      | Some db' => merge_all db' id y m rest
      | None => None
      end
  end.

(** The collection after a call that can throw: the one before it when it
    throws. *)
Definition after (db : achievements) (call : option achievements) : achievements :=
  match call with
  | Some db' => db'
  | None => db
  end.

(** Deltas that are integers: the pair of Numbers, the sum of the absolute
    values of a sequence, and the sums of its two components. *)
Definition of_Z_pair (d : Z * Z) : number * number := (of_Z (fst d), of_Z (snd d)).

Definition magnitude (ds : list (Z * Z)) : Z :=
  List.fold_right (fun d acc => Z.abs (fst d) + Z.abs (snd d) + acc) 0 ds.

Definition sum_own (ds : list (Z * Z)) : Z :=
  List.fold_right (fun d acc => fst d + acc) 0 ds.

Definition sum_other (ds : list (Z * Z)) : Z :=
  List.fold_right (fun d acc => snd d + acc) 0 ds.

(** Sample data: the period January 2025, and the achievements after the
    merges of [(0.1, 0.2)] and then [(0, 0.3)] for salesperson 7. *)
Definition y2025 : number := of_Z 2025.
Definition january : number := of_Z 1.

Definition drifted : option achievements :=
  merge_all [] 7 y2025 january
    [(StringToNumber "0.1", StringToNumber "0.2"); (pos_zero, StringToNumber "0.3")].

(** Two stored records of salesperson 7, for January and February 2025,
    and two upload requests: one with the period but no sales file, one
    with a sales file but no year. *)
Definition stored_2025 : achievements :=
  [MonthlyAchievement.mk 7 y2025 january (of_Z 5000) (of_Z 200) (of_Z 5200);
   MonthlyAchievement.mk 7 y2025 (of_Z 2) (of_Z 10) (of_Z 20) (of_Z 30)].

(** A message of an exception, for the examples. *)
Definition cast_failed : string := "Cast to Number failed".

Definition request_without_sales_file : upload_request :=
  mk_request (VString "2025") (VString "1") None None None.

Definition request_without_year : upload_request :=
  mk_request VUndefined (VString "1") (Some []) None None.

(** The rows that [processExcelFileMulti] takes as the shared header: the
    first cell is [Date] and the second cell does not contain [TOTAL]. *)
Definition captures_header (rowArr : list value) : bool :=
  negb (second_has_total rowArr) && is_date_row rowArr.

(** Follows the words of C9: the first row whose first cell equals [Date],
    case-insensitively. *)
Definition first_date_row (rows : sheet) : option (list value) :=
  List.find is_date_row rows.

(** Every block has an empty row list. *)
Definition all_empty (m : list (string * list row)) : Prop :=
  Forall (fun block => snd block = []) m.

(** A sheet whose first [Date] row has a second column named [Sub Total],
    and a sheet with no [Date] row. *)
Definition sheet_total_header : sheet :=
  [ [VString "Date"; VString "Sub Total"; VString "Net Amount"];
    [VString "Salesperson: Ravi"];
    [VString "Date"; VString "Invoice No."; VString "Net Amount"];
    [VString "01-01-2025"; VString "INV1"; VNumber (of_Z 5000)] ].

Definition sheet_no_header : sheet :=
  [ [VString "Salesperson: Ravi"];
    [VString "01-01-2025"; VString "INV1"; VNumber (of_Z 5000)] ].

(** The canonical invoice number a row carries itself: empty when its
    invoice-number cell is blank. *)
Definition own_number (r : row) : string :=
  if is_empty (invNoRaw r) then EmptyString
  else normalizeInvoiceNo (VString (invNoRaw r)).

(** Follows the words of the specification: the last non-blank canonical
    invoice number seen in the rows so far. *)
Definition last_seen (rows : list row) : option string :=
  last (List.filter (fun k => negb (is_empty k)) (List.map own_number rows)).

(** Follows the words of the specification: the invoice a row belongs to,
    given the rows before it.  A row with a blank cell inherits the last
    number seen, and belongs to no invoice when none has been seen; a row
    with a number of its own belongs to that invoice, unless the number
    canonicalises to nothing. *)
Definition owner (pre : list row) (r : row) : option string :=
  if is_empty (invNoRaw r) then last_seen pre
  else if is_empty (own_number r) then None
  else Some (own_number r).

Definition owned_by (k : string) (pre : list row) (r : row) : bool :=
  match owner pre r with
  | Some k' => String.eqb k' k
  | None => false
  end.

(** The rows of invoice [k], in order; [pre] holds the rows already passed. *)
Fixpoint rows_of_from (k : string) (pre rows : list row) : list row :=
  match rows with
  | [] => []
  | r :: t =>
      (if owned_by k pre r then [r] else []) ++ rows_of_from k (pre ++ [r]) t
  end.

Definition rows_of (k : string) (rows : list row) : list row :=
  rows_of_from k [] rows.

(** What a further row does to its invoice, and the invoice built from the
    rows that belong to it. *)
Definition absorb (inv : Invoice.t) (r : row) : Invoice.t :=
  push_item (fill_invoice inv r) (line_item r).

Definition invoice_of (k : string) (rs : list row) : option Invoice.t :=
  match rs with
  | [] => None
  | r0 :: rest =>
      Some (List.fold_left absorb rest (push_item (new_invoice k r0) (line_item r0)))
  end.

(** Sample rows: one that opens invoice [INV1], and a continuation row whose
    invoice-number cell is blank. *)
Definition row_inv1 : row :=
  {[ "Invoice No." := VString "INV1"; "Item/Model" := VString "VIDEUM X200";
     "Net Amount" := VNumber (of_Z 5000); "Net Invoice" := VNumber (of_Z 5200) ]}.

Definition row_blank : row :=
  {[ "Invoice No." := VString ""; "Item/Model" := VString "SPARES-X";
     "Net Amount" := VNumber (of_Z 200); "Amount Realised" := VString "5,200" ]}.

(** A returns sheet with the column [Ref. Doc. Info.] and the cell of the
    specification's example. *)
Definition sheet_returns : sheet :=
  [ [VString "Date"; VString "Ref. Doc. Info."];
    [VString "02-11-2025"; VString "GI/16909*  02-11-2025"];
    [VString "03-11-2025"; VString ""] ].

(** A record whose total is the sum of its two components. *)
Definition balanced (d : MonthlyAchievement.t) : Prop :=
  MonthlyAchievement.totalAchievement d
  = add (MonthlyAchievement.ownAchievement d) (MonthlyAchievement.otherAchievement d).

(** The [_id] of a salesperson identifies the document, hence its name. *)
Definition ids_identify (sps : salespersons) : Prop :=
  forall a b, In a sps -> In b sps ->
    Salesperson._id a = Salesperson._id b -> Salesperson.name a = Salesperson.name b.

(** A name that [processRowsForSalesperson] looks up as it stands. *)
Definition canonical_name (k : string) : Prop := toUpperCase (trim k) = k.

(** The names of the blocks of [rowsBySalesperson]. *)
Definition block_names {A : Type} (m : list (string * A)) : list string :=
  List.map fst m.

Definition good_names (m : list (string * list row)) : Prop :=
  NoDup (block_names m) /\ Forall canonical_name (block_names m).

(** Every record of the period is balanced and belongs to a salesperson
    whose block is among [seen]. *)
Definition period_ok (sps : salespersons) (y m : number) (seen : list string)
    (db : achievements) : Prop :=
  forall d, In d db -> matches_period y m d = true ->
    balanced d /\
    exists sp, In sp sps /\ In (Salesperson.name sp) seen /\
               MonthlyAchievement.salesperson d = Salesperson._id sp.

(** An upload for January 2025 with a sales file. *)
Definition request_with_sales_file : upload_request :=
  mk_request (VString "2025") (VString "1") (Some sheet_total_header) None None.

(** No record of the list is of the period. *)
Definition outside_period (y m : number) (db : achievements) : Prop :=
  forall d, In d db -> matches_period y m d = false.

(** Every record of the list is of the period. *)
Definition inside_period (y m : number) (db : achievements) : Prop :=
  forall d, In d db -> matches_period y m d = true.

(** The return list of a request. *)
Definition returns_of (req : upload_request) : gset string :=
  match returnsFile req with
  | Some returns => extractReturnInvoiceSet returns
  | None => ∅
  end.

(** Whether [b] has the key of [a]. *)
Definition same_key (a b : MonthlyAchievement.t) : bool :=
  matches_key (MonthlyAchievement.salesperson a) (MonthlyAchievement.year a)
    (MonthlyAchievement.month a) b.

(** No two records of the collection have the same key: the unique index
    [{ salesperson, year, month }]. *)
Fixpoint keys_unique (db : achievements) : bool :=
  match db with
  | [] => true
  | a :: t => List.forallb (fun b => negb (same_key a b)) t && keys_unique t
  end.

(** The invoice with other amounts at its own level. *)
Definition with_amounts (inv : Invoice.t) (invoiceValue ccCharges negRoundOff
    posRoundOff cashDiscount : number) : Invoice.t :=
  Invoice.mk (Invoice.invoiceNo inv) (Invoice.customer inv) (Invoice.netInvoice inv)
    (Invoice.amountRealised inv) invoiceValue ccCharges negRoundOff posRoundOff
    cashDiscount (Invoice.items inv).

(** The column [extractReturnInvoiceSet] reads, from the header row. *)
Definition ref_column (headerRow : list value) : nat :=
  match findIndex
          (fun c => startsWith (toUpperCase (trim (ToString c))) "REF. DOC")
          headerRow with
  | Some i => i
  | None => O
  end.

(** The entry a row of the returns file adds to the set, if any. *)
Definition return_entry (col : nat) (rowArr : list value) : option string :=
  let raw := trim (ToString (at_index rowArr col <||> VString "")) in
  if is_empty raw then None
  else
    let norm := normalizeInvoiceNo (VString (first_token raw)) in
    if is_empty norm then None else Some norm.

(** Whether some character of [s] satisfies [p]. *)
Fixpoint any_char (p : ascii -> bool) (s : string) : bool :=
  match s with
  | EmptyString => false
  | String c t => p c || any_char p t
  end.

(** A row of the sheet that can become a row of a block. *)
Definition is_detail_row (rowArr : list value) : bool :=
  negb (second_has_total rowArr)
  && negb (test_label_ci "Salesperson" (firstCell rowArr))
  && negb (is_meta_row rowArr).

(** Every row of every block is built, with the header [h], from a detail
    row among [seen]. *)
Definition blocks_from (h : option (list value)) (seen : sheet)
    (blocks : list (string * list row)) : Prop :=
  forall name rs o, In (name, rs) blocks -> In o rs ->
    exists header r,
      h = Some header /\ In r seen /\ is_detail_row r = true /\ o = rowObj header r.

(** A field holding [null] or an upper-cased, trimmed text. *)
Definition canonical_field (f : option string) : Prop :=
  match f with
  | Some b => toUpperCase (trim b) = b
  | None => True
  end.

(** A directory as the routes keep it: names and identifiers are unique,
    names are not empty, and names, brands and sections are upper-cased and
    trimmed. *)
Definition directory_ok (sps : salespersons) : Prop :=
  List.NoDup (List.map Salesperson.name sps) /\
  List.NoDup (List.map Salesperson._id sps) /\
  forall sp, In sp sps ->
    canonical_name (Salesperson.name sp) /\ is_empty (Salesperson.name sp) = false /\
    canonical_field (Salesperson.brand sp) /\ canonical_field (Salesperson.section sp).

(** The identifier given to a new document is not in use. *)
Definition fresh_ids (newId : salespersons -> N) : Prop :=
  forall sps, ~ In (newId sps) (List.map Salesperson._id sps).

(** A form field the server accepts: falsy, or a string. *)
Definition field_accepted (v : value) : bool :=
  negb (truthy v) || match v with VString _ => true | _ => false end.

(** The order of [sort({ name: 1 })] on two documents. *)
Definition name_le (a b : Salesperson.t) : Prop :=
  String.leb (Salesperson.name a) (Salesperson.name b) = true.

(** What [Save All Brands] leaves of a salesperson: the brand, [null] when
    it was empty, and no section. *)
Definition without_section (sp : Salesperson.t) : Salesperson.t :=
  Salesperson.mk (Salesperson._id sp) (Salesperson.name sp)
    match Salesperson.brand sp with
    | Some b => if is_empty b then None else Some b
    | None => None
    end
    None.

(** What an item of [Save All Brands] for the row [r] does to a document. *)
Definition brand_item_on (r : App.brand_row) (d : Salesperson.t) : Salesperson.t :=
  if N.eqb (Salesperson._id d) (App.id r) then
    Salesperson.mk (Salesperson._id d) (Salesperson.name d)
      (upper_string_or_null (VString (App.brand r))) None
  else d.

(** What the items of a table do to a document, one after the other. *)
Definition brand_items_on (table : list App.brand_row) (d : Salesperson.t) : Salesperson.t :=
  List.fold_left (fun d r => brand_item_on r d) table d.

(** The items [handleSaveAllBrands] sends for a table. *)
Definition brand_items (table : list App.brand_row) : list (option bulk_item) :=
  List.map
    (fun row => Some (mk_item (Some (App.id row)) VUndefined (VString (App.brand row))
                        VUndefined))
    table.

(** The same order on two rows of the dashboard. *)
Definition row_le (a b : dashboard_row) : Prop :=
  String.leb (row_name a) (row_name b) = true.

(** The numbers of a row: none of them is [NaN]. *)
Definition row_numbers_ok (r : dashboard_row) : bool :=
  negb (isNaN (row_target r)) && negb (isNaN (row_ownAchievement r))
  && negb (isNaN (row_otherAchievement r)) && negb (isNaN (row_totalAchievement r)).

(** A directory of two salespersons, each with a section. *)
Definition directory_sample : salespersons :=
  [Salesperson.mk 2 "RAVI" (Some "VIDEUM") (Some "TV");
   Salesperson.mk 5 "ASHA" None (Some "AUDIO")].

(** One more than the largest identifier of the collection. *)
Definition next_id (sps : salespersons) : N :=
  N.succ (List.fold_right N.max 0%N (List.map Salesperson._id sps)).

(** A target of 5000 for salesperson 2 in January 2025. *)
Definition targets_sample : targets :=
  [MonthlyTarget.mk 2 y2025 january (of_Z 5000)].

(** The record of that salesperson and period: 3000 own and 2000 other. *)
Definition achievements_sample : achievements :=
  [MonthlyAchievement.mk 2 y2025 january (of_Z 3000) (of_Z 2000) (of_Z 5000)].

(** * Properties *)

(** ** Characters and strings *)

Section StringFacts.

Lemma upper_char_space c : is_space (upper_char c) = is_space c.
Proof. destruct c as [[] [] [] [] [] [] [] []]; reflexivity. Qed.

Lemma upper_char_idem c : upper_char (upper_char c) = upper_char c.
Proof. destruct c as [[] [] [] [] [] [] [] []]; reflexivity. Qed.

Lemma toUpperCase_idem s : toUpperCase (toUpperCase s) = toUpperCase s.
Proof.
  induction s as [|c s IH]; simpl; [reflexivity|].
  now rewrite upper_char_idem, IH.
Qed.

Lemma length_toUpperCase s : String.length (toUpperCase s) = String.length s.
Proof. induction s; simpl; congruence. Qed.

Variable p : ascii -> bool.

Lemma dropWhileEnd_fix s : ends_with p s = false -> dropWhileEnd p s = s.
Proof.
  induction s as [|c s IH]; simpl; [reflexivity|].
  destruct s as [|d s'].
  - simpl. now intros ->.
  - intros H. now rewrite (IH H).
Qed.

Lemma ends_with_dropWhileEnd s : ends_with p (dropWhileEnd p s) = false.
Proof.
  induction s as [|c s IH]; simpl; [reflexivity|].
  destruct (dropWhileEnd p s) as [|d r] eqn:E.
  - destruct (p c) eqn:Hc; simpl; [reflexivity | exact Hc].
  - simpl. exact IH.
Qed.

Lemma dropWhileEnd_idem s : dropWhileEnd p (dropWhileEnd p s) = dropWhileEnd p s.
Proof. apply dropWhileEnd_fix, ends_with_dropWhileEnd. Qed.

Lemma dropWhileEnd_upper s :
  toUpperCase s = s -> toUpperCase (dropWhileEnd p s) = dropWhileEnd p s.
Proof.
  induction s as [|c s IH]; simpl; [reflexivity|].
  intros H. injection H as Hc Hs.
  destruct (dropWhileEnd p s) as [|d r] eqn:E.
  - destruct (p c); simpl; [reflexivity | now rewrite Hc].
  - simpl. rewrite Hc. f_equal. specialize (IH Hs). simpl in IH. exact IH.
Qed.

Lemma starts_dropWhileEnd s :
  starts_with_space s = false -> starts_with_space (dropWhileEnd p s) = false.
Proof.
  destruct s as [|c s]; simpl; [reflexivity|]. intros H.
  destruct (dropWhileEnd p s); [destruct (p c)|]; simpl; auto.
Qed.

Lemma length_dropWhileEnd s :
  (String.length (dropWhileEnd p s) <= String.length s)%nat.
Proof.
  induction s as [|c s IH]; simpl; [lia|].
  destruct (dropWhileEnd p s); [destruct (p c)|]; simpl in *; lia.
Qed.

Lemma length_dropWhileEnd_lt s :
  ends_with p s = true ->
  (String.length (dropWhileEnd p s) < String.length s)%nat.
Proof.
  induction s as [|c s IH]; simpl; [discriminate|].
  destruct s as [|d s'].
  - simpl. intros ->. simpl. lia.
  - intros H. specialize (IH H).
    destruct (dropWhileEnd p (String d s')); [destruct (p c)|]; simpl in *; lia.
Qed.

End StringFacts.

Lemma dropWhile_fix s : starts_with_space s = false -> dropWhile is_space s = s.
Proof. destruct s as [|c s]; simpl; [reflexivity|]. now intros ->. Qed.

Lemma starts_dropWhile s : starts_with_space (dropWhile is_space s) = false.
Proof.
  induction s as [|c s IH]; simpl; [reflexivity|].
  destruct (is_space c) eqn:E; [exact IH | simpl; exact E].
Qed.

Lemma starts_upper s : starts_with_space (toUpperCase s) = starts_with_space s.
Proof. destruct s; simpl; [reflexivity | apply upper_char_space]. Qed.

Lemma starts_trim s : starts_with_space (trim s) = false.
Proof. unfold trim. apply starts_dropWhileEnd, starts_dropWhile. Qed.

Lemma ends_trim s : ends_with is_space (trim s) = false.
Proof. unfold trim. apply ends_with_dropWhileEnd. Qed.

Lemma trim_fix s :
  starts_with_space s = false -> ends_with is_space s = false -> trim s = s.
Proof.
  intros H1 H2. unfold trim. rewrite (dropWhile_fix _ H1).
  now apply dropWhileEnd_fix.
Qed.

Lemma trim_idem s : trim (trim s) = trim s.
Proof. apply trim_fix; [apply starts_trim | apply ends_trim]. Qed.

(** ** normalizeInvoiceNo *)

Lemma normalize_string s :
  normalizeInvoiceNo (VString s) =
  dropWhileEnd (Ascii.eqb "*") (toUpperCase (trim s)).
Proof. unfold normalizeInvoiceNo. destruct s; reflexivity. Qed.

Lemma starts_normalize s :
  starts_with_space (normalizeInvoiceNo (VString s)) = false.
Proof.
  rewrite normalize_string. apply starts_dropWhileEnd.
  rewrite starts_upper. apply starts_trim.
Qed.

Lemma normalize_stable s :
  ends_with is_space (normalizeInvoiceNo (VString s)) = false ->
  normalizeInvoiceNo (VString (normalizeInvoiceNo (VString s)))
  = normalizeInvoiceNo (VString s).
Proof.
  intros H. rewrite (normalize_string (normalizeInvoiceNo _)).
  rewrite (trim_fix _ (starts_normalize s) H).
  rewrite normalize_string.
  rewrite dropWhileEnd_upper by apply toUpperCase_idem.
  apply dropWhileEnd_idem.
Qed.

Lemma normalize_unstable s :
  ends_with is_space (normalizeInvoiceNo (VString s)) = true ->
  normalizeInvoiceNo (VString (normalizeInvoiceNo (VString s)))
  <> normalizeInvoiceNo (VString s).
Proof.
  intros H E. apply (f_equal String.length) in E.
  rewrite (normalize_string (normalizeInvoiceNo _)) in E.
  set (r := normalizeInvoiceNo (VString s)) in *.
  pose proof (length_dropWhileEnd (Ascii.eqb "*") (toUpperCase (trim r))) as H1.
  rewrite length_toUpperCase in H1.
  pose proof (dropWhile_fix _ (starts_normalize s)) as H0. fold r in H0.
  unfold trim in H1, E. rewrite H0 in H1, E.
  pose proof (length_dropWhileEnd_lt _ _ H) as H2. lia.
Qed.

(** C3, as stated, fails: ["a *"] is canonicalised to ["A "], which a
    second application shortens to ["A"]. *)
Lemma normalizeInvoiceNo_not_idempotent :
  normalizeInvoiceNo (VString "a *") = "A " /\
  normalizeInvoiceNo (VString (normalizeInvoiceNo (VString "a *"))) = "A" /\
  normalizeInvoiceNo (VString (normalizeInvoiceNo (VString "a *")))
  <> normalizeInvoiceNo (VString "a *").
Proof. split; [reflexivity | split; [reflexivity | discriminate]]. Qed.

(** C3 (amended): [normalizeInvoiceNo] maps ["gi/16909*  "] to
    ["GI/16909"], and applying it twice yields the same result as applying
    it once exactly when the result of the first application does not end
    in white space. *)
Theorem normalizeInvoiceNo_twice :
  normalizeInvoiceNo (VString "gi/16909*  ") = "GI/16909" /\
  forall s : string,
    normalizeInvoiceNo (VString (normalizeInvoiceNo (VString s)))
    = normalizeInvoiceNo (VString s)
    <-> ends_with is_space (normalizeInvoiceNo (VString s)) = false.
Proof.
  split; [reflexivity|].
  intros s. split.
  - intros E. destruct (ends_with is_space (normalizeInvoiceNo (VString s))) eqn:H;
      [|reflexivity].
    now apply normalize_unstable in H.
  - apply normalize_stable.
Qed.

(** The theorem at ["GI/1*"]: nothing precedes the asterisk but the number. *)
Lemma normalizeInvoiceNo_twice_witness :
  normalizeInvoiceNo (VString (normalizeInvoiceNo (VString "gi/1*")))
  = normalizeInvoiceNo (VString "gi/1*").
Proof. apply (proj2 normalizeInvoiceNo_twice "gi/1*"). reflexivity. Defined.

(** ** Rounding never yields NaN *)

Section RoundingNeverNaN.

Variables prec emax : Z.

Lemma shr_1_nonneg mrs : 0 <= shr_m mrs -> 0 <= shr_m (shr_1 mrs).
Proof. destruct mrs as [[|[q|q|]|q] r s]; simpl; lia. Qed.

Lemma iter_shr_1_nonneg n : forall mrs,
  0 <= shr_m mrs -> 0 <= shr_m (SpecFloat.iter_pos shr_1 n mrs).
Proof.
  induction n as [n IH|n IH|]; intros mrs H; simpl.
  - apply IH, IH, shr_1_nonneg, H.
  - apply IH, IH, H.
  - apply shr_1_nonneg, H.
Qed.

Lemma shr_fexp_nonneg m e l :
  0 <= m -> 0 <= shr_m (fst (shr_fexp prec emax m e l)).
Proof.
  intros H. unfold shr_fexp, shr.
  assert (H0 : 0 <= shr_m (shr_record_of_loc m l))
    by (destruct l as [|[]]; simpl; exact H).
  destruct (fexp prec emax (Zdigits2 m + e) - e); simpl; auto.
  now apply iter_shr_1_nonneg.
Qed.

Lemma round_nearest_even_nonneg m l : 0 <= m -> 0 <= round_nearest_even m l.
Proof.
  intros H. destruct l as [|[]]; simpl; try lia.
  destruct (Z.even m); lia.
Qed.

Lemma binary_round_aux_not_nan sx mx ex lx :
  0 <= mx -> binary_round_aux prec emax sx mx ex lx <> S754_nan.
Proof.
  intros H. unfold binary_round_aux.
  pose proof (shr_fexp_nonneg mx ex lx H) as H1.
  destruct (shr_fexp prec emax mx ex lx) as [mrs' e']. simpl in H1.
  pose proof (shr_fexp_nonneg _ e' loc_Exact
                (round_nearest_even_nonneg _ (loc_of_shr_record mrs') H1)) as H2.
  destruct (shr_fexp prec emax _ e' loc_Exact) as [mrs'' e'']. simpl in H2.
  destruct (shr_m mrs'') as [|q|q]; [discriminate | | lia].
  destruct (e'' <=? emax - prec); discriminate.
Qed.

Lemma binary_normalize_not_nan m e s :
  binary_normalize prec emax m e s <> S754_nan.
Proof.
  destruct m as [|q|q]; simpl; [discriminate | |];
    unfold binary_round;
    destruct (shl_align _ _ _) as [mz ez];
    apply binary_round_aux_not_nan; lia.
Qed.

End RoundingNeverNaN.

Lemma round_decimal_not_nan sg m e10 nd : isNaN (round_decimal sg m e10 nd) = false.
Proof.
  unfold round_decimal.
  repeat match goal with |- context [if ?b then _ else _] =>
    lazymatch b with
    | sg => fail
    | _ => destruct b
    end end; try reflexivity;
  match goal with |- isNaN ?x = false =>
    pose proof (binary_normalize_not_nan prec emax) as H;
    destruct x eqn:E; try reflexivity; exfalso; eapply H; exact E end.
Qed.

(** ** num *)

(** The guard of [num] is subsumed by the conversion: ["undefined"] and
    ["null"] are not numeric literals, and the empty text converts to 0. *)
Lemma num_eq v :
  num v = if isNaN (StringToNumber (clean v)) then pos_zero
          else StringToNumber (clean v).
Proof. destruct v as [| |b|n|[|c s]]; reflexivity. Qed.

Lemma num_not_nan v : isNaN (num v) = false.
Proof.
  rewrite num_eq.
  destruct (isNaN (StringToNumber (clean v))) eqn:E; [reflexivity | exact E].
Qed.

Lemma is_empty_true s : is_empty s = true -> s = "".
Proof. destruct s; [reflexivity | discriminate]. Qed.

Lemma radix_literal_not_decimal t n :
  radix_literal t = Some n -> parse_decimal t = None.
Proof.
  destruct t as [|c1 [|c2 r]]; simpl; try discriminate.
  destruct (Ascii.eqb c1 "0") eqn:E1; [|discriminate].
  apply Ascii.eqb_eq in E1. subst c1.
  destruct (Ascii.eqb c2 "x") eqn:Ex; [apply Ascii.eqb_eq in Ex; subst; reflexivity|].
  destruct (Ascii.eqb c2 "X") eqn:EX; [apply Ascii.eqb_eq in EX; subst; reflexivity|].
  destruct (Ascii.eqb c2 "o") eqn:Eo; [apply Ascii.eqb_eq in Eo; subst; reflexivity|].
  destruct (Ascii.eqb c2 "O") eqn:EO; [apply Ascii.eqb_eq in EO; subst; reflexivity|].
  destruct (Ascii.eqb c2 "b") eqn:Eb; [apply Ascii.eqb_eq in Eb; subst; reflexivity|].
  destruct (Ascii.eqb c2 "B") eqn:EB; [apply Ascii.eqb_eq in EB; subst; reflexivity|].
  discriminate.
Qed.

Lemma StringToNumber_decimal t d :
  parse_decimal (trim t) = Some d -> StringToNumber t = d.
Proof.
  intros H. unfold StringToNumber.
  destruct (is_empty (trim t)) eqn:E.
  - apply is_empty_true in E. rewrite E in H. discriminate.
  - destruct (radix_literal (trim t)) as [n|] eqn:R.
    + rewrite (radix_literal_not_decimal _ _ R) in H. discriminate.
    + unfold parse_decimal in H. destruct (split_sign (trim t)) as [sg u].
      destruct (parse_unsigned_decimal u) as [[|m e10 nd]|]; try discriminate.
      simpl. now injection H.
Qed.

Lemma parse_decimal_not_nan t d : parse_decimal t = Some d -> isNaN d = false.
Proof.
  unfold parse_decimal. destruct (split_sign t) as [sg u].
  destruct (parse_unsigned_decimal u) as [[|m e10 nd]|]; try discriminate.
  intros H. injection H as <-. apply round_decimal_not_nan.
Qed.

Lemma clean_trim v : trim (clean v) = clean v.
Proof. apply trim_idem. Qed.

(** C8, as stated, fails: ["0x10"] is not parseable as a decimal, and
    [num] returns 16 for it, not 0. *)
Lemma num_hex_not_zero :
  parse_decimal (clean (VString "0x10")) = None /\
  num (VString "0x10") = of_Z 16 /\
  strict_eq (num (VString "0x10")) pos_zero = false.
Proof. split; [|split]; reflexivity. Qed.

(** C8 (amended): for every input value [num] returns a Number other than
    NaN (the function is total: it never raises); it returns 0 for
    [undefined], for [null], for blank text (nothing is left once commas and
    surrounding white space are removed) and for every text [Number] does
    not accept; it returns the parsed decimal for a decimal literal; and in
    every other case it returns what [Number] makes of the text, which is
    not 0 for a [0x], [0o] or [0b] integer literal or for [Infinity]. *)
Theorem num_returns :
  (forall v, isNaN (num v) = false) /\
  num VUndefined = pos_zero /\
  num VNull = pos_zero /\
  (forall v, clean v = "" -> num v = pos_zero) /\
  (forall v, isNaN (StringToNumber (clean v)) = true -> num v = pos_zero) /\
  (forall v d, parse_decimal (clean v) = Some d -> num v = d) /\
  (forall v, isNaN (StringToNumber (clean v)) = false ->
             num v = StringToNumber (clean v)).
Proof.
  repeat apply conj; try reflexivity.
  - apply num_not_nan.
  - intros v H. rewrite num_eq. unfold StringToNumber.
    now rewrite clean_trim, H.
  - intros v H. now rewrite num_eq, H.
  - intros v d H. rewrite num_eq.
    pose proof (parse_decimal_not_nan _ _ H) as Hn.
    rewrite <- clean_trim in H. apply StringToNumber_decimal in H.
    now rewrite H, Hn.
  - intros v H. now rewrite num_eq, H.
Qed.

(** The theorem at ["1,234.5"], a decimal with a thousands separator. *)
Lemma num_returns_witness :
  parse_decimal (clean (VString "1,234.5")) = Some (StringToNumber "1234.5") /\
  num (VString "1,234.5") = StringToNumber "1234.5".
Proof.
  split; [reflexivity|].
  apply (proj1 (proj2 (proj2 (proj2 (proj2 (proj2 num_returns)))))).
  reflexivity.
Defined.

(** ** The loop over the line items *)

Lemma isSparesItem_string model :
  isSparesItem (VString model) = startsWith (toUpperCase (trim model)) "SPARES".
Proof. destruct model; reflexivity. Qed.

Lemma is_own_brand sp model :
  is_own (ownBrand sp) (toUpperCase model) = brand_starts sp model.
Proof.
  unfold is_own, ownBrand, brand_starts.
  destruct (Salesperson.brand sp) as [b|]; [|reflexivity].
  destruct b as [|c b]; reflexivity.
Qed.

Lemma item_step_class sp sparesTotal ownNet otherNet item :
  item_step (ownBrand sp) (sparesTotal, ownNet, otherNet) item =
  match class_of sp item with
  | Ignored => (sparesTotal, ownNet, otherNet)
  | Spares => (add sparesTotal (netAmount_of item), ownNet, otherNet)
  | Own => (sparesTotal, add ownNet (netAmount_of item), otherNet)
  | Other => (sparesTotal, ownNet, add otherNet (netAmount_of item))
  end.
Proof.
  unfold item_step, class_of.
  destruct (negb (truthy_number (netAmount_of item))); [reflexivity|].
  rewrite isSparesItem_string.
  destruct (startsWith (toUpperCase (trim (model_of item))) "SPARES"); [reflexivity|].
  rewrite is_own_brand.
  destruct (brand_starts sp (model_of item)); reflexivity.
Qed.

Lemma classify_from sp items : forall s o t,
  List.fold_left (item_step (ownBrand sp)) items (s, o, t) =
  (List.fold_left add
     (List.map netAmount_of
        (List.filter (fun it => line_class_eqb (class_of sp it) Spares) items)) s,
   List.fold_left add
     (List.map netAmount_of
        (List.filter (fun it => line_class_eqb (class_of sp it) Own) items)) o,
   List.fold_left add
     (List.map netAmount_of
        (List.filter (fun it => line_class_eqb (class_of sp it) Other) items)) t).
Proof.
  induction items as [|it items IH]; intros s o t; [reflexivity|].
  cbn [List.fold_left]. rewrite item_step_class.
  cbn [List.filter].
  destruct (class_of sp it); cbn [line_class_eqb List.map List.fold_left]; apply IH.
Qed.

(** C2, as stated, fails: for a salesperson whose brand is the empty
    string the brand is non-null and every model starts with it, yet a
    line that is not a spares line is counted as other. *)
Lemma empty_brand_is_other :
  Salesperson.brand sp_empty_brand = Some "" /\
  own_as_claimed sp_empty_brand (model_of line_acme) = true /\
  isSparesItem (VString (model_of line_acme)) = false /\
  item_step (ownBrand sp_empty_brand) (pos_zero, pos_zero, pos_zero) line_acme
  = (pos_zero, pos_zero, of_Z 100).
Proof. repeat split. Qed.

(** C2 (amended): a line with a zero amount contributes nothing; a line
    whose trimmed, uppercased model starts with [SPARES] contributes its
    amount to [sparesTotal] only; every other line contributes its amount
    to own exactly when the salesperson's brand is non-null, is not the
    empty string, and the uppercased model starts with the uppercased
    brand, and to other otherwise.  So the three sums of an invoice are the
    sums over the lines of each class, and with no brand no line is own. *)
Theorem line_classification (sp : Salesperson.t) :
  (forall sparesTotal ownNet otherNet item,
     item_step (ownBrand sp) (sparesTotal, ownNet, otherNet) item =
     match class_of sp item with
     | Ignored => (sparesTotal, ownNet, otherNet)
     | Spares => (add sparesTotal (netAmount_of item), ownNet, otherNet)
     | Own => (sparesTotal, add ownNet (netAmount_of item), otherNet)
     | Other => (sparesTotal, ownNet, add otherNet (netAmount_of item))
     end) /\
  (forall inv,
     classify (ownBrand sp) inv =
     (class_total sp Spares (Invoice.items inv),
      class_total sp Own (Invoice.items inv),
      class_total sp Other (Invoice.items inv))) /\
  (Salesperson.brand sp = None ->
   forall item, line_class_eqb (class_of sp item) Own = false).
Proof.
  split; [|split].
  - apply item_step_class.
  - intros inv. apply classify_from.
  - intros H item. unfold class_of, brand_starts. rewrite H.
    repeat match goal with |- context [if ?b then _ else _] => destruct b end;
      reflexivity.
Qed.

(** The theorem for a salesperson with no brand and a line of the brand
    [VIDEUM]. *)
Lemma line_classification_witness :
  line_class_eqb (class_of sp_no_brand line_videum) Own = false.
Proof.
  apply (proj2 (proj2 (line_classification sp_no_brand))). reflexivity.
Defined.

(** The examples of the specification: for the brand [VIDEUM] the line
    [VIDEUM X200] of 5000 is own and the line [SPARES-X] of 200 goes to the
    spares only. *)
Example classify_videum :
  classify (ownBrand sp_videum) (mismatch_invoice "RANDOM CUSTOMER")
  = (of_Z 200, of_Z 5000, pos_zero).
Proof. reflexivity. Qed.

Example classify_no_brand :
  classify (ownBrand sp_no_brand) (mismatch_invoice "RANDOM CUSTOMER")
  = (of_Z 200, pos_zero, of_Z 5000).
Proof. reflexivity. Qed.

(** ** The loop over the invoices *)

Lemma isFinanceCustomer_spec inv :
  isFinanceCustomer inv = true <-> canonical_customer inv ∈ FINANCE_CUSTOMERS.
Proof. unfold isFinanceCustomer. apply bool_decide_eq_true. Qed.

Lemma invoice_step_mismatch rs ob totals k inv :
  isMismatch inv = true -> isFinanceCustomer inv = false ->
  invoice_step rs ob totals (k, inv) = totals.
Proof.
  intros Hm Hf. unfold invoice_step. destruct totals as [a b].
  destruct (bool_decide (k ∈ rs)); [reflexivity|].
  destruct (classify ob inv) as [[s o] t]. now rewrite Hm, Hf.
Qed.

Lemma invoice_step_finance rs ob totals k inv :
  isFinanceCustomer inv = true ->
  invoice_step rs ob totals (k, inv) =
  if bool_decide (k ∈ rs) then totals
  else if strict_eq (snd (fst (classify ob inv))) pos_zero
          && strict_eq (snd (classify ob inv)) pos_zero then totals
  else (add (fst totals) (snd (fst (classify ob inv))),
        add (snd totals) (snd (classify ob inv))).
Proof.
  intros Hf. unfold invoice_step. destruct totals as [a b].
  destruct (bool_decide (k ∈ rs)); [reflexivity|].
  destruct (classify ob inv) as [[s o] t]. rewrite Hf. simpl.
  rewrite andb_false_r. reflexivity.
Qed.

(** C1: an invoice whose rounded [netInvoice] differs from its rounded
    [amountRealised] contributes nothing to [totalOwn] and [totalOther]
    when its canonical customer name is not in the allowlist: the totals
    are those of the other invoices.  When the customer is in the
    allowlist the mismatch does not exclude it: unless it is in the return
    list or has no own or other amount, its two sums are added. *)
Theorem mismatch_rule (returnInvoiceSet : gset string) (ob : option string)
    (invKey : string) (inv : Invoice.t) :
  strict_eq (Math_round (or_number (Invoice.netInvoice inv) pos_zero))
            (Math_round (or_number (Invoice.amountRealised inv) pos_zero)) = false ->
  (canonical_customer inv ∉ FINANCE_CUSTOMERS ->
   forall pre post : invoice_map,
     reconcile returnInvoiceSet ob (pre ++ (invKey, inv) :: post)
     = reconcile returnInvoiceSet ob (pre ++ post)) /\
  (canonical_customer inv ∈ FINANCE_CUSTOMERS ->
   forall totals,
     invoice_step returnInvoiceSet ob totals (invKey, inv) =
     if bool_decide (invKey ∈ returnInvoiceSet) then totals
     else if strict_eq (snd (fst (classify ob inv))) pos_zero
             && strict_eq (snd (classify ob inv)) pos_zero then totals
     else (add (fst totals) (snd (fst (classify ob inv))),
           add (snd totals) (snd (classify ob inv)))).
Proof.
  intros Hm.
  assert (Hm' : isMismatch inv = true) by (unfold isMismatch; now rewrite Hm).
  split.
  - intros Hf pre post. unfold reconcile. rewrite !fold_left_app. simpl.
    rewrite invoice_step_mismatch; [reflexivity | exact Hm' |].
    apply bool_decide_eq_false. exact Hf.
  - intros Hf totals. apply invoice_step_finance.
    now apply isFinanceCustomer_spec.
Qed.

(** The theorem at the invoice of the specification: 1000 against 999 for
    [RANDOM CUSTOMER]. *)
Lemma mismatch_rule_witness :
  reconcile ∅ (Some "VIDEUM") ([] ++ [("INV1", mismatch_invoice "RANDOM CUSTOMER")])
  = reconcile ∅ (Some "VIDEUM") ([] ++ []).
Proof.
  assert (Hm : strict_eq
                 (Math_round (or_number
                    (Invoice.netInvoice (mismatch_invoice "RANDOM CUSTOMER")) pos_zero))
                 (Math_round (or_number
                    (Invoice.amountRealised (mismatch_invoice "RANDOM CUSTOMER")) pos_zero))
               = false) by reflexivity.
  apply (proj1 (mismatch_rule ∅ (Some "VIDEUM") "INV1"
                  (mismatch_invoice "RANDOM CUSTOMER") Hm)).
  apply (bool_decide_eq_false_1 _). reflexivity.
Defined.

Example mismatch_random_customer_excluded :
  reconcile ∅ (Some "VIDEUM") [("INV1", mismatch_invoice "RANDOM CUSTOMER")]
  = (pos_zero, pos_zero).
Proof. reflexivity. Qed.

Example mismatch_finance_customer_included :
  reconcile ∅ (Some "VIDEUM") [("INV1", mismatch_invoice "BAJAJ FINANCE LTD")]
  = (of_Z 5000, pos_zero).
Proof. reflexivity. Qed.

(** ** Binary64 addition is exact on integers that fit *)

Lemma iter_xO_digits p j :
  Z.pos (digits2_pos (Pos.iter xO p j)) = Z.pos (digits2_pos p) + Z.pos j.
Proof.
  induction j using Pos.peano_ind.
  - simpl. lia.
  - rewrite Pos.iter_succ. simpl. lia.
Qed.

Lemma iter_xO_value p j : Z.pos (Pos.iter xO p j) = Z.pos p * 2 ^ Z.pos j.
Proof.
  induction j using Pos.peano_ind.
  - simpl. lia.
  - rewrite Pos.iter_succ, Pos2Z.inj_succ, Z.pow_succ_r by lia.
    rewrite Pos2Z.inj_xO, IHj. ring.
Qed.

Lemma shl_digits p k : 0 <= k -> Z.pos (digits2_pos (shl p k)) = Z.pos (digits2_pos p) + k.
Proof.
  destruct k as [|j|j]; intros H; simpl; [lia | apply iter_xO_digits | lia].
Qed.

Lemma shl_value p k : 0 <= k -> Z.pos (shl p k) = Z.pos p * 2 ^ k.
Proof.
  destruct k as [|j|j]; intros H; [simpl; lia | apply iter_xO_value | lia].
Qed.

Lemma shl_shl p j k : 0 <= j -> 0 <= k -> shl (shl p j) k = shl p (j + k).
Proof.
  intros Hj Hk. apply Pos2Z.inj. rewrite !shl_value by lia.
  rewrite Z.pow_add_r by lia. ring.
Qed.

Lemma iter_pos_eq {A} (f : A -> A) n : forall x, SpecFloat.iter_pos f n x = Pos.iter f x n.
Proof.
  induction n as [n IH|n IH|]; intros x; simpl; [|now rewrite !IH|reflexivity].
  rewrite !IH. now rewrite <- !Pos.iter_swap.
Qed.

Lemma shr_exact q j :
  SpecFloat.iter_pos shr_1 j (Build_shr_record (Z.pos (Pos.iter xO q j)) false false)
  = Build_shr_record (Z.pos q) false false.
Proof.
  rewrite iter_pos_eq. induction j using Pos.peano_ind.
  - reflexivity.
  - rewrite (Pos.iter_succ j _ xO), (Pos.iter_succ_r j _ shr_1). simpl. exact IHj.
Qed.

Lemma fexp_normal d : -1021 <= d -> fexp prec emax d = d - 53.
Proof. intros H. unfold fexp, emin, prec, emax. lia. Qed.

Lemma shr_fexp_canonical m e :
  Z.pos (digits2_pos m) = 53 -> -1074 <= e ->
  shr_fexp prec emax (Z.pos m) e loc_Exact = (Build_shr_record (Z.pos m) false false, e).
Proof.
  intros Hm He. unfold shr_fexp. simpl Zdigits2. rewrite Hm.
  rewrite fexp_normal by lia.
  replace (53 + e - 53 - e) with 0 by ring. reflexivity.
Qed.

Lemma binary_round_aux_canonical s m e :
  Z.pos (digits2_pos m) = 53 -> -1074 <= e <= 971 ->
  binary_round_aux prec emax s (Z.pos m) e loc_Exact = S754_finite s m e.
Proof.
  intros Hm He. unfold binary_round_aux.
  rewrite (shr_fexp_canonical m e) by lia.
  cbn [shr_m loc_of_shr_record round_nearest_even].
  rewrite (shr_fexp_canonical m e) by lia.
  cbn [shr_m].
  replace (e <=? emax - prec) with true; [reflexivity|].
  symmetry. apply Z.leb_le. unfold emax, prec. lia.
Qed.

Lemma binary_round_aux_exact s mx ex m e :
  shr_fexp prec emax mx ex loc_Exact = (Build_shr_record (Z.pos m) false false, e) ->
  Z.pos (digits2_pos m) = 53 -> -1074 <= e <= 971 ->
  binary_round_aux prec emax s mx ex loc_Exact = S754_finite s m e.
Proof.
  intros H Hm He. rewrite <- (binary_round_aux_canonical s m e Hm He).
  unfold binary_round_aux. rewrite H.
  rewrite (shr_fexp_canonical m e) by lia.
  cbn [shr_m loc_of_shr_record round_nearest_even].
  rewrite (shr_fexp_canonical m e) by lia.
  reflexivity.
Qed.

(** Rounding a value that fits: [p * 2^e], given as [(p * 2^k) * 2^(e - k)]. *)
Lemma binary_round_fits s p k e :
  0 <= k ->
  Z.pos (digits2_pos p) <= 53 ->
  -1021 <= Z.pos (digits2_pos p) + e <= 1024 ->
  binary_round prec emax s (shl p k) (e - k)
  = S754_finite s (shl p (53 - Z.pos (digits2_pos p))) (Z.pos (digits2_pos p) + e - 53).
Proof.
  intros Hk Hd He. set (d := Z.pos (digits2_pos p)) in *.
  assert (Hc : Z.pos (digits2_pos (shl p (53 - d))) = 53)
    by (rewrite shl_digits by lia; fold d; lia).
  unfold binary_round.
  rewrite shl_digits by exact Hk. fold d.
  replace (d + k + (e - k)) with (d + e) by ring.
  rewrite fexp_normal by lia.
  unfold shl_align.
  destruct (d + e - 53 - (e - k)) as [|j|j] eqn:Ej.
  - (* already aligned *)
    assert (k = 53 - d) by lia. subst k.
    replace (e - (53 - d)) with (d + e - 53) by ring.
    apply binary_round_aux_canonical; [exact Hc | lia].
  - (* too many digits: shifted right, exactly *)
    assert (Hj : k = (53 - d) + Z.pos j) by lia.
    apply binary_round_aux_exact; [| exact Hc | lia].
    unfold shr_fexp. simpl Zdigits2.
    rewrite shl_digits by exact Hk. fold d.
    replace (d + k + (e - k)) with (d + e) by ring.
    rewrite fexp_normal by lia. rewrite Ej.
    unfold shr. cbn [shr_record_of_loc].
    f_equal; [|lia].
    rewrite Hj. rewrite <- shl_shl by lia.
    apply shr_exact.
  - (* too few digits: shifted left *)
    assert (Hj : 53 - d = k + Z.pos j) by lia.
    change (Pos.iter xO (shl p k) j) with (shl (shl p k) (Z.pos j)).
    rewrite shl_shl by lia. rewrite <- Hj.
    apply binary_round_aux_canonical; [exact Hc | lia].
Qed.

(** The Number of a non-zero integer of at most 53 bits. *)
Lemma of_Z_pos p :
  Z.pos (digits2_pos p) <= 53 ->
  of_Z (Z.pos p) = S754_finite false (shl p (53 - Z.pos (digits2_pos p))) (Z.pos (digits2_pos p) - 53).
Proof.
  intros H. unfold of_Z. simpl binary_normalize.
  pose proof (binary_round_fits false p 0 0) as R. cbn [shl] in R. change (0 - 0) with 0 in R.
  rewrite R; [|lia|exact H|lia]. f_equal; lia.
Qed.

Lemma of_Z_neg p :
  Z.pos (digits2_pos p) <= 53 ->
  of_Z (Z.neg p) = S754_finite true (shl p (53 - Z.pos (digits2_pos p))) (Z.pos (digits2_pos p) - 53).
Proof.
  intros H. unfold of_Z. simpl binary_normalize.
  pose proof (binary_round_fits true p 0 0) as R. cbn [shl] in R. change (0 - 0) with 0 in R.
  rewrite R; [|lia|exact H|lia]. f_equal; lia.
Qed.

Lemma digits2_pos_lt p : Z.pos p < 2 ^ Z.pos (digits2_pos p).
Proof.
  induction p as [p IH|p IH|]; simpl digits2_pos.
  - rewrite Pos2Z.inj_succ, Z.pow_succ_r by lia. lia.
  - rewrite Pos2Z.inj_succ, Z.pow_succ_r by lia. lia.
  - reflexivity.
Qed.

Lemma digits2_pos_ge p : 2 ^ (Z.pos (digits2_pos p) - 1) <= Z.pos p.
Proof.
  induction p as [p IH|p IH|]; simpl digits2_pos.
  - rewrite Pos2Z.inj_succ. replace (Z.succ (Z.pos (digits2_pos p)) - 1) with (Z.succ (Z.pos (digits2_pos p) - 1)) by lia.
    rewrite Z.pow_succ_r by lia. lia.
  - rewrite Pos2Z.inj_succ. replace (Z.succ (Z.pos (digits2_pos p)) - 1) with (Z.succ (Z.pos (digits2_pos p) - 1)) by lia.
    rewrite Z.pow_succ_r by lia. lia.
  - simpl. lia.
Qed.

Lemma fits_digits p : Z.pos p < 2 ^ 53 -> Z.pos (digits2_pos p) <= 53.
Proof.
  intros H. pose proof (digits2_pos_ge p) as G.
  destruct (Z.le_gt_cases (Z.pos (digits2_pos p)) 53) as [L|L]; [exact L|].
  exfalso. assert (2 ^ 53 <= 2 ^ (Z.pos (digits2_pos p) - 1)) by (apply Z.pow_le_mono_r; lia).
  lia.
Qed.

Lemma of_Z_canon n : fits n -> of_Z n = canon n.
Proof.
  unfold fits. destruct n as [|p|p]; intros H; simpl canon.
  - reflexivity.
  - apply of_Z_pos, fits_digits. simpl in H. lia.
  - apply of_Z_neg, fits_digits. simpl in H. lia.
Qed.

(** A value [n * 2^k] held at exponent [- k] rounds to the Number of [n]. *)
Lemma binary_normalize_scaled n k :
  fits n -> 0 <= k ->
  binary_normalize prec emax (n * 2 ^ k) (- k) false = of_Z n.
Proof.
  intros Hn Hk. rewrite (of_Z_canon n Hn). unfold fits in Hn.
  destruct n as [|p|p]; simpl canon.
  - reflexivity.
  - assert (Hd : Z.pos (digits2_pos p) <= 53) by (apply fits_digits; simpl in Hn; lia).
    rewrite <- shl_value by exact Hk. simpl binary_normalize.
    pose proof (binary_round_fits false p k 0 Hk Hd) as R.
    change (0 - k) with (- k) in R. rewrite R by lia. f_equal; lia.
  - assert (Hd : Z.pos (digits2_pos p) <= 53) by (apply fits_digits; simpl in Hn; lia).
    replace (Z.neg p * 2 ^ k) with (Z.neg (shl p k))
      by (rewrite <- Pos2Z.opp_pos, shl_value by exact Hk; rewrite <- Pos2Z.opp_pos; ring).
    simpl binary_normalize.
    pose proof (binary_round_fits true p k 0 Hk Hd) as R.
    change (0 - k) with (- k) in R. rewrite R by lia. f_equal; lia.
Qed.

Lemma canon_exponent_bounds p : Z.pos (digits2_pos p) <= 53 -> -52 <= Z.pos (digits2_pos p) - 53 <= 0.
Proof. lia. Qed.

(** Alignment of a canonical mantissa to a smaller exponent. *)
Lemma shl_align_canon p ez :
  Z.pos (digits2_pos p) <= 53 -> ez <= Z.pos (digits2_pos p) - 53 ->
  Z.pos (fst (shl_align (shl p (53 - Z.pos (digits2_pos p))) (Z.pos (digits2_pos p) - 53) ez))
  = Z.pos p * 2 ^ (- ez).
Proof.
  intros Hd He. set (d := Z.pos (digits2_pos p)) in *.
  unfold shl_align. destruct (ez - (d - 53)) as [|j|j] eqn:Ej.
  - cbn [fst]. rewrite shl_value by lia. f_equal. f_equal; lia.
  - lia.
  - cbn [fst]. change (Pos.iter xO (shl p (53 - d)) j) with (shl (shl p (53 - d)) (Z.pos j)).
    rewrite shl_shl by lia. rewrite shl_value by lia. f_equal. f_equal; lia.
Qed.

Lemma add_of_Z a b : fits a -> fits b -> fits (a + b) -> add (of_Z a) (of_Z b) = of_Z (a + b).
Proof.
  intros Ha Hb Hab. rewrite (of_Z_canon a Ha), (of_Z_canon b Hb).
  destruct a as [|p|p];
    [rewrite Z.add_0_l, (of_Z_canon b Hb); destruct b; reflexivity | |];
  (destruct b as [|q|q];
    [rewrite Z.add_0_r, (of_Z_canon _ Ha); reflexivity | |]).
  all: unfold fits in Ha, Hb;
    assert (Hp : Z.pos (digits2_pos p) <= 53) by (apply fits_digits; simpl in Ha; lia);
    assert (Hq : Z.pos (digits2_pos q) <= 53) by (apply fits_digits; simpl in Hb; lia).
  all: simpl canon; unfold add, SFadd;
    set (ez := Z.min (Z.pos (digits2_pos p) - 53) (Z.pos (digits2_pos q) - 53));
    rewrite (shl_align_canon p ez Hp) by lia;
    rewrite (shl_align_canon q ez Hq) by lia;
    cbn [cond_Zopp].
  all: match goal with |- binary_normalize _ _ ?m ?e false = of_Z ?n =>
         replace m with (n * 2 ^ (- e)) by (rewrite <- ?Pos2Z.opp_pos; ring);
         rewrite <- (Z.opp_involutive e) at 2;
         apply binary_normalize_scaled; [exact Hab | lia]
       end.
Qed.

Lemma two_is : of_Z 2 = S754_finite false 4503599627370496 (-51).
Proof. reflexivity. Qed.

Lemma mul_2_52 m : (4503599627370496 * m)%positive = shl m 52.
Proof.
  apply Pos2Z.inj. rewrite shl_value by lia. rewrite Pos2Z.inj_mul. 
  change (Z.pos 4503599627370496) with (2 ^ 52). ring.
Qed.

Lemma fexp_eq d : fexp prec emax d = Z.max (d - 53) (-1074).
Proof. reflexivity. Qed.

(** Adding a valid Number to itself doubles it. *)
Lemma add_self_is_double x :
  valid_binary prec emax x = true -> add x x = mul (of_Z 2) x.
Proof.
  destruct x as [s|s| |s m e]; intros V.
  - now destruct s.
  - now destruct s.
  - reflexivity.
  - rewrite two_is. unfold add, mul, SFadd, SFmul.
    rewrite Z.min_id. unfold shl_align at 1 2. rewrite Z.sub_diag. cbn [fst xorb].
    rewrite mul_2_52.
    simpl in V. unfold bounded, canonical_mantissa in V.
    apply andb_true_iff in V. destruct V as [V1 V2].
    apply Z.eqb_eq in V1. apply Z.leb_le in V2. rewrite fexp_eq in V1.
    set (d := Z.pos (digits2_pos m)) in *.
    assert (Hsum : cond_Zopp s (Z.pos m) + cond_Zopp s (Z.pos m) = cond_Zopp s (Z.pos (xO m)))
      by (destruct s; simpl; lia).
    rewrite Hsum.
    assert (Hbn : binary_normalize prec emax (cond_Zopp s (Z.pos (xO m))) e false
                  = binary_round prec emax s (xO m) e) by (now destruct s).
    rewrite Hbn. unfold binary_round.
    assert (Hd1 : Z.pos (digits2_pos (xO m)) = d + 1) by (simpl; unfold d; lia).
    rewrite Hd1. rewrite fexp_eq.
    (* the exponent aimed at is not below [e] *)
    assert (Ht : e <= Z.max (d + 1 + e - 53) (-1074)) by lia.
    unfold shl_align.
    destruct (Z.max (d + 1 + e - 53) (-1074) - e) as [|j|j] eqn:Ej; [| |lia].
    + (* subnormal: the sum keeps the exponent *)
      unfold binary_round_aux, shr_fexp. cbn [Zdigits2].
      rewrite Hd1, fexp_eq, Ej.
      rewrite shl_digits by lia. fold d.
      replace (d + 52 + (-51 + e)) with (d + 1 + e) by ring. rewrite fexp_eq.
      replace (Z.max (d + 1 + e - 53) (-1074) - (-51 + e)) with 51 by lia.
      unfold shr. cbn [shr_record_of_loc].
      replace (shl m 52) with (Pos.iter xO (xO m) 51)
        by (apply Pos2Z.inj; rewrite iter_xO_value, shl_value by lia;
            rewrite Pos2Z.inj_xO; change (2 ^ 52) with (2 * 2 ^ 51); ring).
      rewrite shr_exact.
      replace (-51 + e + 51) with e by ring. reflexivity.
    + (* normal: the sum has one bit too many *)
      assert (Hj : Z.pos j = 1) by lia. injection Hj as ->.
      unfold binary_round_aux, shr_fexp. cbn [Zdigits2].
      rewrite Hd1, fexp_eq, Ej.
      rewrite shl_digits by lia. fold d.
      replace (d + 52 + (-51 + e)) with (d + 1 + e) by ring. rewrite fexp_eq.
      replace (Z.max (d + 1 + e - 53) (-1074) - (-51 + e)) with 52 by lia.
      unfold shr. cbn [shr_record_of_loc].
      change (shl m 52) with (Pos.iter xO m 52).
      rewrite shr_exact.
      replace (-51 + e + 52) with (e + 1) by ring. reflexivity.
Qed.

(** ** upsertAchievement *)

Lemma strict_eq_refl x : isNaN x = false -> strict_eq x x = true.
Proof.
  destruct x as [s|s| |s m e]; try discriminate; intros _; unfold strict_eq, SFeqb; simpl.
  - reflexivity.
  - destruct s; reflexivity.
  - rewrite Z.compare_refl.
    assert (H : Pos.compare_cont Eq m m = Eq) by apply Pos.compare_cont_refl.
    destruct s; rewrite H; reflexivity.
Qed.

Section Collections.

Context {A : Type}.
Variables (p : A -> bool) (f : A -> A).
Hypothesis keeps : forall x, p x = true -> p (f x) = true.

Lemma find_save_first l : List.find p (save_first p f l) = option_map f (List.find p l).
Proof.
  induction l as [|x l IH]; simpl; [reflexivity|].
  destruct (p x) eqn:E; simpl.
  - now rewrite (keeps x E).
  - now rewrite E.
Qed.

Lemma find_snoc_none l x : List.find p l = None -> List.find p (l ++ [x]) = if p x then Some x else None.
Proof.
  induction l as [|y l IH]; simpl; [reflexivity|].
  destruct (p y); [discriminate | exact IH].
Qed.
End Collections.

Lemma strict_eq_number x y : strict_eq x y = true -> isNaN y = false.
Proof. destruct x, y; try discriminate; reflexivity. Qed.

(** A key that finds a record is cast. *)
Lemma found_key_is_number db id y m r :
  findAchievement db id y m = Some r -> is_number y = true /\ is_number m = true.
Proof.
  unfold findAchievement. intros H. apply List.find_some in H. destruct H as [_ H].
  unfold matches_key in H. apply andb_true_iff in H. destruct H as [H H2].
  apply andb_true_iff in H. destruct H as [_ H1]. unfold is_number.
  now rewrite (strict_eq_number _ _ H1), (strict_eq_number _ _ H2).
Qed.

Lemma upsert_existing_eq db id y m dOwn dOther r :
  findAchievement db id y m = Some r ->
  upsertAchievement db id y m dOwn dOther
  = if validates_achievement (merged r dOwn dOther)
    then Some (save_first (matches_key id y m) (fun e => merged e dOwn dOther) db)
    else None.
Proof.
  intros H. destruct (found_key_is_number _ _ _ _ _ H) as [Hy Hm].
  unfold upsertAchievement. now rewrite Hy, Hm, H.
Qed.

Lemma upsert_fresh_eq db id y m dOwn dOther :
  findAchievement db id y m = None -> isNaN y = false -> isNaN m = false ->
  upsertAchievement db id y m dOwn dOther
  = if validates_achievement (created id y m dOwn dOther)
    then Some (db ++ [created id y m dOwn dOther])
    else None.
Proof.
  intros H Hy Hm. unfold upsertAchievement, is_number. now rewrite Hy, Hm, H.
Qed.

Lemma upsert_nan db id y m dOwn dOther :
  isNaN y = true \/ isNaN m = true -> upsertAchievement db id y m dOwn dOther = None.
Proof.
  unfold upsertAchievement, is_number. intros [-> | ->]; [reflexivity|].
  now rewrite orb_true_r.
Qed.

Lemma upsert_existing db id y m dOwn dOther r db' :
  findAchievement db id y m = Some r ->
  upsertAchievement db id y m dOwn dOther = Some db' ->
  findAchievement db' id y m = Some (merged r dOwn dOther).
Proof.
  intros H U. rewrite (upsert_existing_eq _ _ _ _ _ _ _ H) in U.
  destruct (validates_achievement _); [|discriminate]. injection U as <-.
  unfold findAchievement in *.
  rewrite find_save_first; [now rewrite H|].
  intros x Hx. exact Hx.
Qed.

Lemma matches_created id y m dOwn dOther :
  isNaN y = false -> isNaN m = false ->
  matches_key id y m (created id y m dOwn dOther) = true.
Proof.
  intros Hy Hm. unfold matches_key, created; simpl.
  now rewrite N.eqb_refl, !strict_eq_refl.
Qed.

Lemma upsert_fresh_found db id y m dOwn dOther db' :
  isNaN y = false -> isNaN m = false ->
  findAchievement db id y m = None ->
  upsertAchievement db id y m dOwn dOther = Some db' ->
  findAchievement db' id y m = Some (created id y m dOwn dOther).
Proof.
  intros Hy Hm H U. rewrite (upsert_fresh_eq _ _ _ _ _ _ H Hy Hm) in U.
  destruct (validates_achievement _); [|discriminate]. injection U as <-.
  unfold findAchievement in *.
  rewrite (find_snoc_none _ _ _ H). now rewrite matches_created.
Qed.

Lemma magnitude_nonneg ds : 0 <= magnitude ds.
Proof. induction ds as [|d ds IH]; simpl; lia. Qed.

Lemma sums_bounded ds : Z.abs (sum_own ds) + Z.abs (sum_other ds) <= magnitude ds.
Proof.
  induction ds as [|[a b] ds IH]; [simpl; lia|].
  change (sum_own ((a, b) :: ds)) with (a + sum_own ds).
  change (sum_other ((a, b) :: ds)) with (b + sum_other ds).
  change (magnitude ((a, b) :: ds)) with (Z.abs a + Z.abs b + magnitude ds).
  lia.
Qed.

Lemma of_Z_is_number n : is_number (of_Z n) = true.
Proof.
  unfold is_number, of_Z. pose proof (binary_normalize_not_nan prec emax n 0 false) as H.
  destruct (binary_normalize prec emax n 0 false); try reflexivity. now elim H.
Qed.

(** Integer totals pass the validation. *)
Lemma validates_integers i yy mm A B C :
  validates_achievement (MonthlyAchievement.mk i yy mm (of_Z A) (of_Z B) (of_Z C)) = true.
Proof. unfold validates_achievement. simpl. now rewrite !of_Z_is_number. Qed.

Lemma merge_all_integers id y m : forall ds db i yy mm A B,
  findAchievement db id y m
  = Some (MonthlyAchievement.mk i yy mm (of_Z A) (of_Z B) (of_Z (A + B))) ->
  Z.abs A + Z.abs B + magnitude ds < 2 ^ 53 ->
  exists db',
    merge_all db id y m (List.map of_Z_pair ds) = Some db' /\
    findAchievement db' id y m
    = Some (MonthlyAchievement.mk i yy mm
              (of_Z (A + sum_own ds)) (of_Z (B + sum_other ds))
              (of_Z ((A + sum_own ds) + (B + sum_other ds)))).
Proof.
  induction ds as [|[a b] ds IH]; intros db i yy mm A B H Hm.
  - exists db. simpl. rewrite !Z.add_0_r. auto.
  - simpl in Hm. pose proof (magnitude_nonneg ds) as Hn.
    cbn [List.map merge_all of_Z_pair fst snd].
    pose proof (upsert_existing_eq db id y m (of_Z a) (of_Z b) _ H) as E.
    assert (V : validates_achievement
                  (merged (MonthlyAchievement.mk i yy mm (of_Z A) (of_Z B) (of_Z (A + B)))
                     (of_Z a) (of_Z b)) = true).
    { unfold merged. cbn. rewrite !add_of_Z by (unfold fits; lia).
      apply validates_integers. }
    rewrite V in E. rewrite E.
    pose proof (upsert_existing db id y m (of_Z a) (of_Z b) _ _ H E) as H1.
    unfold merged in H1 at 2. cbn in H1.
    rewrite !add_of_Z in H1 by (unfold fits; lia).
    replace (A + B + (a + b)) with ((A + a) + (B + b)) in H1 by ring.
    destruct (IH _ _ _ _ _ _ H1 ltac:(lia)) as [db' [M F]].
    exists db'. split; [exact M|]. rewrite F.
    change (sum_own ((a, b) :: ds)) with (a + sum_own ds).
    change (sum_other ((a, b) :: ds)) with (b + sum_other ds).
    f_equal. f_equal; f_equal; ring.
Qed.

(** C5, as stated, fails: the net amounts ["1e999"] and ["-1e999"] are the
    Numbers [Infinity] and [-Infinity], their sum is [NaN], and the call
    for these deltas throws: no record is created. *)
Lemma upsertAchievement_refuses_nan_total :
  num (VString "1e999") = Infinity /\
  num (VString "-1e999") = neg Infinity /\
  add Infinity (neg Infinity) = NaN /\
  findAchievement [] 7 y2025 january = None /\
  upsertAchievement [] 7 y2025 january Infinity (neg Infinity) = None.
Proof. repeat split. Qed.

(** C5 (amended): [upsertAchievement] is additive where the driver accepts
    what is to be stored.  When a record exists for the key and none of its
    three totals becomes [NaN], the call adds [ownDelta], [otherDelta] and
    their sum to them; when none exists, the year and the month are
    numbers and none of the deltas and of their sum is [NaN], it creates
    the record with the deltas as initial values; so, from a cleared key,
    merging the same deltas twice stores [x + x] for each total [x] that
    merging them once stores, and [x + x] is [2 * x] for the valid Numbers.
    In every other case the call throws and stores nothing. *)
Theorem upsertAchievement_additive (db : achievements) (id : N)
    (y m dOwn dOther : number) :
  (forall r, findAchievement db id y m = Some r ->
     validates_achievement (merged r dOwn dOther) = true ->
     exists db',
       upsertAchievement db id y m dOwn dOther = Some db' /\
       findAchievement db' id y m
       = Some (MonthlyAchievement.mk
                 (MonthlyAchievement.salesperson r) (MonthlyAchievement.year r)
                 (MonthlyAchievement.month r)
                 (add (MonthlyAchievement.ownAchievement r) dOwn)
                 (add (MonthlyAchievement.otherAchievement r) dOther)
                 (add (MonthlyAchievement.totalAchievement r) (add dOwn dOther)))) /\
  (findAchievement db id y m = None -> isNaN y = false -> isNaN m = false ->
   validates_achievement (created id y m dOwn dOther) = true ->
     upsertAchievement db id y m dOwn dOther
     = Some (db ++ [MonthlyAchievement.mk id y m dOwn dOther (add dOwn dOther)])) /\
  (findAchievement db id y m = None -> isNaN y = false -> isNaN m = false ->
   validates_achievement (created id y m dOwn dOther) = true ->
   validates_achievement (merged (created id y m dOwn dOther) dOwn dOther) = true ->
     exists db1 db2,
       upsertAchievement db id y m dOwn dOther = Some db1 /\
       findAchievement db1 id y m
       = Some (MonthlyAchievement.mk id y m dOwn dOther (add dOwn dOther)) /\
       upsertAchievement db1 id y m dOwn dOther = Some db2 /\
       findAchievement db2 id y m
       = Some (MonthlyAchievement.mk id y m (add dOwn dOwn) (add dOther dOther)
                 (add (add dOwn dOther) (add dOwn dOther)))) /\
  (valid_binary prec emax dOwn = true -> valid_binary prec emax dOther = true ->
   valid_binary prec emax (add dOwn dOther) = true ->
   add dOwn dOwn = mul (of_Z 2) dOwn /\
   add dOther dOther = mul (of_Z 2) dOther /\
   add (add dOwn dOther) (add dOwn dOther) = mul (of_Z 2) (add dOwn dOther)) /\
  (upsertAchievement db id y m dOwn dOther = None <->
   isNaN y = true \/ isNaN m = true \/
   (exists r, findAchievement db id y m = Some r /\
              validates_achievement (merged r dOwn dOther) = false) \/
   (findAchievement db id y m = None /\
    validates_achievement (created id y m dOwn dOther) = false)).
Proof.
  split; [|split; [|split; [|split]]].
  - intros r H V. rewrite (upsert_existing_eq _ _ _ _ dOwn dOther _ H), V.
    eexists. split; [reflexivity|].
    apply (upsert_existing db id y m dOwn dOther r); [exact H|].
    now rewrite (upsert_existing_eq _ _ _ _ dOwn dOther _ H), V.
  - intros H Hy Hm V. now rewrite (upsert_fresh_eq _ _ _ _ dOwn dOther H Hy Hm), V.
  - intros H Hy Hm V1 V2.
    pose proof (upsert_fresh_eq _ _ _ _ dOwn dOther H Hy Hm) as E1. rewrite V1 in E1.
    pose proof (upsert_fresh_found db id y m dOwn dOther _ Hy Hm H E1) as F1.
    pose proof (upsert_existing_eq _ _ _ _ dOwn dOther _ F1) as E2. rewrite V2 in E2.
    pose proof (upsert_existing _ _ _ _ dOwn dOther _ _ F1 E2) as F2.
    eexists. eexists. split; [exact E1|]. split; [exact F1|]. split; [exact E2 | exact F2].
  - intros V1 V2 V3. repeat split; now apply add_self_is_double.
  - destruct (isNaN y) eqn:Hy.
    { rewrite upsert_nan by auto. split; auto. }
    destruct (isNaN m) eqn:Hm.
    { rewrite upsert_nan by auto. split; auto. }
    destruct (findAchievement db id y m) as [r|] eqn:H.
    + rewrite (upsert_existing_eq _ _ _ _ dOwn dOther _ H).
      destruct (validates_achievement (merged r dOwn dOther)) eqn:V; split.
      * discriminate.
      * intros [K|[K|[[r' [K1 K2]]|[K _]]]]; try discriminate. congruence.
      * intros _. right. right. left. eauto.
      * reflexivity.
    + rewrite (upsert_fresh_eq _ _ _ _ dOwn dOther H Hy Hm).
      destruct (validates_achievement (created id y m dOwn dOther)) eqn:V; split.
      * discriminate.
      * intros [K|[K|[[r' [K1 K2]]|[_ K]]]]; discriminate.
      * intros _. right. right. right. auto.
      * reflexivity.
Qed.

(** The theorem for 5000 own and 200 other, merged twice for January 2025. *)
Lemma upsertAchievement_additive_witness :
  exists db1 db2,
    upsertAchievement [] 7 y2025 january (of_Z 5000) (of_Z 200) = Some db1 /\
    findAchievement db1 7 y2025 january
    = Some (MonthlyAchievement.mk 7 y2025 january (of_Z 5000) (of_Z 200)
              (add (of_Z 5000) (of_Z 200))) /\
    upsertAchievement db1 7 y2025 january (of_Z 5000) (of_Z 200) = Some db2 /\
    findAchievement db2 7 y2025 january
    = Some (MonthlyAchievement.mk 7 y2025 january
              (add (of_Z 5000) (of_Z 5000)) (add (of_Z 200) (of_Z 200))
              (add (add (of_Z 5000) (of_Z 200)) (add (of_Z 5000) (of_Z 200)))).
Proof.
  apply (proj1 (proj2 (proj2
           (upsertAchievement_additive [] 7 y2025 january (of_Z 5000) (of_Z 200)))));
    reflexivity.
Defined.

Example merged_twice_is_double :
  merge_all [] 7 y2025 january [(of_Z 5000, of_Z 200); (of_Z 5000, of_Z 200)]
  = Some [MonthlyAchievement.mk 7 y2025 january (of_Z 10000) (of_Z 400) (of_Z 10400)].
Proof. reflexivity. Qed.

(** C10, as stated, fails: after the merges of [(0.1, 0.2)] and then
    [(0, 0.3)], neither of which throws, the stored total is
    0.6000000000000001 while own plus other is 0.6. *)
Lemma total_drifts_from_components :
  exists db r,
    drifted = Some db /\
    findAchievement db 7 y2025 january = Some r /\
    NumberToString (MonthlyAchievement.ownAchievement r) = "0.1" /\
    NumberToString (MonthlyAchievement.otherAchievement r) = "0.5" /\
    NumberToString (MonthlyAchievement.totalAchievement r) = "0.6000000000000001" /\
    NumberToString (add (MonthlyAchievement.ownAchievement r)
                        (MonthlyAchievement.otherAchievement r)) = "0.6" /\
    strict_eq (MonthlyAchievement.totalAchievement r)
              (add (MonthlyAchievement.ownAchievement r)
                   (MonthlyAchievement.otherAchievement r)) = false.
Proof. eexists. eexists. split; [reflexivity|]. split; [reflexivity|]. repeat split. Qed.

(** C10 (amended): for a record created and updated through
    [upsertAchievement] only, the creating call stores a record exactly
    when none of the two deltas and of their sum is [NaN], and the stored
    total then equals own plus other; and it does after every later call
    when the deltas are integers whose absolute values add up to less than
    [2 ^ 53], no call then throwing and every sum being exact.  With other
    amounts binary64 rounding can make the total differ from own plus
    other. *)
Theorem total_is_sum_of_components (db : achievements) (id : N) (y m : number) :
  findAchievement db id y m = None -> isNaN y = false -> isNaN m = false ->
  (forall dOwn dOther,
     ((exists db', upsertAchievement db id y m dOwn dOther = Some db')
      <-> isNaN dOwn = false /\ isNaN dOther = false /\ isNaN (add dOwn dOther) = false) /\
     (forall db', upsertAchievement db id y m dOwn dOther = Some db' ->
        exists r,
          findAchievement db' id y m = Some r /\
          isNaN (MonthlyAchievement.totalAchievement r) = false /\
          MonthlyAchievement.totalAchievement r
          = add (MonthlyAchievement.ownAchievement r)
                (MonthlyAchievement.otherAchievement r))) /\
  (forall (d : Z * Z) (ds : list (Z * Z)),
     magnitude (d :: ds) < 2 ^ 53 ->
     exists db' r,
       merge_all db id y m (List.map of_Z_pair (d :: ds)) = Some db' /\
       findAchievement db' id y m = Some r /\
       MonthlyAchievement.ownAchievement r = of_Z (sum_own (d :: ds)) /\
       MonthlyAchievement.otherAchievement r = of_Z (sum_other (d :: ds)) /\
       MonthlyAchievement.totalAchievement r
       = add (MonthlyAchievement.ownAchievement r) (MonthlyAchievement.otherAchievement r)).
Proof.
  intros H Hy Hm. split.
  - intros dOwn dOther.
    pose proof (upsert_fresh_eq _ _ _ _ dOwn dOther H Hy Hm) as E.
    assert (V : validates_achievement (created id y m dOwn dOther)
                = negb (isNaN dOwn) && negb (isNaN dOther) && negb (isNaN (add dOwn dOther)))
      by reflexivity.
    split; [split|].
    + intros [db' U]. rewrite U in E.
      destruct (validates_achievement _); [|discriminate].
      symmetry in V. apply andb_true_iff in V. destruct V as [V V3].
      apply andb_true_iff in V. destruct V as [V1 V2].
      apply negb_true_iff in V1, V2, V3. auto.
    + intros [V1 [V2 V3]]. rewrite E, V, V1, V2, V3. simpl. eauto.
    + intros db' U. exists (created id y m dOwn dOther). split; [|split].
      * now apply (upsert_fresh_found db id y m dOwn dOther db').
      * rewrite U, V in E. cbn [created MonthlyAchievement.totalAchievement].
        destruct (isNaN (add dOwn dOther)); [|reflexivity].
        rewrite andb_false_r in E. discriminate.
      * reflexivity.
  - intros [a b] ds Hmag. simpl in Hmag. pose proof (magnitude_nonneg ds) as Hn.
    pose proof (upsert_fresh_eq _ _ _ _ (of_Z a) (of_Z b) H Hy Hm) as E.
    unfold created in E. rewrite add_of_Z in E by (unfold fits; lia).
    rewrite validates_integers in E.
    assert (H1 : findAchievement
                   (db ++ [MonthlyAchievement.mk id y m (of_Z a) (of_Z b) (of_Z (a + b))])
                   id y m
                 = Some (MonthlyAchievement.mk id y m (of_Z a) (of_Z b) (of_Z (a + b)))).
    { pose proof (upsert_fresh_found db id y m (of_Z a) (of_Z b) _ Hy Hm H E) as K.
      unfold created in K. now rewrite add_of_Z in K by (unfold fits; lia). }
    destruct (merge_all_integers id y m ds _ _ _ _ _ _ H1 ltac:(lia)) as [db' [M F]].
    exists db'. eexists. split; [|split; [exact F|split; [|split]]].
    + cbn [List.map merge_all of_Z_pair fst snd]. rewrite E. exact M.
    + reflexivity.
    + reflexivity.
    + cbn [MonthlyAchievement.totalAchievement MonthlyAchievement.ownAchievement
           MonthlyAchievement.otherAchievement].
      pose proof (sums_bounded ds) as Hs.
      symmetry. apply add_of_Z; unfold fits; lia.
Qed.

(** The theorem for the integer merges [(5000, 200)], [(0, 300)] and
    [(-1000, 0)]. *)
Lemma total_is_sum_of_components_witness :
  exists db' r,
    merge_all [] 7 y2025 january
      (List.map of_Z_pair [(5000, 200); (0, 300); (-1000, 0)]) = Some db' /\
    findAchievement db' 7 y2025 january = Some r /\
    MonthlyAchievement.ownAchievement r = of_Z (sum_own [(5000, 200); (0, 300); (-1000, 0)]) /\
    MonthlyAchievement.otherAchievement r = of_Z (sum_other [(5000, 200); (0, 300); (-1000, 0)]) /\
    MonthlyAchievement.totalAchievement r
    = add (MonthlyAchievement.ownAchievement r) (MonthlyAchievement.otherAchievement r).
Proof.
  apply (proj2 (total_is_sum_of_components [] 7 y2025 january
                  eq_refl eq_refl eq_refl) (5000, 200) [(0, 300); (-1000, 0)]).
  reflexivity.
Defined.

(** ** POST /api/upload-sales *)

Lemma upload_missing_period message sps db req :
  truthy (body_year req) = false \/ truthy (body_month req) = false ->
  upload_sales message sps db req = (mk_response 400 "year and month are required", db).
Proof.
  intros H. unfold upload_sales.
  destruct H as [-> | ->]; simpl; [reflexivity|].
  now rewrite orb_true_r.
Qed.

Lemma upload_missing_file message sps db req :
  truthy (body_year req) = true -> truthy (body_month req) = true ->
  isNaN (ToNumber (body_year req)) = false -> isNaN (ToNumber (body_month req)) = false ->
  salesFile req = None -> file req = None ->
  upload_sales message sps db req
  = (mk_response 400 "Sales Excel file is required",
     deleteMany db (ToNumber (body_year req)) (ToNumber (body_month req))).
Proof.
  intros Hy Hm Ny Nm Hs Hf. unfold upload_sales, salesUploaded, is_number.
  now rewrite Hy, Hm, Ny, Nm, Hs, Hf.
Qed.

(** C4 fails on the code: a request that names the period but carries no
    sales file is rejected with status 400 only after the records of that
    period have been deleted; here the January record is gone and the
    February one is left. *)
Theorem upload_without_sales_file_clears_period (message : string) :
  upload_sales message [sp_videum] stored_2025 request_without_sales_file
  = (mk_response 400 "Sales Excel file is required",
     [MonthlyAchievement.mk 7 y2025 (of_Z 2) (of_Z 10) (of_Z 20) (of_Z 30)]).
Proof. reflexivity. Qed.

Example upload_without_year_keeps_records (message : string) :
  upload_sales message [sp_videum] stored_2025 request_without_year
  = (mk_response 400 "year and month are required", stored_2025).
Proof. reflexivity. Qed.

(** ** processExcelFileMulti *)

Lemma seg_step_header st r :
  globalHeader (seg_step st r) =
  match globalHeader st with
  | Some h => Some h
  | None => if captures_header r then Some r else None
  end.
Proof.
  unfold seg_step, captures_header.
  destruct (second_has_total r); simpl.
  - now destruct (globalHeader st).
  - destruct (globalHeader st) as [h|] eqn:E; simpl.
    + destruct (test_label_ci "Salesperson" (firstCell r)).
      * destruct (is_empty (namePart (firstCell r))); simpl; rewrite ?E; reflexivity.
      * destruct (currentSalesperson st) as [cur|]; [|rewrite ?E; reflexivity].
        destruct (is_empty cur); [rewrite ?E; reflexivity|].
        destruct (is_meta_row r); simpl; rewrite ?E; reflexivity.
    + destruct (is_date_row r); simpl; [reflexivity|].
      destruct (test_label_ci "Salesperson" (firstCell r)).
      * destruct (is_empty (namePart (firstCell r))); simpl; rewrite ?E; reflexivity.
      * destruct (currentSalesperson st) as [cur|]; rewrite ?E; reflexivity.
Qed.

Lemma segment_header rows : forall st,
  globalHeader (fold_left seg_step rows st) =
  match globalHeader st with
  | Some h => Some h
  | None => List.find captures_header rows
  end.
Proof.
  induction rows as [|r rows IH]; intros st; simpl.
  - now destruct (globalHeader st).
  - rewrite IH, seg_step_header.
    destruct (globalHeader st); [reflexivity|].
    now destruct (captures_header r).
Qed.

Lemma seg_step_no_header st r :
  globalHeader st = None -> captures_header r = false ->
  all_empty (rowsBySalesperson st) -> all_empty (rowsBySalesperson (seg_step st r)).
Proof.
  intros Hh Hc He. unfold seg_step. unfold captures_header in Hc.
  destruct (second_has_total r); [exact He|]. simpl in Hc. rewrite Hh, Hc. simpl.
  destruct (test_label_ci "Salesperson" (firstCell r)).
  - destruct (is_empty (namePart (firstCell r))); simpl; [exact He|].
    destruct (has_block _ _); [exact He|].
    apply Forall_app. split; [exact He|]. now constructor.
  - destruct (currentSalesperson st); exact He.
Qed.

Lemma segment_no_header rows : forall st,
  globalHeader st = None -> List.find captures_header rows = None ->
  all_empty (rowsBySalesperson st) ->
  all_empty (rowsBySalesperson (fold_left seg_step rows st)).
Proof.
  induction rows as [|r rows IH]; intros st Hh Hf He; simpl; [exact He|].
  simpl in Hf. destruct (captures_header r) eqn:Hc; [discriminate|].
  apply IH; [| exact Hf | now apply seg_step_no_header].
  rewrite seg_step_header, Hh, Hc. reflexivity.
Qed.

Lemma no_date_no_capture rows :
  (forall r, In r rows -> is_date_row r = false) -> List.find captures_header rows = None.
Proof.
  intros H. induction rows as [|r rows IH]; [reflexivity|]. simpl.
  unfold captures_header at 1. rewrite (H r) by now left. rewrite andb_false_r.
  apply IH. intros r' Hr'. apply H. now right.
Qed.

Lemma insert_by_index_Forall {A} (P : string * A -> Prop) v e l :
  P e -> Forall (fun x => P (snd x)) l ->
  Forall (fun x => P (snd x)) (insert_by_index v e l).
Proof.
  intros He. induction l as [|[v' e'] l IH]; intros H; simpl.
  - now constructor.
  - destruct (v <=? v').
    + now constructor.
    + inversion H; subst. constructor; [assumption | now apply IH].
Qed.

Lemma own_keys_order_Forall {A} (P : string * A -> Prop) m :
  Forall P m -> Forall P (own_keys_order m).
Proof.
  intros H. unfold own_keys_order. apply Forall_app. split.
  - apply Forall_map.
    induction H as [|e m He Hm IH]; simpl; [constructor|].
    destruct (array_index (fst e)); [now apply insert_by_index_Forall | exact IH].
  - induction H as [|e m He Hm IH]; simpl; [constructor|].
    destruct (array_index (fst e)); [exact IH | now constructor].
Qed.

Lemma empty_blocks_untouched sps y m rs blocks : forall db,
  all_empty blocks -> process_blocks sps db blocks y m rs = (db, true).
Proof.
  induction blocks as [|[k b] blocks IH]; intros db H; [reflexivity|].
  inversion H as [|? ? Hb Hrest]; subst. simpl in Hb. subst b. simpl. now apply IH.
Qed.

(** C9, as stated, fails: the first row whose first cell is [Date] has
    [Sub Total] in its second cell, so it is skipped, and the header is
    taken from the later [Date] row. *)
Lemma header_not_from_first_date_row :
  first_date_row sheet_total_header
  = Some [VString "Date"; VString "Sub Total"; VString "Net Amount"] /\
  globalHeader (segment sheet_total_header)
  = Some [VString "Date"; VString "Invoice No."; VString "Net Amount"] /\
  List.map (fun b => (fst b, List.length (snd b)))
    (rowsBySalesperson (segment sheet_total_header)) = [("RAVI"%string, 1%nat)].
Proof. repeat split. Qed.

(** C9 (amended): the shared header is the first row whose first cell
    equals [Date], case-insensitively, and whose second cell does not
    contain [TOTAL]; once it is captured no later row changes it; and for a
    sheet with no row whose first cell equals [Date], every block's row
    list stays empty and the call leaves the achievements as they were,
    without an error. *)
Theorem header_capture (rows : sheet) :
  globalHeader (segment rows) = List.find captures_header rows /\
  (forall st r h, globalHeader st = Some h -> globalHeader (seg_step st r) = Some h) /\
  ((forall r, In r rows -> is_date_row r = false) ->
   all_empty (rowsBySalesperson (segment rows)) /\
   forall sps db y m rs, processExcelFileMulti sps db rows y m rs = (db, true)).
Proof.
  split; [|split].
  - unfold segment. now rewrite segment_header.
  - intros st r h H. now rewrite seg_step_header, H.
  - intros H. apply no_date_no_capture in H.
    assert (He : all_empty (rowsBySalesperson (segment rows))).
    { unfold segment. apply segment_no_header; [reflexivity | exact H | constructor]. }
    split; [exact He|].
    intros. unfold processExcelFileMulti.
    now apply empty_blocks_untouched, own_keys_order_Forall.
Qed.

(** The theorem for a sheet with a salesperson line and a detail row but
    no [Date] row. *)
Lemma header_capture_witness :
  all_empty (rowsBySalesperson (segment sheet_no_header)) /\
  forall sps db y m rs, processExcelFileMulti sps db sheet_no_header y m rs = (db, true).
Proof.
  apply (proj2 (proj2 (header_capture sheet_no_header))).
  intros r [<- | [<- | []]]; reflexivity.
Defined.

(** ** The loop over the rows *)

Lemma map_get_set_same m k v : map_get (map_set m k v) k = Some v.
Proof.
  induction m as [|[k' v'] m IH]; simpl.
  - now rewrite String.eqb_refl.
  - destruct (String.eqb k' k) eqn:E; simpl; rewrite E; [reflexivity | exact IH].
Qed.

Lemma map_get_set_other m k k' v : k <> k' -> map_get (map_set m k v) k' = map_get m k'.
Proof.
  intros Hne. induction m as [|[k0 v0] m IH]; simpl.
  - destruct (String.eqb k k') eqn:E; [apply String.eqb_eq in E; contradiction | reflexivity].
  - destruct (String.eqb k0 k) eqn:E; simpl.
    + apply String.eqb_eq in E. subst k0.
      destruct (String.eqb k k') eqn:E'; [apply String.eqb_eq in E'; contradiction | reflexivity].
    + destruct (String.eqb k0 k'); [reflexivity | exact IH].
Qed.

Lemma last_seen_snoc pre r :
  last_seen (pre ++ [r]) = if is_empty (own_number r) then last_seen pre else Some (own_number r).
Proof.
  unfold last_seen. rewrite List.map_app, List.filter_app. simpl.
  destruct (is_empty (own_number r)); simpl.
  - now rewrite app_nil_r.
  - apply last_snoc.
Qed.

Lemma last_seen_nonempty pre k : last_seen pre = Some k -> is_empty k = false.
Proof.
  unfold last_seen. intros H. apply last_Some_elem_of in H.
  apply list_elem_of_In, List.filter_In in H. destruct H as [_ H].
  now apply negb_true_iff in H.
Qed.

Lemma owner_nonempty pre r k : owner pre r = Some k -> is_empty k = false.
Proof.
  unfold owner. destruct (is_empty (invNoRaw r)).
  - apply last_seen_nonempty.
  - destruct (is_empty (own_number r)) eqn:E; [discriminate|]. now intros [= <-].
Qed.

Lemma last_seen_owner pre r :
  last_seen (pre ++ [r]) = match owner pre r with
                           | Some k => Some k
                           | None => last_seen pre
                           end.
Proof.
  rewrite last_seen_snoc. unfold owner, own_number.
  destruct (is_empty (invNoRaw r)) eqn:E; simpl.
  - now destruct (last_seen pre).
  - now destruct (is_empty (normalizeInvoiceNo (VString (invNoRaw r)))).
Qed.

Lemma rows_of_from_snoc k rows : forall pre r,
  rows_of_from k pre (rows ++ [r])
  = rows_of_from k pre rows ++ (if owned_by k (pre ++ rows) r then [r] else []).
Proof.
  induction rows as [|x rows IH]; intros pre r; simpl.
  - now rewrite !app_nil_r.
  - rewrite IH. rewrite <- !app_assoc. simpl. reflexivity.
Qed.

Lemma rows_of_snoc k rows r :
  rows_of k (rows ++ [r]) = rows_of k rows ++ (if owned_by k rows r then [r] else []).
Proof. unfold rows_of. now rewrite rows_of_from_snoc. Qed.

Lemma invoice_of_snoc k rs r :
  invoice_of k (rs ++ [r])
  = Some match invoice_of k rs with
         | None => push_item (new_invoice k r) (line_item r)
         | Some inv => absorb inv r
         end.
Proof.
  destruct rs as [|r0 rest]; simpl; [reflexivity|].
  now rewrite List.fold_left_app.
Qed.

(** The step, in terms of the owner of the row. *)
Lemma agg_step_owner invoices pre r :
  agg_step (invoices, last_seen pre) r =
  match owner pre r with
  | None => (invoices, last_seen pre)
  | Some k =>
      (map_set invoices k
         match map_get invoices k with
         | None => push_item (new_invoice k r) (line_item r)
         | Some inv => absorb inv r
         end,
       last_seen (pre ++ [r]))
  end.
Proof.
  rewrite last_seen_owner.
  unfold agg_step, normInvNo, owner, own_number.
  destruct (is_empty (invNoRaw r)) eqn:E; simpl.
  - destruct (last_seen pre) as [k|] eqn:L; [|reflexivity].
    rewrite (last_seen_nonempty _ _ L). now destruct (map_get invoices k).
  - destruct (is_empty (normalizeInvoiceNo (VString (invNoRaw r)))) eqn:E';
      [reflexivity|].
    now destruct (map_get invoices _).
Qed.

Lemma aggregate_from_snoc st rows r :
  aggregate_from st (rows ++ [r]) = agg_step (aggregate_from st rows) r.
Proof. unfold aggregate_from. now rewrite List.fold_left_app. Qed.

Lemma aggregate_invariant rows :
  snd (aggregate_from ([], None) rows) = last_seen rows /\
  forall k, map_get (fst (aggregate_from ([], None) rows)) k = invoice_of k (rows_of k rows).
Proof.
  induction rows as [|r rows [IH1 IH2]] using rev_ind.
  - split; reflexivity.
  - rewrite aggregate_from_snoc.
    destruct (aggregate_from ([], None) rows) as [invoices lastInvNo].
    simpl in IH1, IH2. subst lastInvNo.
    rewrite agg_step_owner.
    destruct (owner rows r) as [k|] eqn:O.
    + split; [reflexivity|]. intros k'. simpl fst.
      rewrite rows_of_snoc. unfold owned_by. rewrite O.
      destruct (String.eqb k k') eqn:E.
      * apply String.eqb_eq in E. subst k'.
        rewrite map_get_set_same, invoice_of_snoc, IH2. reflexivity.
      * rewrite app_nil_r. rewrite map_get_set_other; [apply IH2|].
        intros ->. now rewrite String.eqb_refl in E.
    + split.
      * simpl. rewrite last_seen_owner, O. reflexivity.
      * intros k'. simpl fst. rewrite rows_of_snoc. unfold owned_by. rewrite O.
        rewrite app_nil_r. apply IH2.
Qed.

Lemma items_fold rest : forall inv0,
  Invoice.items (List.fold_left absorb rest inv0) = Invoice.items inv0 ++ List.map line_item rest.
Proof.
  induction rest as [|r rest IH]; intros inv0; simpl.
  - now rewrite app_nil_r.
  - rewrite IH. simpl. now rewrite <- app_assoc.
Qed.

Lemma items_invoice_of k rs inv :
  invoice_of k rs = Some inv -> Invoice.items inv = List.map line_item rs.
Proof.
  destruct rs as [|r0 rest]; simpl; [discriminate|].
  intros [= <-]. now rewrite items_fold.
Qed.

Lemma field_absorb f inv r :
  field f (absorb inv r) = fill_one (field f inv) (candidate f r).
Proof. destruct f; reflexivity. Qed.

Lemma field_new f k r : field f (push_item (new_invoice k r) (line_item r)) = candidate f r.
Proof. destruct f; reflexivity. Qed.

Lemma field_fold f rest : forall inv0,
  field f (List.fold_left absorb rest inv0)
  = List.fold_left fill_one (List.map (candidate f) rest) (field f inv0).
Proof.
  induction rest as [|r rest IH]; intros inv0; simpl; [reflexivity|].
  now rewrite IH, field_absorb.
Qed.

Lemma fill_one_truthy c l : truthy_number c = true -> List.fold_left fill_one l c = c.
Proof.
  intros H. induction l as [|x l IH]; simpl; [reflexivity|].
  unfold fill_one at 2. rewrite H. simpl. exact IH.
Qed.

Lemma fill_one_fold l : forall c,
  List.fold_left fill_one l c =
  if truthy_number c then c
  else match List.find truthy_number l with
       | Some v => v
       | None => c
       end.
Proof.
  induction l as [|x l IH]; intros c; simpl.
  - now destruct (truthy_number c).
  - destruct (truthy_number c) eqn:Hc.
    + unfold fill_one. rewrite Hc. simpl. now apply fill_one_truthy.
    + unfold fill_one. rewrite Hc. simpl.
      destruct (truthy_number x) eqn:Hx.
      * now apply fill_one_truthy.
      * rewrite IH, Hc. reflexivity.
Qed.

Lemma falsy_is_zero c : truthy_number c = false -> isNaN c = false -> strict_eq c pos_zero = true.
Proof. destruct c as [s|s| |s m e]; try discriminate. reflexivity. Qed.

Lemma field_invoice_of f k rs inv :
  invoice_of k rs = Some inv ->
  match List.find truthy_number (List.map (candidate f) rs) with
  | Some v => field f inv = v
  | None => strict_eq (field f inv) pos_zero = true
  end.
Proof.
  destruct rs as [|r0 rest]; simpl; [discriminate|].
  intros [= <-]. rewrite field_fold, field_new, fill_one_fold.
  destruct (truthy_number (candidate f r0)) eqn:H0; [reflexivity|].
  destruct (List.find truthy_number (List.map (candidate f) rest)); [reflexivity|].
  apply falsy_is_zero; [exact H0|]. destruct f; apply num_not_nan.
Qed.

Lemma agg_step_keeps st r k inv0 f :
  map_get (fst st) k = Some inv0 -> truthy_number (field f inv0) = true ->
  exists inv1, map_get (fst (agg_step st r)) k = Some inv1 /\ field f inv1 = field f inv0.
Proof.
  intros H Ht. destruct st as [invoices lastInvNo]. simpl in H.
  unfold agg_step.
  destruct (normInvNo lastInvNo r) as [k'|]; [|now exists inv0].
  destruct (is_empty k'); [now exists inv0|]. simpl fst.
  destruct (String.eqb k' k) eqn:E.
  - apply String.eqb_eq in E. subst k'. rewrite H, map_get_set_same.
    eexists. split; [reflexivity|].
    change (push_item (fill_invoice inv0 r) (line_item r)) with (absorb inv0 r).
    rewrite field_absorb. unfold fill_one. now rewrite Ht.
  - rewrite (map_get_set_other _ k' k); [now exists inv0|].
    intros ->. now rewrite String.eqb_refl in E.
Qed.

Lemma agg_step_dropped invoices pre r :
  owner pre r = None -> agg_step (invoices, last_seen pre) r = (invoices, last_seen pre).
Proof. intros H. now rewrite agg_step_owner, H. Qed.

Lemma aggregate_state rows :
  aggregate_from ([], None) rows = (aggregate rows, last_seen rows).
Proof.
  unfold aggregate. destruct (aggregate_invariant rows) as [H _].
  destruct (aggregate_from ([], None) rows) as [a b]. simpl in *. now subst.
Qed.

Lemma aggregate_app pre post :
  aggregate (pre ++ post) = fst (aggregate_from (aggregate pre, last_seen pre) post).
Proof.
  unfold aggregate at 1. unfold aggregate_from. rewrite List.fold_left_app.
  fold (aggregate_from ([], None) pre). now rewrite aggregate_state.
Qed.

Lemma seen_has_rows pre k : last_seen pre = Some k -> rows_of k pre <> [].
Proof.
  induction pre as [|x pre IH] using rev_ind; [discriminate|].
  rewrite last_seen_owner, rows_of_snoc. unfold owned_by.
  destruct (owner pre x) as [k0|] eqn:O.
  - intros [= ->]. rewrite String.eqb_refl. now destruct (rows_of k pre).
  - intros H. specialize (IH H). rewrite app_nil_r. exact IH.
Qed.

Lemma seen_has_invoice pre k :
  last_seen pre = Some k -> exists inv, map_get (aggregate pre) k = Some inv.
Proof.
  intros H. apply seen_has_rows in H.
  destruct (aggregate_invariant pre) as [_ I]. fold (aggregate pre) in I.
  rewrite I. destruct (rows_of k pre); [contradiction|]. simpl. eauto.
Qed.

Lemma invoice_of_none k rs : invoice_of k rs = None <-> rs = [].
Proof. destruct rs; simpl; split; intros H; congruence. Qed.

(** C6: the line items of every invoice are those of the rows that belong
    to it, where a row whose invoice-number cell is blank belongs to the
    last non-blank canonical invoice number seen so far and to no invoice
    when none has been seen; such a row is aggregated into that invoice,
    or, with nothing to inherit, dropped without a trace; and a row [INV1]
    followed by a blank-numbered row yields the single invoice [INV1] with
    both line items. *)
Theorem blank_rows_inherit :
  (forall rows k inv,
     map_get (aggregate rows) k = Some inv ->
     Invoice.items inv = List.map line_item (rows_of k rows)) /\
  (forall rows k, map_get (aggregate rows) k = None <-> rows_of k rows = []) /\
  (forall pre r k,
     is_empty (invNoRaw r) = true -> last_seen pre = Some k ->
     exists inv,
       map_get (aggregate pre) k = Some inv /\
       aggregate (pre ++ [r])
       = map_set (aggregate pre) k (push_item (fill_invoice inv r) (line_item r))) /\
  (forall pre r post,
     is_empty (invNoRaw r) = true -> last_seen pre = None ->
     aggregate (pre ++ r :: post) = aggregate (pre ++ post)) /\
  List.map (fun e => (fst e, Invoice.items (snd e))) (aggregate [row_inv1; row_blank])
  = [("INV1"%string, [line_item row_inv1; line_item row_blank])].
Proof.
  split; [|split; [|split; [|split]]].
  - intros rows k inv H. destruct (aggregate_invariant rows) as [_ I].
    unfold aggregate in H. rewrite I in H. now apply (items_invoice_of k).
  - intros rows k. destruct (aggregate_invariant rows) as [_ I].
    unfold aggregate. rewrite I. apply invoice_of_none.
  - intros pre r k Hb L.
    assert (O : owner pre r = Some k) by (unfold owner; now rewrite Hb).
    destruct (seen_has_invoice pre k L) as [inv Hinv].
    exists inv. split; [exact Hinv|].
    rewrite aggregate_app. unfold aggregate_from. cbn [List.fold_left].
    rewrite agg_step_owner, O, Hinv. reflexivity.
  - intros pre r post Hb L.
    assert (O : owner pre r = None) by (unfold owner; now rewrite Hb).
    rewrite !aggregate_app. unfold aggregate_from. cbn [List.fold_left].
    now rewrite (agg_step_dropped _ _ _ O).
  - reflexivity.
Qed.

(** The theorem for the blank-numbered row after the row of [INV1]. *)
Lemma blank_rows_inherit_witness :
  exists inv,
    map_get (aggregate [row_inv1]) "INV1" = Some inv /\
    aggregate ([row_inv1] ++ [row_blank])
    = map_set (aggregate [row_inv1]) "INV1"
        (push_item (fill_invoice inv row_blank) (line_item row_blank)).
Proof.
  apply (proj1 (proj2 (proj2 blank_rows_inherit)) [row_inv1] row_blank "INV1");
    reflexivity.
Defined.

Example blank_row_first_is_dropped :
  aggregate [row_blank; row_inv1] = aggregate [row_inv1].
Proof. reflexivity. Qed.

(** C7: for every invoice built by the aggregator and each of its monetary
    fields, the final value is the first non-zero value supplied by a row
    of that invoice, in row order, and is zero if no row supplies one; and
    once a field holds a non-zero value no later row changes it. *)
Theorem first_nonzero_wins (rows : list row) (k : string) (inv : Invoice.t)
    (f : money) :
  map_get (aggregate rows) k = Some inv ->
  (match List.find truthy_number (List.map (candidate f) (rows_of k rows)) with
   | Some v => field f inv = v
   | None => strict_eq (field f inv) pos_zero = true
   end) /\
  forall st r inv0,
    map_get (fst st) k = Some inv0 -> truthy_number (field f inv0) = true ->
    exists inv1,
      map_get (fst (agg_step st r)) k = Some inv1 /\ field f inv1 = field f inv0.
Proof.
  intros H. split.
  - destruct (aggregate_invariant rows) as [_ I].
    unfold aggregate in H. rewrite I in H. now apply (field_invoice_of f k).
  - intros st r inv0. apply agg_step_keeps.
Qed.

(** The theorem for [amountRealised] of [INV1]: the first row supplies
    nothing, the second 5200. *)
Lemma first_nonzero_wins_witness :
  exists inv,
    map_get (aggregate [row_inv1; row_blank]) "INV1" = Some inv /\
    field AmountRealised inv = of_Z 5200.
Proof.
  eexists. split; [reflexivity|].
  exact (proj1 (first_nonzero_wins [row_inv1; row_blank] "INV1" _ AmountRealised eq_refl)).
Defined.

(** ** The loop over the blocks *)

Lemma has_block_false (m : list (string * list row)) (k : string) :
  has_block m k = false -> ~ In k (block_names m).
Proof.
  induction m as [|[k' rs] m IH]; simpl; [tauto|].
  intros H. apply orb_false_iff in H. destruct H as [H1 H2].
  intros [E|E]; [subst; now rewrite String.eqb_refl in H1 | now apply IH].
Qed.

Lemma block_names_push_row (m : list (string * list row)) (k : string) (r : row) :
  block_names (push_row m k r) = block_names m.
Proof.
  induction m as [|[k' rs] m IH]; simpl; [reflexivity|].
  destruct (String.eqb k' k); simpl; [reflexivity | now rewrite IH].
Qed.

Lemma ends_upper (s : string) :
  ends_with is_space (toUpperCase s) = ends_with is_space s.
Proof.
  induction s as [|c s IH]; simpl; [reflexivity|].
  destruct s as [|d s']; simpl in *; [apply upper_char_space | exact IH].
Qed.

Lemma canonical_upper_trim (p : string) : canonical_name (toUpperCase (trim p)).
Proof.
  unfold canonical_name. rewrite trim_fix.
  - apply toUpperCase_idem.
  - rewrite starts_upper. apply starts_trim.
  - rewrite ends_upper. apply ends_trim.
Qed.

Lemma namePart_trimmed (c : string) :
  namePart c = EmptyString \/ exists p, namePart c = trim p.
Proof.
  unfold namePart. destruct (split ":" c) as [|a [|p l]]; auto.
  destruct (is_empty p); eauto.
Qed.

(** A block is opened once, under an upper-cased and trimmed name. *)
Lemma seg_step_names (st : seg_state) (r : list value) :
  good_names (rowsBySalesperson st) ->
  good_names (rowsBySalesperson (seg_step st r)).
Proof.
  intros G. unfold seg_step.
  destruct (second_has_total r); [exact G|].
  destruct (negb (isSome (globalHeader st)) && is_date_row r); [exact G|].
  destruct (test_label_ci "Salesperson" (firstCell r)).
  - destruct (is_empty (namePart (firstCell r))) eqn:E; [exact G|]. simpl.
    destruct (has_block _ _) eqn:B; [exact G|].
    destruct G as [G1 G2]. unfold good_names, block_names.
    rewrite List.map_app. simpl. split.
    + apply NoDup_app. split; [exact G1|]. split.
      * intros x Hx Hin. apply list_elem_of_In in Hx. apply list_elem_of_In in Hin.
        simpl in Hin. destruct Hin as [<-|[]].
        now apply (has_block_false _ _ B).
      * apply NoDup_singleton.
    + apply Forall_app. split; [exact G2|]. constructor; [|constructor].
      destruct (namePart_trimmed (firstCell r)) as [H|[p H]]; rewrite H in *;
        [discriminate | apply canonical_upper_trim].
  - destruct (currentSalesperson st) as [cur|]; [|exact G].
    destruct (globalHeader st); [|exact G].
    destruct (is_empty cur); [exact G|].
    destruct (is_meta_row r); [exact G|]. simpl.
    unfold good_names. now rewrite block_names_push_row.
Qed.

Lemma segment_names (rows : sheet) : good_names (rowsBySalesperson (segment rows)).
Proof.
  unfold segment.
  assert (H : forall st, good_names (rowsBySalesperson st) ->
                         good_names (rowsBySalesperson (fold_left seg_step rows st))).
  { induction rows as [|r rows IH]; intros st G; simpl; [exact G|].
    apply IH. now apply seg_step_names. }
  apply H. split; constructor.
Qed.

(** [Object.keys] lists every property once. *)
Lemma insert_by_index_perm {A : Type} (v : Z) (e : string * A) (l : list (Z * (string * A))) :
  Permutation (List.map snd (insert_by_index v e l)) (e :: List.map snd l).
Proof.
  induction l as [|[v' e'] l IH]; simpl; [reflexivity|].
  destruct (v <=? v'); simpl; [reflexivity|].
  rewrite IH. apply perm_swap.
Qed.

Lemma own_keys_order_perm {A : Type} (m : list (string * A)) :
  Permutation (own_keys_order m) m.
Proof.
  unfold own_keys_order. induction m as [|e m IH]; simpl; [reflexivity|].
  destruct (array_index (fst e)).
  - rewrite insert_by_index_perm. simpl. now constructor.
  - rewrite <- Permutation_middle. now constructor.
Qed.

Lemma own_keys_order_names (m : list (string * list row)) :
  good_names m -> good_names (own_keys_order m).
Proof.
  intros [G1 G2]. pose proof (own_keys_order_perm m) as P.
  assert (P' : Permutation (block_names (own_keys_order m)) (block_names m))
    by (now apply Permutation_map).
  split.
  - apply NoDup_ListNoDup. apply (Permutation_NoDup (Permutation_sym P')).
    now apply NoDup_ListNoDup.
  - apply Forall_forall. intros x Hx. rewrite Forall_forall in G2. apply G2.
    apply list_elem_of_In. apply list_elem_of_In in Hx.
    now apply (Permutation_in _ P').
Qed.

Lemma findSalesperson_name (sps : salespersons) (nm : string) (sp : Salesperson.t) :
  findSalesperson sps nm = Some sp -> In sp sps /\ Salesperson.name sp = nm.
Proof.
  unfold findSalesperson. intros H. apply List.find_some in H.
  destruct H as [H1 H2]. split; [exact H1 | now apply String.eqb_eq].
Qed.

Lemma matches_key_period (id : N) (y m : number) (d : MonthlyAchievement.t) :
  matches_key id y m d = true ->
  MonthlyAchievement.salesperson d = id /\ matches_period y m d = true.
Proof.
  unfold matches_key, matches_period. intros H.
  apply andb_true_iff in H. destruct H as [H H3].
  apply andb_true_iff in H. destruct H as [H1 H2].
  apply N.eqb_eq in H1. now rewrite H2, H3.
Qed.

Lemma period_ok_mono (sps : salespersons) (y m : number) (seen seen' : list string)
    (db : achievements) :
  (forall k, In k seen -> In k seen') ->
  period_ok sps y m seen db -> period_ok sps y m seen' db.
Proof.
  intros S P d Hd Hm. destruct (P d Hd Hm) as [B [sp [S1 [S2 S3]]]].
  split; [exact B|]. exists sp. auto.
Qed.

(** A block whose name was not seen before finds no record of its
    salesperson for the period, so its record is created. *)
Lemma period_ok_step (sps : salespersons) (y m : number) (ret : gset string)
    (seen : list string) (db db' : achievements) (k : string) (rs : list row) :
  ids_identify sps -> canonical_name k -> ~ In k seen ->
  period_ok sps y m seen db ->
  processRowsForSalesperson sps db rs k y m (of_Z 1) ret = Some db' ->
  period_ok sps y m (k :: seen) db'.
Proof.
  intros U C N P R.
  assert (W : period_ok sps y m (k :: seen) db).
  { apply (period_ok_mono _ _ _ seen); [intros; now right | exact P]. }
  unfold processRowsForSalesperson in R. rewrite C in R.
  destruct (findSalesperson sps k) as [sp|] eqn:F; [|now injection R as <-].
  destruct (findSalesperson_name _ _ _ F) as [Hin Hname].
  destruct (reconcile _ _ _) as [o t].
  unfold upsertAchievement in R.
  destruct (negb (is_number y) || negb (is_number m)); [discriminate|].
  destruct (findAchievement db (Salesperson._id sp) y m) as [d0|] eqn:FA.
  - exfalso. unfold findAchievement in FA. apply List.find_some in FA.
    destruct FA as [D1 D2]. apply matches_key_period in D2. destruct D2 as [D2 D3].
    destruct (P d0 D1 D3) as [_ [sp' [S1 [S2 S3]]]].
    apply N. rewrite <- Hname, <- (U sp' sp S1 Hin); [exact S2 | congruence].
  - destruct (validates_achievement _); [|discriminate]. injection R as <-.
    intros d Hd Hm. apply in_app_or in Hd. destruct Hd as [Hd|[<-|[]]].
    + now apply W.
    + split; [reflexivity|]. exists sp. simpl. rewrite Hname. auto.
Qed.

Lemma period_ok_fold (sps : salespersons) (y m : number) (ret : gset string)
    (bs : list (string * list row)) :
  forall (seen : list string) (db : achievements),
  ids_identify sps -> Forall canonical_name (block_names bs) -> NoDup (block_names bs) ->
  (forall k, In k (block_names bs) -> ~ In k seen) ->
  period_ok sps y m seen db ->
  period_ok sps y m (rev (block_names bs) ++ seen)
    (fst (process_blocks sps db bs y m ret)).
Proof.
  induction bs as [|[k rs] bs IH]; intros seen db U C N D P; [exact P|].
  unfold block_names in *. simpl in C, N, D.
  apply Forall_cons in C. destruct C as [C1 C2].
  apply NoDup_cons in N. destruct N as [N1 N2].
  assert (D' : forall k', In k' (List.map fst bs) -> ~ In k' (k :: seen)).
  { intros k' Hk' [E|E];
      [subst; apply N1; now apply list_elem_of_In | now apply (D k'); auto]. }
  assert (W : period_ok sps y m (k :: seen) db).
  { apply (period_ok_mono _ _ _ seen); [intros; now right | exact P]. }
  cbn [List.map fst rev process_blocks]. rewrite <- app_assoc. cbn [app].
  destruct rs as [|r rs]; [now apply IH|].
  destruct (processRowsForSalesperson sps db (r :: rs) k y m (of_Z 1) ret)
    as [db'|] eqn:R.
  - apply IH; auto. apply (period_ok_step _ _ _ _ _ _ _ _ _ U C1 (D k (or_introl eq_refl)) P R).
  - simpl. apply (period_ok_mono _ _ _ (k :: seen)); [|exact W].
    intros k' Hk'. apply in_or_app. now right.
Qed.

Lemma deleteMany_period (db : achievements) (y m : number) (d : MonthlyAchievement.t) :
  In d (deleteMany db y m) -> matches_period y m d = false.
Proof.
  unfold deleteMany. intros H. apply List.filter_In in H. destruct H as [_ H].
  now apply negb_true_iff in H.
Qed.

(** ** Further properties of the engine *)

(** A request without a year or without a month is rejected with
    status 400 and leaves every stored record as it was. *)
Theorem upload_without_period_is_rejected (message : string) (sps : salespersons)
    (db : achievements) (req : upload_request) :
  truthy (body_year req) = false \/ truthy (body_month req) = false ->
  upload_sales message sps db req = (mk_response 400 "year and month are required", db).
Proof. apply upload_missing_period. Qed.

Lemma upload_without_period_is_rejected_witness :
  upload_sales cast_failed [sp_videum] stored_2025 request_without_year
  = (mk_response 400 "year and month are required", stored_2025).
Proof.
  apply (upload_without_period_is_rejected cast_failed [sp_videum] stored_2025
           request_without_year).
  left. reflexivity.
Defined.

(** A block whose salesperson is not in the directory is skipped: the
    stored achievements are unchanged. *)
Theorem unknown_salesperson_is_skipped (sps : salespersons) (db : achievements)
    (rows : list row) (salespersonName : string) (year month factor : number)
    (returnInvoiceSet : gset string) :
  findSalesperson sps (toUpperCase (trim salespersonName)) = None ->
  processRowsForSalesperson sps db rows salespersonName year month factor returnInvoiceSet
  = Some db.
Proof. intros H. unfold processRowsForSalesperson. now rewrite H. Qed.

Lemma unknown_salesperson_is_skipped_witness :
  processRowsForSalesperson [sp_videum] stored_2025 [row_inv1; row_blank] "nobody"
    y2025 january (of_Z 1) ∅
  = Some stored_2025.
Proof.
  apply (unknown_salesperson_is_skipped [sp_videum] stored_2025 [row_inv1; row_blank]
           "nobody" y2025 january (of_Z 1) ∅).
  reflexivity.
Defined.

(** X1: an invoice whose canonical number is in the return list
    contributes nothing to the totals. *)
Theorem returned_invoice_is_skipped (returnInvoiceSet : gset string)
    (ob : option string) (invKey : string) (inv : Invoice.t)
    (pre post : invoice_map) :
  invKey ∈ returnInvoiceSet ->
  reconcile returnInvoiceSet ob (pre ++ (invKey, inv) :: post)
  = reconcile returnInvoiceSet ob (pre ++ post).
Proof.
  intros H. unfold reconcile. rewrite !fold_left_app. simpl.
  f_equal. unfold invoice_step.
  destruct (fold_left _ pre _) as [a b].
  now rewrite (bool_decide_eq_true_2 _ H).
Qed.

Lemma returned_invoice_is_skipped_witness :
  reconcile {[ "INV1" ]} (Some "VIDEUM")
    ([] ++ [("INV1", mismatch_invoice "BAJAJ FINANCE LTD")])
  = reconcile {[ "INV1" ]} (Some "VIDEUM") ([] ++ []).
Proof.
  apply (returned_invoice_is_skipped {[ "INV1" ]} (Some "VIDEUM") "INV1"
           (mismatch_invoice "BAJAJ FINANCE LTD") [] []).
  apply (bool_decide_eq_true_1 _). reflexivity.
Defined.

(** The example of the return list: the cell
    ["GI/16909*  02-11-2025"] of the [Ref. Doc. Info.] column yields the
    entry ["GI/16909"], and a blank cell yields nothing. *)
Theorem return_set_example :
  extractReturnInvoiceSet sheet_returns = {[ "GI/16909" ]}.
Proof. reflexivity. Qed.

(** X2: after an upload that is accepted, every stored record of the
    uploaded period has a total equal to the sum of its two components:
    the period is cleared first and each block then creates the record of
    its salesperson with one merge, so no record of the period is merged
    twice. *)
Theorem accepted_upload_is_balanced (message : string) (sps : salespersons)
    (db db' : achievements) (req : upload_request) (resp : response) :
  ids_identify sps ->
  upload_sales message sps db req = (resp, db') ->
  status resp = 200 ->
  forall d, In d db' ->
    matches_period (ToNumber (body_year req)) (ToNumber (body_month req)) d = true ->
    balanced d.
Proof.
  intros U H S d Hd Hm. unfold upload_sales in H.
  destruct (negb (truthy (body_year req)) || negb (truthy (body_month req)));
    [inversion H; subst; discriminate|].
  destruct (negb (is_number (ToNumber (body_year req)))
            || negb (is_number (ToNumber (body_month req))));
    [inversion H; subst; discriminate|].
  destruct (salesUploaded req) as [sales|]; [|inversion H; subst; discriminate].
  unfold processExcelFileMulti in H.
  destruct (own_keys_order_names _ (segment_names sales)) as [G1 G2].
  pose proof (period_ok_fold sps (ToNumber (body_year req)) (ToNumber (body_month req))
                match returnsFile req with
                | Some returns => extractReturnInvoiceSet returns
                | None => ∅
                end _ []
                (deleteMany db (ToNumber (body_year req)) (ToNumber (body_month req)))
                U G2 G1) as P.
  destruct (process_blocks _ _ _ _ _ _) as [db2 completed].
  destruct completed; inversion H; subst; [|discriminate].
  refine (proj1 (P _ _ d Hd Hm)).
  - intros k _ [].
  - intros d0 H0 M0. apply deleteMany_period in H0. congruence.
Qed.

Lemma accepted_upload_is_balanced_witness :
  balanced (MonthlyAchievement.mk 2 y2025 january pos_zero (of_Z 5000) (of_Z 5000)).
Proof.
  apply (accepted_upload_is_balanced cast_failed [sp_videum] stored_2025
           (snd (upload_sales cast_failed [sp_videum] stored_2025 request_with_sales_file))
           request_with_sales_file
           (fst (upload_sales cast_failed [sp_videum] stored_2025 request_with_sales_file))).
  - intros a b [<-|[]] [<-|[]] _. reflexivity.
  - reflexivity.
  - reflexivity.
  - vm_compute. right. left. reflexivity.
  - reflexivity.
Defined.

(** * Properties of the routes and of the upload as a whole *)

(** ** The sample directory *)

Lemma next_id_fresh : fresh_ids next_id.
Proof.
  intros sps H. unfold next_id in H.
  assert (B : forall l x, In x l -> (x <= List.fold_right N.max 0 l)%N).
  { induction l as [|a l IH]; simpl; [tauto|]. intros x [->|Hx]; [lia|].
    specialize (IH x Hx). lia. }
  specialize (B _ _ H). lia.
Qed.

Lemma directory_sample_ok : directory_ok directory_sample.
Proof.
  split; [|split].
  - repeat constructor; simpl; intuition discriminate.
  - repeat constructor; simpl; intuition discriminate.
  - intros sp [<-|[<-|[]]]; repeat split; reflexivity.
Qed.

(** ** An upload replaces the period *)

Lemma matches_key_outside id y m d :
  matches_period y m d = false -> matches_key id y m d = false.
Proof.
  unfold matches_key, matches_period. intros H.
  destruct (N.eqb _ _); [|reflexivity]. simpl.
  destruct (strict_eq (MonthlyAchievement.year d) y); [|reflexivity].
  simpl in *. exact H.
Qed.

Lemma find_app_outside {A} (p : A -> bool) pre l :
  (forall d, In d pre -> p d = false) -> List.find p (pre ++ l) = List.find p l.
Proof.
  induction pre as [|x pre IH]; intros H; simpl; [reflexivity|].
  rewrite (H x (or_introl eq_refl)). apply IH. intros d Hd. apply H. now right.
Qed.

Lemma save_first_app_outside {A} (p : A -> bool) f pre l :
  (forall d, In d pre -> p d = false) -> save_first p f (pre ++ l) = pre ++ save_first p f l.
Proof.
  induction pre as [|x pre IH]; intros H; simpl; [reflexivity|].
  rewrite (H x (or_introl eq_refl)). f_equal. apply IH. intros d Hd. apply H. now right.
Qed.

(** Records of other periods in front of the collection stay in front,
    and do not change what a call does. *)
Lemma upsert_app_outside pre l id y m a b :
  outside_period y m pre ->
  upsertAchievement (pre ++ l) id y m a b
  = option_map (app pre) (upsertAchievement l id y m a b).
Proof.
  intros H.
  assert (K : forall d, In d pre -> matches_key id y m d = false).
  { intros d Hd. apply matches_key_outside. now apply H. }
  unfold upsertAchievement, findAchievement.
  destruct (negb (is_number y) || negb (is_number m)); [reflexivity|].
  rewrite (find_app_outside _ _ _ K).
  destruct (List.find _ l).
  - destruct (validates_achievement _); [|reflexivity]. simpl.
    now rewrite save_first_app_outside.
  - destruct (validates_achievement _); [|reflexivity]. simpl.
    now rewrite app_assoc.
Qed.

Lemma rows_app_outside sps y m f ret pre l rs k :
  outside_period y m pre ->
  processRowsForSalesperson sps (pre ++ l) rs k y m f ret
  = option_map (app pre) (processRowsForSalesperson sps l rs k y m f ret).
Proof.
  intros H. unfold processRowsForSalesperson.
  destruct (findSalesperson _ _); [|reflexivity].
  destruct (reconcile _ _ _). now apply upsert_app_outside.
Qed.

Lemma blocks_app_outside sps y m ret pre bs : forall l,
  outside_period y m pre ->
  process_blocks sps (pre ++ l) bs y m ret
  = (pre ++ fst (process_blocks sps l bs y m ret),
     snd (process_blocks sps l bs y m ret)).
Proof.
  induction bs as [|[k rs] bs IH]; intros l H; [reflexivity|].
  cbn [process_blocks]. destruct rs as [|r rs]; [now apply IH|].
  rewrite rows_app_outside by exact H.
  destruct (processRowsForSalesperson sps l (r :: rs) k y m (of_Z 1) ret) as [l'|];
    simpl; [now apply IH | reflexivity].
Qed.

Lemma processExcelFileMulti_outside sps pre rows y m ret :
  outside_period y m pre ->
  processExcelFileMulti sps pre rows y m ret
  = (pre ++ fst (processExcelFileMulti sps [] rows y m ret),
     snd (processExcelFileMulti sps [] rows y m ret)).
Proof.
  intros H. unfold processExcelFileMulti.
  rewrite <- (blocks_app_outside _ _ _ _ _ _ [] H). now rewrite app_nil_r.
Qed.

Lemma deleteMany_outside db y m : outside_period y m (deleteMany db y m).
Proof. intros d. apply deleteMany_period. Qed.

Lemma in_save_first {A} (p : A -> bool) f l x :
  In x (save_first p f l) -> In x l \/ exists x0, In x0 l /\ p x0 = true /\ x = f x0.
Proof.
  induction l as [|a l IH]; simpl; [tauto|].
  destruct (p a) eqn:E; simpl.
  - intros [<-|H]; [right; exists a; auto | left; auto].
  - intros [<-|H]; [left; auto|].
    destruct (IH H) as [H1|[x0 [H1 [H2 H3]]]]; [left; auto | right; exists x0; auto].
Qed.

(** The records a pass writes are of the period. *)
Lemma upsert_inside l l' id y m a b :
  inside_period y m l -> upsertAchievement l id y m a b = Some l' ->
  inside_period y m l'.
Proof.
  intros H U d Hd. unfold upsertAchievement in U.
  destruct (negb (is_number y) || negb (is_number m)) eqn:N; [discriminate|].
  apply orb_false_iff in N. destruct N as [Ny Nm].
  apply negb_false_iff in Ny, Nm. unfold is_number in Ny, Nm.
  apply negb_true_iff in Ny, Nm.
  destruct (findAchievement l id y m).
  - destruct (validates_achievement _); [|discriminate]. injection U as <-.
    apply in_save_first in Hd. destruct Hd as [Hd|[x0 [H1 [H2 ->]]]]; [now apply H|].
    apply matches_key_period in H2. apply H2.
  - destruct (validates_achievement _); [|discriminate]. injection U as <-.
    apply in_app_or in Hd. destruct Hd as [Hd|[<-|[]]]; [now apply H|].
    unfold matches_period. simpl. now rewrite !strict_eq_refl.
Qed.

Lemma blocks_inside sps y m ret bs : forall l,
  inside_period y m l -> inside_period y m (fst (process_blocks sps l bs y m ret)).
Proof.
  induction bs as [|[k rs] bs IH]; intros l H; [exact H|].
  cbn [process_blocks]. destruct rs as [|r rs]; [now apply IH|].
  destruct (processRowsForSalesperson sps l (r :: rs) k y m (of_Z 1) ret) as [l'|] eqn:R;
    [|exact H].
  apply IH. unfold processRowsForSalesperson in R.
  destruct (findSalesperson _ _); [|now injection R as <-].
  destruct (reconcile _ _ _). now apply (upsert_inside _ _ _ _ _ _ _ H R).
Qed.



Lemma deleteMany_app_inside pre l y m :
  outside_period y m pre -> inside_period y m l -> deleteMany (pre ++ l) y m = pre.
Proof.
  intros H1 H2. unfold deleteMany. rewrite List.filter_app.
  assert (E1 : List.filter (fun d => negb (matches_period y m d)) pre = pre).
  { clear H2. induction pre as [|x pre IH]; simpl; [reflexivity|].
    rewrite (H1 x (or_introl eq_refl)). simpl. f_equal. apply IH.
    intros d Hd. apply H1. now right. }
  assert (E2 : List.filter (fun d => negb (matches_period y m d)) l = []).
  { clear H1. induction l as [|x l IH]; simpl; [reflexivity|].
    rewrite (H2 x (or_introl eq_refl)). simpl. apply IH.
    intros d Hd. apply H2. now right. }
  now rewrite E1, E2, app_nil_r.
Qed.

Lemma deleteMany_idem db y m : deleteMany (deleteMany db y m) y m = deleteMany db y m.
Proof.
  rewrite <- (app_nil_r (deleteMany db y m)) at 1.
  apply deleteMany_app_inside; [apply deleteMany_outside | intros d []].
Qed.



(** X4: sending the same request a second time changes nothing: the
    answer and the stored records are those of the first time, whatever
    the request and whether it is accepted, refused or fails. *)
Theorem upload_twice_is_upload_once (message : string) (sps : salespersons)
    (db : achievements) (req : upload_request) :
  upload_sales message sps (snd (upload_sales message sps db req)) req
  = upload_sales message sps db req.
Proof.
  unfold upload_sales.
  destruct (negb (truthy (body_year req)) || negb (truthy (body_month req)));
    [reflexivity|].
  set (y := ToNumber (body_year req)). set (m := ToNumber (body_month req)).
  destruct (negb (is_number y) || negb (is_number m)); [reflexivity|].
  destruct (salesUploaded req) as [sales|] eqn:S.
  - fold (returns_of req).
    rewrite (processExcelFileMulti_outside sps (deleteMany db y m))
      by apply deleteMany_outside.
    assert (D : deleteMany
                  (deleteMany db y m
                   ++ fst (processExcelFileMulti sps [] sales y m (returns_of req))) y m
                = deleteMany db y m).
    { apply deleteMany_app_inside; [apply deleteMany_outside|].
      unfold processExcelFileMulti. apply blocks_inside. intros d []. }
    destruct (snd (processExcelFileMulti sps [] sales y m (returns_of req))) eqn:C;
      cbn [snd]; rewrite D;
      rewrite (processExcelFileMulti_outside sps (deleteMany db y m))
        by apply deleteMany_outside;
      now rewrite C.
  - cbn [snd]. now rewrite deleteMany_idem.
Qed.

(** ** The keys of the achievements *)

Lemma strict_eq_sym x y : strict_eq x y = strict_eq y x.
Proof.
  unfold strict_eq, SFeqb.
  destruct x as [sx|sx| |sx mx ex], y as [sy|sy| |sy my ey]; simpl; try reflexivity;
    try (destruct sx; reflexivity); try (destruct sy; reflexivity);
    try (destruct sx, sy; reflexivity).
  change (Pos.compare_cont Eq mx my) with (mx ?= my)%positive.
  change (Pos.compare_cont Eq my mx) with (my ?= mx)%positive.
  rewrite (Z.compare_antisym ex ey), (Pos.compare_antisym mx my).
  destruct sx, sy; try reflexivity;
    destruct (ex ?= ey)%Z; simpl; try reflexivity;
    destruct (mx ?= my)%positive; reflexivity.
Qed.

Lemma same_key_created id y m a b d :
  same_key d (MonthlyAchievement.mk id y m a b (add a b)) = matches_key id y m d.
Proof.
  unfold same_key, matches_key. simpl.
  rewrite (N.eqb_sym id), (strict_eq_sym y), (strict_eq_sym m). reflexivity.
Qed.

Lemma keys_unique_snoc db x :
  keys_unique (db ++ [x])
  = keys_unique db && List.forallb (fun a => negb (same_key a x)) db.
Proof.
  induction db as [|a db IH]; simpl; [reflexivity|].
  rewrite List.forallb_app, IH. simpl.
  destruct (List.forallb (fun b => negb (same_key a b)) db),
           (negb (same_key a x)), (keys_unique db); simpl; try reflexivity;
    now rewrite ?andb_false_r.
Qed.

Section SameKey.
Variables (p : MonthlyAchievement.t -> bool) (f : MonthlyAchievement.t -> MonthlyAchievement.t).
Hypothesis key_left : forall x b, same_key (f x) b = same_key x b.
Hypothesis key_right : forall a x, same_key a (f x) = same_key a x.

Lemma forallb_save_first a l :
  List.forallb (fun b => negb (same_key a b)) (save_first p f l)
  = List.forallb (fun b => negb (same_key a b)) l.
Proof.
  induction l as [|x l IH]; simpl; [reflexivity|].
  destruct (p x); simpl; [now rewrite key_right | now rewrite IH].
Qed.

Lemma keys_unique_save_first l : keys_unique (save_first p f l) = keys_unique l.
Proof.
  induction l as [|x l IH]; simpl; [reflexivity|].
  destruct (p x); simpl.
  - f_equal. clear IH. induction l as [|b l IH]; simpl; [reflexivity|].
    now rewrite key_left, IH.
  - now rewrite forallb_save_first, IH.
Qed.
End SameKey.

(** X5: [upsertAchievement] never gives a key a second record: a
    collection in which no two records share salesperson, year and month
    is still one after the call, whether the call returns or throws. *)
Theorem upsertAchievement_keeps_keys_unique (db : achievements) (id : N)
    (y m dOwn dOther : number) :
  keys_unique db = true ->
  keys_unique (after db (upsertAchievement db id y m dOwn dOther)) = true.
Proof.
  intros U. unfold upsertAchievement.
  destruct (negb (is_number y) || negb (is_number m)); [exact U|].
  destruct (findAchievement db id y m) eqn:F.
  - destruct (validates_achievement _); [|exact U]. cbn [after].
    rewrite keys_unique_save_first; [exact U | reflexivity | reflexivity].
  - destruct (validates_achievement _); [|exact U]. cbn [after].
    rewrite keys_unique_snoc, U. simpl.
    apply List.forallb_forall. intros d Hd.
    rewrite same_key_created.
    unfold findAchievement in F.
    now rewrite (List.find_none _ _ F d Hd).
Qed.

(** The theorem for a merge into the January record of the sample. *)
Lemma upsertAchievement_keeps_keys_unique_witness :
  keys_unique
    (after stored_2025
       (upsertAchievement stored_2025 7 y2025 january (of_Z 10) (of_Z 20))) = true.
Proof.
  apply (upsertAchievement_keeps_keys_unique stored_2025 7 y2025 january (of_Z 10) (of_Z 20)).
  reflexivity.
Defined.

Lemma filter_save_first {A} (p q : A -> bool) f l :
  (forall x, p x = true -> q x = false /\ q (f x) = false) ->
  List.filter q (save_first p f l) = List.filter q l.
Proof.
  intros H. induction l as [|x l IH]; simpl; [reflexivity|].
  destruct (p x) eqn:E; simpl.
  - destruct (H x E) as [-> ->]. reflexivity.
  - now rewrite IH.
Qed.

(** X6: [upsertAchievement] leaves the records of every other key as they
    were, in their order, whether the call returns or throws. *)
Theorem upsertAchievement_leaves_other_keys (db : achievements) (id : N)
    (y m dOwn dOther : number) :
  List.filter (fun d => negb (matches_key id y m d))
    (after db (upsertAchievement db id y m dOwn dOther))
  = List.filter (fun d => negb (matches_key id y m d)) db.
Proof.
  unfold upsertAchievement.
  destruct (negb (is_number y) || negb (is_number m)) eqn:N; [reflexivity|].
  apply orb_false_iff in N. destruct N as [Hy Hm].
  apply negb_false_iff in Hy, Hm. unfold is_number in Hy, Hm.
  apply negb_true_iff in Hy, Hm.
  destruct (findAchievement db id y m).
  - destruct (validates_achievement _); [|reflexivity]. cbn [after].
    apply filter_save_first. intros x Hx. split.
    + now rewrite Hx.
    + unfold matches_key in *. simpl. now rewrite Hx.
  - destruct (validates_achievement _); [|reflexivity]. cbn [after].
    rewrite List.filter_app. simpl.
    pose proof (matches_created id y m dOwn dOther Hy Hm) as K. unfold created in K.
    rewrite K. simpl. apply app_nil_r.
Qed.

(** ** What the totals depend on *)

(** X7: the amounts held at the level of the invoice (invoice value,
    credit card charges, the two round-offs and the cash discount) have no
    effect on the totals: replacing them by any others in every invoice
    yields the same [totalOwn] and [totalOther]. *)
Theorem invoice_amounts_do_not_count (returnInvoiceSet : gset string)
    (ob : option string) (amounts : Invoice.t -> number * number * number * number * number)
    (invoices : invoice_map) :
  reconcile returnInvoiceSet ob
    (List.map (fun e : string * Invoice.t =>
                 let '(v, c, n, p, d) := amounts (snd e) in
                 (fst e, with_amounts (snd e) v c n p d)) invoices)
  = reconcile returnInvoiceSet ob invoices.
Proof.
  unfold reconcile. generalize (pos_zero, pos_zero).
  induction invoices as [|[k inv] invoices IH]; intros totals; simpl; [reflexivity|].
  destruct (amounts inv) as [[[[v c] n] p] d]. simpl.
  rewrite IH. f_equal.
Qed.

(** X8: a block whose salesperson is in the directory leaves, whenever
    the call returns, a record for that salesperson and the period,
    whatever its rows, and the three totals of that record are numbers;
    the call throws exactly when the year or the month is [NaN], or one of
    the three totals it would store is [NaN]. *)
Theorem known_salesperson_gets_record (sps : salespersons) (db : achievements)
    (rows : list row) (salespersonName : string) (year month factor : number)
    (returnInvoiceSet : gset string) (sp : Salesperson.t) :
  findSalesperson sps (toUpperCase (trim salespersonName)) = Some sp ->
  (forall db',
     processRowsForSalesperson sps db rows salespersonName year month factor
       returnInvoiceSet = Some db' ->
     exists r,
       findAchievement db' (Salesperson._id sp) year month = Some r /\
       validates_achievement r = true) /\
  (processRowsForSalesperson sps db rows salespersonName year month factor
     returnInvoiceSet = None <->
   isNaN year = true \/ isNaN month = true \/
   let totals := reconcile returnInvoiceSet (ownBrand sp) (aggregate rows) in
   validates_achievement
     match findAchievement db (Salesperson._id sp) year month with
     | Some existing => merged existing (mul factor (fst totals)) (mul factor (snd totals))
     | None =>
         created (Salesperson._id sp) year month
           (mul factor (fst totals)) (mul factor (snd totals))
     end = false).
Proof.
  intros F. unfold processRowsForSalesperson. rewrite F.
  destruct (reconcile _ _ _) as [o t]. cbn [fst snd].
  set (id := Salesperson._id sp). set (a := mul factor o). set (b := mul factor t).
  destruct (isNaN year) eqn:Ny.
  { rewrite upsert_nan by auto. split; [discriminate | split; auto]. }
  destruct (isNaN month) eqn:Nm.
  { rewrite upsert_nan by auto. split; [discriminate | split; auto]. }
  destruct (findAchievement db id year month) as [r|] eqn:E.
  - rewrite (upsert_existing_eq _ _ _ _ a b _ E).
    destruct (validates_achievement (merged r a b)) eqn:V; split.
    + intros db' [= <-]. exists (merged r a b). split; [|exact V].
      apply (upsert_existing db id year month a b r); [exact E|].
      rewrite (upsert_existing_eq _ _ _ _ a b _ E). now rewrite V.
    + split; [discriminate | intros [K|[K|K]]; discriminate].
    + discriminate.
    + split; auto.
  - rewrite (upsert_fresh_eq _ _ _ _ a b E Ny Nm).
    destruct (validates_achievement (created id year month a b)) eqn:V; split.
    + intros db' [= <-]. exists (created id year month a b). split; [|exact V].
      apply (upsert_fresh_found db id year month a b); [exact Ny | exact Nm | exact E |].
      rewrite (upsert_fresh_eq _ _ _ _ a b E Ny Nm). now rewrite V.
    + split; [discriminate | intros [K|[K|K]]; discriminate].
    + discriminate.
    + split; auto.
Qed.

(** The theorem for the block of RAVI. *)
Lemma known_salesperson_gets_record_witness :
  exists db' r,
    processRowsForSalesperson [sp_videum] stored_2025 [row_inv1; row_blank] " ravi "
      y2025 january (of_Z 1) ∅ = Some db' /\
    findAchievement db' 2 y2025 january = Some r /\
    validates_achievement r = true.
Proof.
  destruct (processRowsForSalesperson [sp_videum] stored_2025 [row_inv1; row_blank]
              " ravi " y2025 january (of_Z 1) ∅) as [db'|] eqn:E;
    [|vm_compute in E; discriminate E].
  destruct (proj1 (known_salesperson_gets_record [sp_videum] stored_2025
                     [row_inv1; row_blank] " ravi " y2025 january (of_Z 1) ∅
                     sp_videum eq_refl) db' E) as [r H].
  exists db', r. split; [reflexivity | exact H].
Defined.

(** ** The return list *)

Lemma return_set_fold col body : forall acc k,
  k ∈ List.fold_left
        (fun (returnSet : gset string) rowArr =>
           let raw := trim (ToString (at_index rowArr col <||> VString "")) in
           if is_empty raw then returnSet
           else
             let norm := normalizeInvoiceNo (VString (first_token raw)) in
             if is_empty norm then returnSet else {[ norm ]} ∪ returnSet)
        body acc
  <-> k ∈ acc \/ exists r, In r body /\ return_entry col r = Some k.
Proof.
  induction body as [|r body IH]; intros acc k; simpl.
  - split; [auto | intros [H|[r [[] _]]]; exact H].
  - rewrite IH. unfold return_entry at 2.
    destruct (is_empty (trim (ToString (at_index r col <||> VString "")))) eqn:E1.
    + split.
      * intros [H|[r' [H1 H2]]]; [auto | right; exists r'; auto].
      * intros [H|[r' [[<-|H1] H2]]]; [auto| |right; exists r'; auto].
        unfold return_entry in H2. rewrite E1 in H2. discriminate.
    + destruct (is_empty (normalizeInvoiceNo _)) eqn:E2.
      * split.
        -- intros [H|[r' [H1 H2]]]; [auto | right; exists r'; auto].
        -- intros [H|[r' [[<-|H1] H2]]]; [auto| |right; exists r'; auto].
           unfold return_entry in H2. rewrite E1, E2 in H2. discriminate.
      * split.
        -- intros [H|[r' [H1 H2]]]; [|right; exists r'; auto].
           apply elem_of_union in H. destruct H as [H|H]; [|auto].
           apply elem_of_singleton in H. subst k. right. exists r. split; [auto|].
           unfold return_entry. now rewrite E1, E2.
        -- intros [H|[r' [[<-|H1] H2]]].
           ++ left. apply elem_of_union. auto.
           ++ left. apply elem_of_union. left. apply elem_of_singleton.
              unfold return_entry in H2. rewrite E1, E2 in H2. congruence.
           ++ right. exists r'. auto.
Qed.

(** X9: the return list holds exactly the entries of the rows below the
    header row: the header row adds none, and neither the order of the
    rows nor their repetition matters. *)
Theorem return_set_membership (headerRow : list value) (body : sheet) (k : string) :
  k ∈ extractReturnInvoiceSet (headerRow :: body)
  <-> exists r, In r body /\ return_entry (ref_column headerRow) r = Some k.
Proof.
  unfold extractReturnInvoiceSet. fold (ref_column headerRow).
  rewrite return_set_fold. split; [|auto].
  intros [H|H]; [|exact H]. now apply not_elem_of_empty in H.
Qed.

(* shape of an entry *)
Lemma any_takeWhile s :
  any_char is_space (takeWhile (fun c => negb (is_space c)) s) = false.
Proof.
  induction s as [|c s IH]; simpl; [reflexivity|].
  destruct (is_space c) eqn:E; simpl; [reflexivity|]. now rewrite E.
Qed.

Lemma any_starts s : any_char is_space s = false -> starts_with_space s = false.
Proof. destruct s as [|c s]; simpl; [reflexivity|]. now intros H%orb_false_iff. Qed.

Lemma any_ends p s : any_char p s = false -> ends_with p s = false.
Proof.
  induction s as [|c s IH]; simpl; [reflexivity|].
  intros H. apply orb_false_iff in H. destruct H as [H1 H2].
  destruct s; [exact H1 | now apply IH].
Qed.

Lemma any_upper s : any_char is_space (toUpperCase s) = any_char is_space s.
Proof.
  induction s as [|c s IH]; simpl; [reflexivity|].
  now rewrite upper_char_space, IH.
Qed.

Lemma any_dropWhileEnd p q s : any_char p s = false -> any_char p (dropWhileEnd q s) = false.
Proof.
  induction s as [|c s IH]; simpl; [reflexivity|].
  intros H. apply orb_false_iff in H. destruct H as [H1 H2]. specialize (IH H2).
  destruct (dropWhileEnd q s); [destruct (q c)|]; simpl in *; rewrite ?H1; auto.
Qed.

Lemma return_entry_shape col r k :
  return_entry col r = Some k ->
  is_empty k = false /\ any_char is_space k = false /\ toUpperCase k = k /\
  ends_with (Ascii.eqb "*") k = false.
Proof.
  unfold return_entry.
  destruct (is_empty (trim _)); [discriminate|].
  set (tok := first_token _).
  destruct (is_empty (normalizeInvoiceNo (VString tok))) eqn:E; [discriminate|].
  intros H. injection H as <-. split; [exact E|].
  assert (T : any_char is_space tok = false) by apply any_takeWhile.
  rewrite normalize_string in *.
  rewrite (trim_fix tok (any_starts _ T) (any_ends _ _ T)).
  split; [|split].
  - apply any_dropWhileEnd. now rewrite any_upper.
  - apply dropWhileEnd_upper, toUpperCase_idem.
  - apply ends_with_dropWhileEnd.
Qed.

(** An entry of the return list is the entry of some row. *)
Lemma return_entry_of_member (rows : sheet) (k : string) :
  k ∈ extractReturnInvoiceSet rows -> exists col r, return_entry col r = Some k.
Proof.
  destruct rows as [|h body]; [intros H; now apply not_elem_of_empty in H|].
  unfold extractReturnInvoiceSet. fold (ref_column h). rewrite return_set_fold.
  intros [H|[r [_ H]]]; [now apply not_elem_of_empty in H|]. eauto.
Qed.

(** X10: every entry of the return list is not empty, holds no white
    space, is in upper case and does not end in an asterisk. *)
Theorem return_entries_are_canonical (rows : sheet) (k : string) :
  k ∈ extractReturnInvoiceSet rows ->
  is_empty k = false /\ any_char is_space k = false /\ toUpperCase k = k /\
  ends_with (Ascii.eqb "*") k = false.
Proof.
  intros H. destruct (return_entry_of_member _ _ H) as [col [r E]].
  unfold return_entry in E.
  destruct (is_empty (trim _)); [discriminate|].
  destruct (is_empty (normalizeInvoiceNo _)) eqn:N; [discriminate|].
  injection E as <-. split; [exact N|].
  assert (T : any_char is_space
                (first_token (trim (ToString (at_index r col <||> VString "")))) = false)
    by apply any_takeWhile.
  rewrite normalize_string.
  rewrite (trim_fix _ (any_starts _ T) (any_ends _ _ T)).
  split; [|split].
  - apply any_dropWhileEnd. now rewrite any_upper.
  - apply dropWhileEnd_upper, toUpperCase_idem.
  - apply ends_with_dropWhileEnd.
Qed.

(** The theorem for the entry of the sample returns sheet. *)
Lemma return_entries_are_canonical_witness :
  is_empty "GI/16909" = false /\ any_char is_space "GI/16909" = false /\
  toUpperCase "GI/16909" = "GI/16909" /\ ends_with (Ascii.eqb "*") "GI/16909" = false.
Proof.
  apply (return_entries_are_canonical sheet_returns "GI/16909").
  apply (bool_decide_eq_true_1 _). reflexivity.
Defined.

(** ** The rows and the names of the blocks *)

Lemma in_push_row m k o' name rs :
  In (name, rs) (push_row m k o') ->
  In (name, rs) m \/ exists rs0, In (name, rs0) m /\ rs = rs0 ++ [o'].
Proof.
  induction m as [|[k' rs'] m IH]; simpl; [tauto|].
  destruct (String.eqb k' k).
  - intros [H|H]; [|left; auto]. injection H as <- <-. right. exists rs'. auto.
  - intros [H|H]; [left; auto|].
    destruct (IH H) as [H1|[rs0 [H1 H2]]]; [left; auto | right; exists rs0; auto].
Qed.

Lemma blocks_from_mono h seen seen' blocks :
  (forall r, In r seen -> In r seen') ->
  blocks_from h seen blocks -> blocks_from h seen' blocks.
Proof.
  intros S B name rs o H1 H2.
  destruct (B name rs o H1 H2) as [header [r [E1 [E2 [E3 E4]]]]].
  exists header, r. auto.
Qed.

Lemma seg_step_blocks st r seen :
  blocks_from (globalHeader st) seen (rowsBySalesperson st) ->
  blocks_from (globalHeader (seg_step st r)) (seen ++ [r])
    (rowsBySalesperson (seg_step st r)).
Proof.
  intros B.
  assert (M : forall x, In x seen -> In x (seen ++ [r])) by (intros; apply in_or_app; auto).
  assert (W : forall h', (forall h, globalHeader st = Some h -> h' = Some h) ->
              blocks_from h' (seen ++ [r]) (rowsBySalesperson st)).
  { intros h' Hh name rs o H1 H2.
    destruct (B name rs o H1 H2) as [header [r0 [E1 [E2 [E3 E4]]]]].
    exists header, r0. rewrite (Hh _ E1). auto. }
  unfold seg_step. destruct (second_has_total r) eqn:T; [apply W; auto|].
  destruct (negb (isSome (globalHeader st)) && is_date_row r) eqn:D.
  { simpl. apply W. intros h Hh. rewrite Hh in D. discriminate. }
  destruct (test_label_ci "Salesperson" (firstCell r)) eqn:L.
  - destruct (is_empty (namePart (firstCell r))); simpl; [apply W; auto|].
    destruct (has_block _ _); [apply W; auto|].
    intros name rs o H1 H2. apply in_app_or in H1. destruct H1 as [H1|[H1|[]]].
    + apply (W _ (fun h E => E) name rs o H1 H2).
    + injection H1 as _ <-. destruct H2.
  - destruct (currentSalesperson st) as [cur|]; [|apply W; auto].
    destruct (globalHeader st) as [header|] eqn:G; [|apply W; intros h E; discriminate].
    destruct (is_empty cur); [rewrite G; apply W; auto|].
    destruct (is_meta_row r) eqn:Me; [rewrite G; apply W; auto|]. simpl.
    intros name rs o H1 H2. apply in_push_row in H1.
    destruct H1 as [H1|[rs0 [H1 ->]]].
    + apply (W (Some header) (fun h E => E) name rs o H1 H2).
    + apply in_app_or in H2. destruct H2 as [H2|[<-|[]]].
      * destruct (B name rs0 o H1 H2) as [hd [r0 [E1 [E2 [E3 E4]]]]].
        exists hd, r0. auto.
      * exists header, r. split; [reflexivity|]. split; [apply in_or_app; simpl; auto|].
        split; [|reflexivity]. unfold is_detail_row. now rewrite T, L, Me.
Qed.

Lemma segment_blocks rows : forall st seen,
  blocks_from (globalHeader st) seen (rowsBySalesperson st) ->
  blocks_from (globalHeader (fold_left seg_step rows st)) (seen ++ rows)
    (rowsBySalesperson (fold_left seg_step rows st)).
Proof.
  induction rows as [|r rows IH]; intros st seen B; simpl.
  - now rewrite app_nil_r.
  - replace (seen ++ r :: rows) with ((seen ++ [r]) ++ rows) by now rewrite <- app_assoc.
    apply IH. now apply seg_step_blocks.
Qed.

(** X11: every row of every block is built, with the shared header, from
    a row of the sheet that is not a label line, whose second cell does not
    contain [TOTAL], and that is neither empty nor a total, branch or
    period line. *)
Theorem block_rows_are_detail_rows (rows : sheet) (name : string) (rs : list row)
    (o : row) :
  In (name, rs) (rowsBySalesperson (segment rows)) -> In o rs ->
  exists header r,
    List.find captures_header rows = Some header /\ In r rows /\
    is_detail_row r = true /\ o = rowObj header r.
Proof.
  intros H1 H2.
  assert (B : blocks_from (globalHeader seg_init) [] (rowsBySalesperson seg_init))
    by (intros ? ? ? []).
  destruct (segment_blocks rows seg_init [] B name rs o H1 H2)
    as [header [r [E1 [E2 [E3 E4]]]]].
  exists header, r. rewrite segment_header in E1. simpl in *. auto.
Qed.

(** The theorem for the only row of the block of RAVI. *)
Lemma block_rows_are_detail_rows_witness :
  exists header r,
    List.find captures_header sheet_total_header = Some header /\
    In r sheet_total_header /\ is_detail_row r = true /\
    rowObj [VString "Date"; VString "Invoice No."; VString "Net Amount"]
      [VString "01-01-2025"; VString "INV1"; VNumber (of_Z 5000)]
    = rowObj header r.
Proof.
  apply (block_rows_are_detail_rows sheet_total_header "RAVI"
           [rowObj [VString "Date"; VString "Invoice No."; VString "Net Amount"]
              [VString "01-01-2025"; VString "INV1"; VNumber (of_Z 5000)]]).
  - left. reflexivity.
  - left. reflexivity.
Defined.

(* names of the blocks *)
Lemma seg_step_nonempty st r :
  Forall (fun k => is_empty k = false) (block_names (rowsBySalesperson st)) ->
  Forall (fun k => is_empty k = false) (block_names (rowsBySalesperson (seg_step st r))).
Proof.
  intros G. unfold seg_step.
  destruct (second_has_total r); [exact G|].
  destruct (negb (isSome (globalHeader st)) && is_date_row r); [exact G|].
  destruct (test_label_ci "Salesperson" (firstCell r)).
  - destruct (is_empty (namePart (firstCell r))) eqn:E; [exact G|]. simpl.
    destruct (has_block _ _); [exact G|].
    unfold block_names. rewrite List.map_app. apply Forall_app. split; [exact G|].
    constructor; [|constructor]. simpl.
    destruct (namePart (firstCell r)); [discriminate | reflexivity].
  - destruct (currentSalesperson st) as [cur|]; [|exact G].
    destruct (globalHeader st); [|exact G].
    destruct (is_empty cur); [exact G|].
    destruct (is_meta_row r); [exact G|]. simpl.
    now rewrite block_names_push_row.
Qed.

(** X12: the names of the blocks are pairwise distinct, and each is not
    empty, upper-cased and trimmed: it is the name
    [processRowsForSalesperson] looks up. *)
Theorem block_names_are_canonical (rows : sheet) :
  NoDup (block_names (rowsBySalesperson (segment rows))) /\
  forall k, In k (block_names (rowsBySalesperson (segment rows))) ->
    toUpperCase (trim k) = k /\ is_empty k = false.
Proof.
  destruct (segment_names rows) as [G1 G2]. split; [exact G1|].
  assert (N : forall st,
             Forall (fun k => is_empty k = false) (block_names (rowsBySalesperson st)) ->
             Forall (fun k => is_empty k = false)
               (block_names (rowsBySalesperson (fold_left seg_step rows st)))).
  { clear G1 G2. induction rows as [|r rows IH]; intros st G; simpl; [exact G|].
    apply IH. now apply seg_step_nonempty. }
  specialize (N seg_init (List.Forall_nil _)). fold (segment rows) in N.
  intros k Hk. apply list_elem_of_In in Hk. split.
  - rewrite Forall_forall in G2. now apply G2.
  - rewrite Forall_forall in N. now apply N.
Qed.

(** The theorem for the block of the sample sheet. *)
Lemma block_names_are_canonical_witness :
  toUpperCase (trim "RAVI") = "RAVI" /\ is_empty "RAVI" = false.
Proof.
  apply (proj2 (block_names_are_canonical sheet_total_header) "RAVI").
  left. reflexivity.
Defined.

(** ** upsertSalesperson *)

Lemma upper_or_null_canonical x f : upper_or_null x = Some f -> canonical_field f.
Proof.
  unfold upper_or_null. destruct (truthy x); [|intros [= <-]; exact I].
  destruct x; try discriminate. intros [= <-]. apply canonical_upper_trim.
Qed.

Lemma updated_field_canonical x old f :
  updated_field x old = Some f -> canonical_field old -> canonical_field f.
Proof.
  destruct x; simpl; try (intros H _; now apply (upper_or_null_canonical _ _ H)).
  now intros [= <-].
Qed.

Lemma initial_field_canonical x f : initial_field x = Some f -> canonical_field f.
Proof.
  destruct x; simpl; try apply upper_or_null_canonical. now intros [= <-].
Qed.

Lemma map_save_first {A B : Type} (p : A -> bool) (g : A -> B) (y : A) l x :
  List.find p l = Some x -> g y = g x ->
  List.map g (save_first p (fun _ => y) l) = List.map g l.
Proof.
  induction l as [|a l IH]; simpl; [discriminate|].
  destruct (p a); simpl.
  - intros [= ->] E. now rewrite E.
  - intros H E. now rewrite (IH H E).
Qed.

Section Replace.
Context {A : Type}.
Variables (p : A -> bool) (y : A).

Lemma in_replaced l z : In z (save_first p (fun _ => y) l) -> In z l \/ z = y.
Proof.
  induction l as [|a l IH]; simpl; [tauto|].
  destruct (p a); simpl.
  - intros [<-|H]; auto.
  - intros [<-|H]; [auto|]. destruct (IH H); auto.
Qed.

Lemma find_replaced l x :
  List.find p l = Some x -> p y = true ->
  List.find p (save_first p (fun _ => y) l) = Some y.
Proof.
  induction l as [|a l IH]; simpl; [discriminate|].
  destruct (p a) eqn:E; simpl.
  - intros _ ->. reflexivity.
  - rewrite E. apply IH.
Qed.

Lemma save_first_same l x : List.find p l = Some x -> save_first p (fun _ => x) l = l.
Proof.
  induction l as [|a l IH]; simpl; [discriminate|].
  destruct (p a).
  - now intros [= ->].
  - intros H. now rewrite (IH H).
Qed.
End Replace.

Lemma findSalesperson_none sps nm :
  findSalesperson sps nm = None -> ~ In nm (List.map Salesperson.name sps).
Proof.
  unfold findSalesperson. intros H Hin. apply List.in_map_iff in Hin.
  destruct Hin as [sp [E Hsp]]. pose proof (List.find_none _ _ H sp Hsp) as K.
  simpl in K. rewrite E, String.eqb_refl in K. discriminate.
Qed.

Lemma ListNoDup_snoc {A} (l : list A) x : List.NoDup l -> ~ In x l -> List.NoDup (l ++ [x]).
Proof.
  intros H1 H2. apply List.NoDup_rev in H1. rewrite <- (List.rev_involutive (l ++ [x])).
  apply List.NoDup_rev. rewrite List.rev_app_distr. simpl. constructor; [|exact H1].
  now rewrite <- List.in_rev.
Qed.

Lemma upsertSalesperson_cases newId sps name brand section sps' sp :
  upsertSalesperson newId sps name brand section = Some (sps', sp) ->
  exists s, name = VString s /\ is_empty (Salesperson.name sp) = false /\
  ((exists e b c,
      findSalesperson sps (toUpperCase (trim s)) = Some e /\
      updated_field brand (Salesperson.brand e) = Some b /\
      updated_field section (Salesperson.section e) = Some c /\
      sp = Salesperson.mk (Salesperson._id e) (Salesperson.name e) b c /\
      sps' = save_first (fun d => String.eqb (Salesperson.name d) (toUpperCase (trim s)))
               (fun _ => sp) sps)
   \/
   (exists b c,
      findSalesperson sps (toUpperCase (trim s)) = None /\
      initial_field brand = Some b /\ initial_field section = Some c /\
      sp = Salesperson.mk (newId sps) (toUpperCase (trim s)) b c /\
      sps' = sps ++ [sp])).
Proof.
  unfold upsertSalesperson. destruct name as [| | | |s]; try discriminate.
  destruct (findSalesperson sps (toUpperCase (trim s))) as [e|] eqn:F.
  - destruct (updated_field brand _) as [b|] eqn:B; [|discriminate].
    destruct (updated_field section _) as [c|] eqn:C; [|discriminate].
    destruct (validates _) eqn:V; [|discriminate].
    intros [= <- <-]. exists s. split; [reflexivity|]. split.
    + unfold validates in V. now apply negb_true_iff in V.
    + left. exists e, b, c. auto.
  - destruct (initial_field brand) as [b|] eqn:B; [|discriminate].
    destruct (initial_field section) as [c|] eqn:C; [|discriminate].
    destruct (validates _) eqn:V; [|discriminate].
    intros [= <- <-]. exists s. split; [reflexivity|]. split.
    + unfold validates in V. now apply negb_true_iff in V.
    + right. exists b, c. auto.
Qed.

Lemma upsertSalesperson_ok newId sps name brand section sps' sp :
  fresh_ids newId -> directory_ok sps ->
  upsertSalesperson newId sps name brand section = Some (sps', sp) ->
  directory_ok sps'.
Proof.
  intros Fr [D1 [D2 D3]] H.
  destruct (upsertSalesperson_cases _ _ _ _ _ _ _ H)
    as [s [-> [Ne [[e [b [c [F [B [C [Esp ->]]]]]]]|[b [c [F [B [C [Esp ->]]]]]]]]]].
  - destruct (findSalesperson_name _ _ _ F) as [Hin Hname].
    destruct (D3 e Hin) as [K1 [K2 [K3 K4]]].
    split; [|split].
    + rewrite (map_save_first _ _ _ _ _ F); [exact D1 | now rewrite Esp].
    + rewrite (map_save_first _ _ _ _ _ F); [exact D2 | now rewrite Esp].
    + intros z Hz. apply in_replaced in Hz. destruct Hz as [Hz| ->]; [now apply D3|].
      rewrite Esp. simpl. repeat split; auto.
      * apply (updated_field_canonical _ _ _ B K3).
      * apply (updated_field_canonical _ _ _ C K4).
  - split; [|split].
    + rewrite List.map_app. simpl. apply ListNoDup_snoc; [exact D1|].
      rewrite Esp. simpl. now apply findSalesperson_none.
    + rewrite List.map_app. simpl. apply ListNoDup_snoc; [exact D2|].
      rewrite Esp. simpl. apply Fr.
    + intros z Hz. apply in_app_or in Hz. destruct Hz as [Hz|[<-|[]]]; [now apply D3|].
      rewrite Esp in *. simpl in *. repeat split; auto.
      * apply canonical_upper_trim.
      * apply (initial_field_canonical _ _ B).
      * apply (initial_field_canonical _ _ C).
Qed.

Lemma upsertSalesperson_found newId sps s brand section sps' sp :
  upsertSalesperson newId sps (VString s) brand section = Some (sps', sp) ->
  findSalesperson sps' (toUpperCase (trim s)) = Some sp.
Proof.
  intros H.
  destruct (upsertSalesperson_cases _ _ _ _ _ _ _ H)
    as [s' [E [Ne [[e [b [c [F [B [C [Esp ->]]]]]]]|[b [c [F [B [C [Esp ->]]]]]]]]]];
    injection E as <-.
  - unfold findSalesperson in *. apply (find_replaced _ _ _ _ F).
    destruct (findSalesperson_name _ _ _ F) as [_ Hname].
    rewrite Esp. simpl. rewrite Hname. apply String.eqb_refl.
  - unfold findSalesperson in *. rewrite (find_snoc_none _ _ _ F).
    rewrite Esp. simpl. now rewrite String.eqb_refl.
Qed.

Lemma salesperson_eta e :
  Salesperson.mk (Salesperson._id e) (Salesperson.name e) (Salesperson.brand e)
    (Salesperson.section e) = e.
Proof. now destruct e. Qed.

(** X13: [upsertSalesperson] on a name already in the directory keeps the
    identifier and the name of the document, keeps the brand when no brand
    is passed and the section when no section is passed, and leaves the
    collection as it was when neither is passed. *)
Theorem upsertSalesperson_keeps_unset_fields (newId : salespersons -> N)
    (sps sps' : salespersons) (s : string) (brand section : value)
    (e sp : Salesperson.t) :
  findSalesperson sps (toUpperCase (trim s)) = Some e ->
  upsertSalesperson newId sps (VString s) brand section = Some (sps', sp) ->
  Salesperson._id sp = Salesperson._id e /\
  Salesperson.name sp = Salesperson.name e /\
  (brand = VUndefined -> Salesperson.brand sp = Salesperson.brand e) /\
  (section = VUndefined -> Salesperson.section sp = Salesperson.section e) /\
  (brand = VUndefined -> section = VUndefined -> sps' = sps).
Proof.
  intros F H.
  destruct (upsertSalesperson_cases _ _ _ _ _ _ _ H)
    as [s' [E [Ne [[e' [b [c [F' [B [C [Esp ->]]]]]]]|[b [c [F' _]]]]]]];
    injection E as <-; rewrite F in F'; [|discriminate].
  injection F' as <-. rewrite Esp. simpl.
  split; [reflexivity|]. split; [reflexivity|]. split; [|split].
  - intros ->. simpl in B. congruence.
  - intros ->. simpl in C. congruence.
  - intros -> ->. simpl in B, C. injection B as <-. injection C as <-.
    rewrite salesperson_eta. apply (save_first_same _ _ _ F).
Qed.

(** The theorem for a new brand given to RAVI: the section stays. *)
Lemma upsertSalesperson_keeps_unset_fields_witness :
  Salesperson.section (Salesperson.mk 2 "RAVI" (Some "ACME") (Some "TV"))
  = Salesperson.section (Salesperson.mk 2 "RAVI" (Some "VIDEUM") (Some "TV")).
Proof.
  apply (proj1 (proj2 (proj2 (proj2
           (upsertSalesperson_keeps_unset_fields next_id directory_sample
              [Salesperson.mk 2 "RAVI" (Some "ACME") (Some "TV");
               Salesperson.mk 5 "ASHA" None (Some "AUDIO")]
              " ravi " (VString "acme") VUndefined
              (Salesperson.mk 2 "RAVI" (Some "VIDEUM") (Some "TV"))
              (Salesperson.mk 2 "RAVI" (Some "ACME") (Some "TV"))
              eq_refl eq_refl))))).
  reflexivity.
Defined.

Lemma upper_or_null_accepted v : isSome (upper_or_null v) = field_accepted v.
Proof. unfold upper_or_null, field_accepted. destruct v as [| |[]|[]|[]]; reflexivity. Qed.

Lemma updated_field_accepted v old : isSome (updated_field v old) = field_accepted v.
Proof. destruct v; try apply upper_or_null_accepted. reflexivity. Qed.

Lemma initial_field_accepted v : isSome (initial_field v) = field_accepted v.
Proof. destruct v; try apply upper_or_null_accepted. reflexivity. Qed.

Lemma is_empty_upper s : is_empty (toUpperCase s) = is_empty s.
Proof. now destruct s. Qed.

(** X14: [POST /api/salespersons] answers with the salesperson exactly
    when the name is a string that is not blank and the brand and the
    section are each falsy or a string. *)
Theorem post_salespersons_succeeds_iff (newId : salespersons -> N)
    (sps : salespersons) (name brand section : value) :
  (exists sp, fst (post_salespersons newId sps name brand section) = Json sp)
  <-> (exists s, name = VString s /\ is_empty (trim s) = false) /\
      field_accepted brand = true /\ field_accepted section = true.
Proof.
  unfold post_salespersons. split.
  - intros [sp H]. destruct (negb (truthy name)); [discriminate|].
    destruct (upsertSalesperson newId sps name brand section) as [[sps' sp']|] eqn:U;
      [|discriminate].
    destruct (upsertSalesperson_cases _ _ _ _ _ _ _ U)
      as [s [-> [Ne [[e [b [c [F [B [C [Esp _]]]]]]]|[b [c [F [B [C [Esp _]]]]]]]]]].
    + destruct (findSalesperson_name _ _ _ F) as [_ Hname].
      rewrite Esp in Ne. simpl in Ne. rewrite Hname, is_empty_upper in Ne.
      split; [eauto|].
      rewrite <- (updated_field_accepted brand (Salesperson.brand e)), B.
      rewrite <- (updated_field_accepted section (Salesperson.section e)), C. auto.
    + rewrite Esp in Ne. simpl in Ne. rewrite is_empty_upper in Ne.
      split; [eauto|].
      rewrite <- (initial_field_accepted brand), B.
      rewrite <- (initial_field_accepted section), C. auto.
  - intros [[s [-> Ne]] [B C]].
    assert (T : truthy (VString s) = true).
    { simpl. destruct s; [discriminate | reflexivity]. }
    rewrite T. simpl. unfold upsertSalesperson.
    destruct (findSalesperson sps (toUpperCase (trim s))) as [e|] eqn:F.
    + destruct (findSalesperson_name _ _ _ F) as [_ Hname].
      rewrite <- (updated_field_accepted brand (Salesperson.brand e)) in B.
      rewrite <- (updated_field_accepted section (Salesperson.section e)) in C.
      destruct (updated_field brand _); [|discriminate].
      destruct (updated_field section _); [|discriminate].
      unfold validates. simpl. rewrite Hname, is_empty_upper, Ne. simpl. eauto.
    + rewrite <- initial_field_accepted in B, C.
      destruct (initial_field brand); [|discriminate].
      destruct (initial_field section); [|discriminate].
      unfold validates. simpl. rewrite is_empty_upper, Ne. simpl. eauto.
Qed.

(** X15: the salesperson the route answers with is the one found under
    the upper-cased, trimmed name, so a block of a sales file labelled with
    the name as it was sent is credited to that salesperson. *)
Theorem saved_salesperson_is_credited (newId : salespersons -> N)
    (sps sps' : salespersons) (s : string) (brand section : value)
    (sp : Salesperson.t) (db : achievements) (rows : list row)
    (year month factor : number) (returnInvoiceSet : gset string) :
  post_salespersons newId sps (VString s) brand section = (Json sp, sps') ->
  findSalesperson sps' (toUpperCase (trim s)) = Some sp /\
  processRowsForSalesperson sps' db rows s year month factor returnInvoiceSet
  = upsertAchievement db (Salesperson._id sp) year month
      (mul factor (fst (reconcile returnInvoiceSet (ownBrand sp) (aggregate rows))))
      (mul factor (snd (reconcile returnInvoiceSet (ownBrand sp) (aggregate rows)))).
Proof.
  unfold post_salespersons. destruct (negb (truthy (VString s))); [discriminate|].
  destruct (upsertSalesperson newId sps (VString s) brand section) as [[l x]|] eqn:U;
    [|discriminate].
  intros [= -> ->]. pose proof (upsertSalesperson_found _ _ _ _ _ _ _ U) as F.
  split; [exact F|].
  unfold processRowsForSalesperson. rewrite F.
  now destruct (reconcile _ _ _).
Qed.

(** The theorem for [" ravi "], saved with the brand ["acme"]. *)
Lemma saved_salesperson_is_credited_witness :
  findSalesperson [Salesperson.mk 2 "RAVI" (Some "ACME") None] (toUpperCase (trim " ravi "))
  = Some (Salesperson.mk 2 "RAVI" (Some "ACME") None) /\
  processRowsForSalesperson [Salesperson.mk 2 "RAVI" (Some "ACME") None] stored_2025
    [row_inv1; row_blank] " ravi " y2025 january (of_Z 1) ∅
  = upsertAchievement stored_2025 2 y2025 january
      (mul (of_Z 1) (fst (reconcile ∅ (Some "ACME") (aggregate [row_inv1; row_blank]))))
      (mul (of_Z 1) (snd (reconcile ∅ (Some "ACME") (aggregate [row_inv1; row_blank])))).
Proof.
  apply (saved_salesperson_is_credited next_id [sp_videum]
           [Salesperson.mk 2 "RAVI" (Some "ACME") None] " ravi " (VString "acme")
           VUndefined (Salesperson.mk 2 "RAVI" (Some "ACME") None)).
  reflexivity.
Defined.

(** ** The lists sorted by name *)

Lemma insert_by_name_perm sp l : Permutation (insert_by_name sp l) (sp :: l).
Proof.
  induction l as [|x l IH]; simpl; [reflexivity|].
  destruct (String.leb _ _); [reflexivity|].
  rewrite IH. apply perm_swap.
Qed.

Lemma sort_by_name_perm sps : Permutation (sort_by_name sps) sps.
Proof.
  induction sps as [|sp sps IH]; simpl; [reflexivity|].
  rewrite insert_by_name_perm. now constructor.
Qed.

Lemma insert_by_name_sorted sp l :
  Sorted name_le l -> Sorted name_le (insert_by_name sp l).
Proof.
  induction l as [|x l IH]; simpl; intros H.
  - repeat constructor.
  - destruct (String.leb (Salesperson.name sp) (Salesperson.name x)) eqn:E.
    + constructor; [exact H|]. constructor. exact E.
    + inversion H as [|? ? Hs Hh]; subst.
      constructor; [now apply IH|].
      assert (X : name_le x sp).
      { destruct (String.leb_total (Salesperson.name sp) (Salesperson.name x)) as [K|K];
          [congruence | exact K]. }
      destruct l as [|y l]; simpl.
      * constructor. exact X.
      * destruct (String.leb (Salesperson.name sp) (Salesperson.name y)).
        -- constructor. exact X.
        -- constructor. now inversion Hh.
Qed.

Lemma sort_by_name_sorted sps : Sorted name_le (sort_by_name sps).
Proof.
  induction sps as [|sp sps IH]; simpl; [constructor|].
  now apply insert_by_name_sorted.
Qed.

(** ** POST /api/salespersons/bulk *)

Lemma designated_find sps it sp again :
  designated sps it = Some (sp, again) -> List.find again sps = Some sp.
Proof.
  unfold designated. destruct (item_id it) as [id|].
  - unfold findById. destruct (List.find _ sps) eqn:F; simpl; [|discriminate].
    now intros [= <- <-].
  - destruct (truthy (item_name it)); [|discriminate].
    unfold findSalesperson. destruct (List.find _ sps) eqn:F; simpl; [|discriminate].
    now intros [= <- <-].
Qed.

Lemma upper_string_or_null_canonical v : canonical_field (upper_string_or_null v).
Proof.
  unfold upper_string_or_null. destruct (truthy v); [apply canonical_upper_trim | exact I].
Qed.

Lemma bulk_loop_spec items : forall sps,
  List.map Salesperson._id (fst (bulk_loop sps items)) = List.map Salesperson._id sps /\
  List.map Salesperson.name (fst (bulk_loop sps items)) = List.map Salesperson.name sps /\
  (directory_ok sps ->
   directory_ok (fst (bulk_loop sps items)) /\ snd (bulk_loop sps items) = true).
Proof.
  induction items as [|[it|] items IH]; intros sps; simpl.
  - auto.
  - destruct (designated sps it) as [[sp again]|] eqn:D; [|apply IH].
    pose proof (designated_find _ _ _ _ D) as F.
    set (saved := Salesperson.mk _ _ _ _).
    assert (M1 : List.map Salesperson._id (save_first again (fun _ => saved) sps)
                 = List.map Salesperson._id sps)
      by (now apply (map_save_first _ _ _ _ _ F)).
    assert (M2 : List.map Salesperson.name (save_first again (fun _ => saved) sps)
                 = List.map Salesperson.name sps)
      by (now apply (map_save_first _ _ _ _ _ F)).
    destruct (validates saved) eqn:V.
    + destruct (IH (save_first again (fun _ => saved) sps)) as [I1 [I2 I3]].
      rewrite I1, I2, M1, M2. split; [reflexivity|]. split; [reflexivity|].
      intros [D1 [D2 D3]]. apply I3. split; [|split].
      * now rewrite M2.
      * now rewrite M1.
      * intros z Hz. apply in_replaced in Hz. destruct Hz as [Hz| ->]; [now apply D3|].
        apply List.find_some in F. destruct F as [F _].
        destruct (D3 sp F) as [K1 [K2 _]]. unfold saved. simpl.
        repeat split; auto; apply upper_string_or_null_canonical.
    + simpl. split; [reflexivity|]. split; [reflexivity|].
      intros [D1 [D2 D3]]. exfalso.
      apply List.find_some in F. destruct F as [F _].
      destruct (D3 sp F) as [_ [K2 _]].
      unfold validates, saved in V. simpl in V. rewrite K2 in V. discriminate.
  - apply IH.
Qed.

(** X16: [POST /api/salespersons/bulk] neither adds, removes, renames nor
    reorders documents: the identifiers and the names of the collection
    are those before the request, whatever the body. *)
Theorem bulk_keeps_names_and_ids (sps : salespersons)
    (body : option (list (option bulk_item))) :
  List.map Salesperson._id (snd (post_salespersons_bulk sps body))
  = List.map Salesperson._id sps /\
  List.map Salesperson.name (snd (post_salespersons_bulk sps body))
  = List.map Salesperson.name sps.
Proof.
  unfold post_salespersons_bulk. destruct body as [items|]; [|auto].
  destruct (bulk_loop_spec items sps) as [H1 [H2 _]].
  destruct (bulk_loop sps items) as [sps' ok]. simpl in *.
  destruct ok; auto.
Qed.

(** X17: the list [POST /api/salespersons/bulk] answers with holds the
    documents of the collection after the request, each once, in ascending
    order of name. *)
Theorem bulk_reply_is_sorted_directory (sps sps' l : salespersons)
    (body : option (list (option bulk_item))) :
  post_salespersons_bulk sps body = (Json l, sps') ->
  Sorted name_le l /\ Permutation l sps'.
Proof.
  unfold post_salespersons_bulk. destruct body as [items|]; [|discriminate].
  destruct (bulk_loop sps items) as [x ok]. destruct ok; [|discriminate].
  intros [= <- <-]. split; [apply sort_by_name_sorted | apply sort_by_name_perm].
Qed.

(** The theorem for a request that clears the brand of ASHA. *)
Lemma bulk_reply_is_sorted_directory_witness :
  Sorted name_le [Salesperson.mk 5 "ASHA" None None;
                  Salesperson.mk 2 "RAVI" (Some "VIDEUM") (Some "TV")] /\
  Permutation [Salesperson.mk 5 "ASHA" None None;
               Salesperson.mk 2 "RAVI" (Some "VIDEUM") (Some "TV")]
    [Salesperson.mk 2 "RAVI" (Some "VIDEUM") (Some "TV");
     Salesperson.mk 5 "ASHA" None None].
Proof.
  apply (bulk_reply_is_sorted_directory directory_sample
           [Salesperson.mk 2 "RAVI" (Some "VIDEUM") (Some "TV");
            Salesperson.mk 5 "ASHA" None None]
           [Salesperson.mk 5 "ASHA" None None;
            Salesperson.mk 2 "RAVI" (Some "VIDEUM") (Some "TV")]
           (Some [Some (mk_item None (VString "asha") VNull VUndefined)])).
  reflexivity.
Defined.

(** ** Save All Brands *)

Lemma save_first_by_id i (upd : Salesperson.t -> Salesperson.t) l x :
  List.NoDup (List.map Salesperson._id l) ->
  List.find (fun d => N.eqb (Salesperson._id d) i) l = Some x ->
  save_first (fun d => N.eqb (Salesperson._id d) i) (fun _ => upd x) l
  = List.map (fun d => if N.eqb (Salesperson._id d) i then upd d else d) l.
Proof.
  induction l as [|a l IH]; simpl; [discriminate|].
  intros N F. inversion N as [|? ? N1 N2]; subst.
  destruct (N.eqb (Salesperson._id a) i) eqn:E.
  - injection F as ->. f_equal.
    apply N.eqb_eq in E.
    assert (K : forall d, In d l -> N.eqb (Salesperson._id d) i = false).
    { intros d Hd. apply N.eqb_neq. intros E'. apply N1. rewrite E, <- E'.
      now apply List.in_map. }
    clear -K. induction l as [|b l IH]; simpl; [reflexivity|].
    rewrite (K b) by now left. f_equal. apply IH. intros d Hd. apply K. now right.
  - f_equal. now apply IH.
Qed.

Lemma map_no_id i (upd : Salesperson.t -> Salesperson.t) l :
  List.find (fun d => N.eqb (Salesperson._id d) i) l = None ->
  List.map (fun d => if N.eqb (Salesperson._id d) i then upd d else d) l = l.
Proof.
  induction l as [|a l IH]; simpl; [reflexivity|].
  destruct (N.eqb (Salesperson._id a) i); [discriminate|].
  intros F. now rewrite IH.
Qed.

Lemma bulk_loop_brand_items table : forall sps,
  List.NoDup (List.map Salesperson._id sps) ->
  (forall sp, In sp sps -> is_empty (Salesperson.name sp) = false) ->
  bulk_loop sps (brand_items table) = (List.map (brand_items_on table) sps, true).
Proof.
  induction table as [|r table IH]; intros sps N E; simpl.
  - now rewrite List.map_id.
  - unfold designated. simpl. unfold findById.
    set (upd := fun d : Salesperson.t =>
                  Salesperson.mk (Salesperson._id d) (Salesperson.name d)
                    (upper_string_or_null (VString (App.brand r))) None).
    assert (S : List.map (fun d => brand_items_on table (brand_item_on r d)) sps
                = List.map (brand_items_on table)
                    (List.map (fun d => if N.eqb (Salesperson._id d) (App.id r)
                                        then upd d else d) sps)).
    { rewrite List.map_map. reflexivity. }
    destruct (List.find _ sps) as [x|] eqn:F; simpl.
    + pose proof (List.find_some _ _ F) as [Hx _].
      unfold validates. simpl. rewrite (E x Hx). simpl.
      change (upper_string_or_null VUndefined) with (@None string).
      change (Salesperson.mk (Salesperson._id x) (Salesperson.name x)
                (upper_string_or_null (VString (App.brand r))) None) with (upd x).
      change (brand_items_on (r :: table))
        with (fun d => brand_items_on table (brand_item_on r d)).
      rewrite (save_first_by_id _ upd _ _ N F), S.
      apply IH.
      * rewrite List.map_map.
        replace (List.map _ sps) with (List.map Salesperson._id sps); [exact N|].
        apply List.map_ext. intros d. now destruct (N.eqb _ _).
      * intros sp Hsp. apply List.in_map_iff in Hsp. destruct Hsp as [d [<- Hd]].
        destruct (N.eqb _ _); simpl; now apply E.
    + change (brand_items_on (r :: table))
        with (fun d => brand_items_on table (brand_item_on r d)).
      rewrite S, (map_no_id _ upd _ F). now apply IH.
Qed.

Lemma brand_items_on_other table d :
  ~ In (Salesperson._id d) (List.map App.id table) -> brand_items_on table d = d.
Proof.
  revert d. induction table as [|r table IH]; intros d H; [reflexivity|].
  change (brand_items_on (r :: table) d) with (brand_items_on table (brand_item_on r d)).
  simpl in H. unfold brand_item_on.
  destruct (N.eqb (Salesperson._id d) (App.id r)) eqn:E.
  - exfalso. apply H. left. apply N.eqb_eq in E. now symmetry.
  - apply IH. intros K. apply H. now right.
Qed.

Lemma brand_items_on_own table d r :
  List.NoDup (List.map App.id table) -> In r table ->
  App.id r = Salesperson._id d ->
  brand_items_on table d
  = Salesperson.mk (Salesperson._id d) (Salesperson.name d)
      (upper_string_or_null (VString (App.brand r))) None.
Proof.
  revert d. induction table as [|r0 table IH]; intros d N Hr E; [destruct Hr|].
  change (brand_items_on (r0 :: table) d) with (brand_items_on table (brand_item_on r0 d)).
  simpl in *. inversion N as [|? ? N1 N2]; subst.
  unfold brand_item_on.
  destruct (N.eqb (Salesperson._id d) (App.id r0)) eqn:E0.
  - apply N.eqb_eq in E0.
    assert (r = r0).
    { destruct Hr as [Hr|Hr]; [now symmetry|]. exfalso. apply N1.
      rewrite <- E0, <- E. now apply List.in_map. }
    subst r0. apply brand_items_on_other. simpl. now rewrite E0.
  - destruct Hr as [Hr|Hr]; [subst; rewrite E, N.eqb_refl in E0; discriminate|].
    now apply IH.
Qed.

Lemma brand_items_on_section table : forall d,
  Salesperson.section d = None \/ In (Salesperson._id d) (List.map App.id table) ->
  Salesperson.section (brand_items_on table d) = None.
Proof.
  induction table as [|r table IH]; intros d H.
  - destruct H as [H|[]]. exact H.
  - change (brand_items_on (r :: table) d) with (brand_items_on table (brand_item_on r d)).
    apply IH. unfold brand_item_on.
    destruct (N.eqb (Salesperson._id d) (App.id r)) eqn:E; simpl; [now left|].
    destruct H as [H|[H|H]]; [now left | | now right].
    apply N.eqb_neq in E. congruence.
Qed.

Lemma brand_items_on_id table : forall d,
  Salesperson._id (brand_items_on table d) = Salesperson._id d.
Proof.
  induction table as [|r table IH]; intros d; [reflexivity|].
  change (brand_items_on (r :: table) d) with (brand_items_on table (brand_item_on r d)).
  rewrite IH. unfold brand_item_on. now destruct (N.eqb _ _).
Qed.

(** X18: [Save All Brands] erases the sections: its items carry no
    [section], so after the request, whatever the table, every salesperson
    the table covers has none, and every salesperson it does not cover is
    as before; sent for the table as fetched, it leaves each salesperson
    the brand it had ([null] for an empty one) and no section. *)
Theorem save_all_brands_clears_sections (sps : salespersons) :
  directory_ok sps ->
  (forall table : list App.brand_row,
     (forall sp', In sp' (snd (post_salespersons_bulk sps (App.saveAllBrands_body table))) ->
        In (Salesperson._id sp') (List.map App.id table) ->
        Salesperson.section sp' = None) /\
     (forall sp, In sp sps ->
        ~ In (Salesperson._id sp) (List.map App.id table) ->
        In sp (snd (post_salespersons_bulk sps (App.saveAllBrands_body table))))) /\
  post_salespersons_bulk sps
    (App.saveAllBrands_body (App.brandTable_of (sort_by_name sps)))
  = (Json (sort_by_name (List.map without_section sps)), List.map without_section sps).
Proof.
  intros [D1 [D2 D3]]. unfold post_salespersons_bulk, App.saveAllBrands_body. split.
  { intros table. fold (brand_items table).
    rewrite bulk_loop_brand_items; [|exact D2|intros sp Hsp; now apply D3].
    cbn [snd]. split.
    - intros sp' H Cov. apply List.in_map_iff in H. destruct H as [d [<- Hd]].
      rewrite brand_items_on_id in Cov.
      apply brand_items_on_section. now right.
    - intros sp Hsp Out. apply List.in_map_iff. exists sp.
      split; [now apply brand_items_on_other | exact Hsp]. }
  fold (brand_items (App.brandTable_of (sort_by_name sps))).
  rewrite bulk_loop_brand_items; [|exact D2|intros sp Hsp; now apply D3].
  assert (E : List.map (brand_items_on (App.brandTable_of (sort_by_name sps))) sps
              = List.map without_section sps).
  { apply List.map_ext_in. intros d Hd.
    pose proof (sort_by_name_perm sps) as P.
    assert (Hd' : In d (sort_by_name sps)) by (apply (Permutation_in _ (Permutation_sym P) Hd)).
    set (r := App.mk_brand_row (Salesperson._id d) (Salesperson.name d)
                match Salesperson.brand d with
                | Some b => if is_empty b then "" else b
                | None => ""
                end).
    rewrite (brand_items_on_own _ d r).
    - unfold without_section, r. simpl. f_equal.
      destruct (D3 d Hd) as [_ [_ [K _]]].
      destruct (Salesperson.brand d) as [b|]; [|reflexivity].
      destruct b as [|c b]; [reflexivity|]. simpl in K.
      unfold upper_string_or_null. simpl. now rewrite K.
    - unfold App.brandTable_of. rewrite List.map_map. simpl.
      apply (Permutation_NoDup (Permutation_sym (Permutation_map Salesperson._id P)) D2).
    - unfold App.brandTable_of. apply List.in_map_iff. exists d. auto.
    - reflexivity. }
  now rewrite E.
Qed.

(** The theorem for the sample directory. *)
Lemma save_all_brands_clears_sections_witness :
  post_salespersons_bulk directory_sample
    (App.saveAllBrands_body (App.brandTable_of (sort_by_name directory_sample)))
  = (Json (sort_by_name (List.map without_section directory_sample)),
     List.map without_section directory_sample).
Proof.
  apply (proj2 (save_all_brands_clears_sections directory_sample directory_sample_ok)).
Defined.

(** ** The target routes *)

Lemma upsert_unset_extends newId sps name sps' sp :
  upsertSalesperson newId sps name VUndefined VUndefined = Some (sps', sp) ->
  sps' = sps \/ sps' = sps ++ [sp].
Proof.
  intros H.
  destruct (upsertSalesperson_cases _ _ _ _ _ _ _ H)
    as [s [-> [Ne [[e [b [c [F [B [C [Esp ->]]]]]]]|[b [c [F [B [C [Esp ->]]]]]]]]]].
  - left. simpl in B, C. injection B as <-. injection C as <-.
    rewrite salesperson_eta in Esp. subst sp. apply (save_first_same _ _ _ F).
  - now right.
Qed.

Lemma store_target_cases ts id year month t ts' :
  store_target ts id year month t = Some ts' ->
  isNaN t = false /\
  isNaN (ToNumber year) = false /\ isNaN (ToNumber month) = false /\
  match findTarget ts id (ToNumber year) (ToNumber month) with
  | Some _ =>
      ts' = save_first (matches_target id (ToNumber year) (ToNumber month))
              (fun existing =>
                 MonthlyTarget.mk (MonthlyTarget.salesperson existing)
                   (MonthlyTarget.year existing) (MonthlyTarget.month existing) t)
              ts
  | None => ts' = ts ++ [MonthlyTarget.mk id (ToNumber year) (ToNumber month) t]
  end.
Proof.
  unfold store_target, castNumber.
  destruct (isNaN (ToNumber year)); [discriminate|].
  destruct (isNaN (ToNumber month)); [discriminate|].
  destruct (findTarget _ _ _ _); destruct (isNaN t); try discriminate;
    intros [= <-]; auto.
Qed.

Lemma length_save_first {A} (p : A -> bool) f l : length (save_first p f l) = length l.
Proof.
  induction l as [|a l IH]; simpl; [reflexivity|].
  destruct (p a); simpl; [reflexivity | now rewrite IH].
Qed.

Lemma store_target_found ts id year month t ts' :
  store_target ts id year month t = Some ts' ->
  exists d, findTarget ts' id (ToNumber year) (ToNumber month) = Some d /\
            MonthlyTarget.target d = t /\
            (length ts' = length ts \/
             findTarget ts id (ToNumber year) (ToNumber month) = None).
Proof.
  intros H. destruct (store_target_cases _ _ _ _ _ _ H) as [Nt [Ny [Nm K]]].
  destruct (findTarget ts id (ToNumber year) (ToNumber month)) as [d0|] eqn:F; subst ts'.
  - eexists. split; [|split].
    + unfold findTarget in *. rewrite find_save_first; [rewrite F; reflexivity|].
      intros x Hx. exact Hx.
    + reflexivity.
    + left. apply length_save_first.
  - eexists. split; [|split].
    + unfold findTarget in *. rewrite (find_snoc_none _ _ _ F).
      unfold matches_target. simpl. now rewrite N.eqb_refl, !strict_eq_refl.
    + reflexivity.
    + now right.
Qed.

(** A request that succeeds has saved the salesperson, then the target. *)
Lemma post_targets_steps (newId : salespersons -> N) (sps sps' : salespersons)
    (ts ts' : targets) (name year month target : value) :
  post_targets newId sps ts name year month target = (Json tt, sps', ts') ->
  exists sp,
    upsertSalesperson newId sps name VUndefined VUndefined = Some (sps', sp) /\
    store_target ts (Salesperson._id sp) year month
      (ToNumber (target <||> VNumber pos_zero)) = Some ts'.
Proof.
  unfold post_targets.
  destruct (negb (truthy name) || negb (truthy year) || negb (truthy month));
    [discriminate|].
  destruct (upsertSalesperson newId sps name VUndefined VUndefined)
    as [[l sp]|] eqn:U; [|discriminate].
  destruct (store_target ts (Salesperson._id sp) year month _) as [l'|] eqn:S;
    [|discriminate].
  intros [= <- <-]. eauto.
Qed.

(** X19: [POST /api/targets], when it succeeds, leaves a target record for
    the salesperson and the period that holds the number sent ([0] when
    none was), and it overwrites: the number of records grows only when
    there was none for the key. *)
Theorem post_targets_overwrites (newId : salespersons -> N) (sps sps' : salespersons)
    (ts ts' : targets) (s : string) (year month target : value) :
  post_targets newId sps ts (VString s) year month target = (Json tt, sps', ts') ->
  exists sp d,
    findSalesperson sps' (toUpperCase (trim s)) = Some sp /\
    findTarget ts' (Salesperson._id sp) (ToNumber year) (ToNumber month) = Some d /\
    MonthlyTarget.target d = ToNumber (target <||> VNumber pos_zero) /\
    (length ts' = length ts \/
     findTarget ts (Salesperson._id sp) (ToNumber year) (ToNumber month) = None).
Proof.
  intros H. destruct (post_targets_steps _ _ _ _ _ _ _ _ _ H) as [sp [U S]].
  destruct (store_target_found _ _ _ _ _ _ S) as [d [H1 [H2 H3]]].
  exists sp, d. split; [apply (upsertSalesperson_found _ _ _ _ _ _ _ U)|].
  split; [exact H1|]. split; [exact H2 | exact H3].
Qed.

(** The theorem for a target of 7000 replacing one of 5000. *)
Lemma post_targets_overwrites_witness :
  exists sp d,
    findSalesperson directory_sample (toUpperCase (trim "ravi")) = Some sp /\
    findTarget [MonthlyTarget.mk 2 y2025 january (of_Z 7000)] (Salesperson._id sp)
      (ToNumber (VNumber y2025)) (ToNumber (VNumber january)) = Some d /\
    MonthlyTarget.target d = ToNumber (VString "7000" <||> VNumber pos_zero) /\
    (length [MonthlyTarget.mk 2 y2025 january (of_Z 7000)] = length targets_sample \/
     findTarget targets_sample (Salesperson._id sp)
       (ToNumber (VNumber y2025)) (ToNumber (VNumber january)) = None).
Proof.
  apply (post_targets_overwrites next_id directory_sample directory_sample targets_sample
           [MonthlyTarget.mk 2 y2025 january (of_Z 7000)] "ravi"
           (VNumber y2025) (VNumber january) (VString "7000")).
  reflexivity.
Defined.

Lemma targets_loop_extends newId year month items : forall sps ts,
  exists l, fst (fst (targets_loop newId sps ts year month items)) = sps ++ l.
Proof.
  induction items as [|[item|] items IH]; intros sps ts; cbn [targets_loop].
  - exists []. simpl. now rewrite app_nil_r.
  - destruct (negb (truthy (target_name item))); [apply IH|].
    destruct (upsertSalesperson _ _ _ _ _) as [[sps' sp]|] eqn:U.
    + assert (E : exists l0, sps' = sps ++ l0).
      { destruct (upsert_unset_extends _ _ _ _ _ U) as [->| ->];
          [exists []; now rewrite app_nil_r | eauto]. }
      destruct E as [l0 ->].
      destruct (store_target _ _ _ _ _) as [ts'|].
      * destruct (IH (sps ++ l0) ts') as [l E]. exists (l0 ++ l).
        now rewrite E, app_assoc.
      * simpl. eauto.
    + simpl. exists []. now rewrite app_nil_r.
  - apply IH.
Qed.

(** X20: the target routes never change a document of the directory:
    whatever they answer, the collection after the request begins with the
    collection before it. *)
Theorem targets_never_change_a_salesperson (newId : salespersons -> N)
    (sps : salespersons) (ts : targets) (name year month target : value)
    (items : option (list (option target_item))) :
  (exists l, snd (fst (post_targets newId sps ts name year month target)) = sps ++ l) /\
  (exists l, snd (fst (post_targets_bulk newId sps ts year month items)) = sps ++ l).
Proof.
  split.
  - unfold post_targets.
    destruct (negb (truthy name) || negb (truthy year) || negb (truthy month));
      [exists []; simpl; now rewrite app_nil_r|].
    destruct (upsertSalesperson newId sps name VUndefined VUndefined)
      as [[l sp]|] eqn:U; [|exists []; simpl; now rewrite app_nil_r].
    assert (E : exists l0, l = sps ++ l0).
    { destruct (upsert_unset_extends _ _ _ _ _ U) as [->| ->];
        [exists []; now rewrite app_nil_r | eauto]. }
    destruct (store_target _ _ _ _ _); simpl; exact E.
  - unfold post_targets_bulk.
    destruct (negb (truthy year) || negb (truthy month));
      [exists []; simpl; now rewrite app_nil_r|].
    destruct items as [l|]; [|exists []; simpl; now rewrite app_nil_r].
    destruct (targets_loop_extends newId year month l sps ts) as [l0 E].
    destruct (targets_loop newId sps ts year month l) as [[a b] ok]. simpl in E.
    exists l0. now destruct ok.
Qed.

(** ** The routes keep the directory well formed *)

Lemma targets_loop_ok newId year month items : forall sps ts,
  fresh_ids newId -> directory_ok sps ->
  directory_ok (fst (fst (targets_loop newId sps ts year month items))).
Proof.
  induction items as [|[item|] items IH]; intros sps ts Fr D; cbn [targets_loop]; auto.
  destruct (negb (truthy (target_name item))); [now apply IH|].
  destruct (upsertSalesperson _ _ _ _ _) as [[sps' sp]|] eqn:U; [|exact D].
  pose proof (upsertSalesperson_ok _ _ _ _ _ _ _ Fr D U) as D'.
  destruct (store_target _ _ _ _ _); [now apply IH | exact D'].
Qed.

(** X21: the four routes that write keep the directory well formed:
    unique identifiers, unique names that are not empty, and names, brands
    and sections upper-cased and trimmed; in such a directory the
    identifier determines the name. *)
Theorem routes_keep_directory_wellformed (newId : salespersons -> N)
    (sps : salespersons) (ts : targets) (name brand section year month target : value)
    (body : option (list (option bulk_item)))
    (items : option (list (option target_item))) :
  fresh_ids newId -> directory_ok sps ->
  directory_ok (snd (post_salespersons newId sps name brand section)) /\
  directory_ok (snd (post_salespersons_bulk sps body)) /\
  directory_ok (snd (fst (post_targets newId sps ts name year month target))) /\
  directory_ok (snd (fst (post_targets_bulk newId sps ts year month items))) /\
  ids_identify sps.
Proof.
  intros Fr D. split; [|split; [|split; [|split]]].
  - unfold post_salespersons. destruct (negb (truthy name)); [exact D|].
    destruct (upsertSalesperson _ _ _ _ _) as [[sps' sp]|] eqn:U; [|exact D].
    apply (upsertSalesperson_ok _ _ _ _ _ _ _ Fr D U).
  - unfold post_salespersons_bulk. destruct body as [l|]; [|exact D].
    destruct (bulk_loop_spec l sps) as [_ [_ K]]. destruct (K D) as [K1 K2].
    destruct (bulk_loop sps l) as [a ok]. simpl in *. now destruct ok.
  - unfold post_targets.
    destruct (negb (truthy name) || negb (truthy year) || negb (truthy month));
      [exact D|].
    destruct (upsertSalesperson _ _ _ _ _) as [[sps' sp]|] eqn:U; [|exact D].
    pose proof (upsertSalesperson_ok _ _ _ _ _ _ _ Fr D U) as D'.
    now destruct (store_target _ _ _ _ _).
  - unfold post_targets_bulk.
    destruct (negb (truthy year) || negb (truthy month)); [exact D|].
    destruct items as [l|]; [|exact D].
    pose proof (targets_loop_ok newId year month l sps ts Fr D) as K.
    destruct (targets_loop newId sps ts year month l) as [[a b] ok]. simpl in K.
    now destruct ok.
  - destruct D as [_ [D2 _]]. intros a b Ha Hb E.
    assert (a = b); [|now subst].
    clear -D2 Ha Hb E. induction sps as [|x sps IH]; [destruct Ha|].
    simpl in D2. inversion D2 as [|? ? N1 N2]; subst.
    destruct Ha as [->|Ha], Hb as [->|Hb]; auto.
    + exfalso. apply N1. rewrite E. now apply List.in_map.
    + exfalso. apply N1. rewrite <- E. now apply List.in_map.
Qed.

(** The theorem for MEENA added to the sample directory. *)
Lemma routes_keep_directory_wellformed_witness :
  directory_ok
    (snd (post_salespersons next_id directory_sample (VString "meena") (VString " acme ")
            VUndefined)).
Proof.
  apply (proj1 (routes_keep_directory_wellformed next_id directory_sample []
                  (VString "meena") (VString " acme ") VUndefined VUndefined VUndefined
                  VUndefined None None next_id_fresh directory_sample_ok)).
Defined.

(** ** GET /api/dashboard *)

Lemma or_number_not_nan x : isNaN (or_number x pos_zero) = false.
Proof. now destruct x. Qed.

Lemma field_or_zero_not_nan {A} (doc : option A) f : isNaN (field_or_zero doc f) = false.
Proof. destruct doc; [apply or_number_not_nan | reflexivity]. Qed.

Lemma sorted_map_entry ts achs y m l :
  Sorted name_le l -> Sorted row_le (List.map (dashboard_entry ts achs y m) l).
Proof.
  induction 1 as [|a l Hs IH Hh]; simpl; constructor; auto.
  destruct Hh; simpl; constructor. assumption.
Qed.

(** X22: the dashboard has one row for each salesperson of the directory,
    in ascending order of name; no number of a row is [NaN], and
    [totalPercent] is [null] exactly when the target is not above 0. *)
Theorem dashboard_lists_every_salesperson (sps : salespersons) (ts : targets)
    (achs : achievements) (query_year query_month : value) (rows : list dashboard_row) :
  get_dashboard sps ts achs query_year query_month = Json rows ->
  Sorted row_le rows /\
  Permutation (List.map row_name rows) (List.map Salesperson.name sps) /\
  forall r, In r rows ->
    row_numbers_ok r = true /\
    (row_totalPercent r = None <-> gt (row_target r) pos_zero = false).
Proof.
  unfold get_dashboard.
  destruct (negb (truthy_number (ToNumber query_year))
            || negb (truthy_number (ToNumber query_month))); [discriminate|].
  intros [= <-]. split; [|split].
  - apply sorted_map_entry, sort_by_name_sorted.
  - rewrite List.map_map. simpl.
    apply (Permutation_map Salesperson.name (sort_by_name_perm sps)).
  - intros r Hr. apply List.in_map_iff in Hr. destruct Hr as [sp [<- _]]. split.
    + unfold row_numbers_ok, dashboard_entry. simpl.
      now rewrite !field_or_zero_not_nan.
    + unfold dashboard_entry. simpl.
      destruct (gt _ _); split; congruence.
Qed.

(** The theorem for the sample directory in January 2025. *)
Lemma dashboard_lists_every_salesperson_witness :
  Sorted row_le
    (List.map (dashboard_entry targets_sample achievements_sample y2025 january)
       (sort_by_name directory_sample)) /\
  Permutation
    (List.map row_name
       (List.map (dashboard_entry targets_sample achievements_sample y2025 january)
          (sort_by_name directory_sample)))
    (List.map Salesperson.name directory_sample).
Proof.
  pose proof (dashboard_lists_every_salesperson directory_sample targets_sample
                achievements_sample (VString "2025") (VString "1")
                (List.map (dashboard_entry targets_sample achievements_sample y2025 january)
                   (sort_by_name directory_sample)) eq_refl) as H.
  split; [exact (proj1 H) | exact (proj1 (proj2 H))].
Defined.

(** X23: a target set through [POST /api/targets] is the target the
    dashboard of that period shows in the row of the salesperson. *)
Theorem dashboard_shows_the_target_set (newId : salespersons -> N)
    (sps sps' : salespersons) (ts ts' : targets) (achs : achievements)
    (s : string) (y m : number) (target query_year query_month : value) :
  post_targets newId sps ts (VString s) (VNumber y) (VNumber m) target
  = (Json tt, sps', ts') ->
  ToNumber query_year = y -> ToNumber query_month = m ->
  exists rows r,
    get_dashboard sps' ts' achs query_year query_month = Json rows /\
    In r rows /\
    row_name r = toUpperCase (trim s) /\
    row_target r = or_number (ToNumber (target <||> VNumber pos_zero)) pos_zero.
Proof.
  intros H Ey Em. pose proof H as H0. unfold post_targets in H0.
  destruct (negb (truthy (VString s)) || negb (truthy (VNumber y))
            || negb (truthy (VNumber m))) eqn:G; [discriminate|]. clear H0.
  apply orb_false_iff in G. destruct G as [G Gm].
  apply orb_false_iff in G. destruct G as [_ Gy]. simpl in Gy, Gm.
  destruct (post_targets_steps _ _ _ _ _ _ _ _ _ H) as [sp [U S]].
  destruct (store_target_found _ _ _ _ _ _ S) as [d [T [V _]]].
  pose proof (upsertSalesperson_found _ _ _ _ _ _ _ U) as F. simpl in T.
  unfold get_dashboard. rewrite Ey, Em, Gy, Gm. simpl.
  eexists. exists (dashboard_entry ts' achs y m sp). split; [reflexivity|].
  destruct (findSalesperson_name _ _ _ F) as [Hin Hname].
  split; [|split].
  - apply List.in_map. apply (Permutation_in _ (Permutation_sym (sort_by_name_perm sps')) Hin).
  - exact Hname.
  - unfold dashboard_entry. simpl in *. rewrite T. simpl. now rewrite V.
Qed.

(** The theorem for a target of 7000 set for RAVI. *)
Lemma dashboard_shows_the_target_set_witness :
  exists rows r,
    get_dashboard directory_sample [MonthlyTarget.mk 2 y2025 january (of_Z 7000)]
      achievements_sample (VString "2025") (VString "1") = Json rows /\
    In r rows /\
    row_name r = toUpperCase (trim "ravi") /\
    row_target r = or_number (ToNumber (VString "7000" <||> VNumber pos_zero)) pos_zero.
Proof.
  apply (dashboard_shows_the_target_set next_id directory_sample directory_sample
           targets_sample [MonthlyTarget.mk 2 y2025 january (of_Z 7000)]
           achievements_sample "ravi" y2025 january (VString "7000")
           (VString "2025") (VString "1")); reflexivity.
Defined.

(** ** A target that is met *)

Lemma div_self m e :
  div (S754_finite false m e) (S754_finite false m e) = of_Z 1.
Proof.
  unfold div, SFdiv, SFdiv_core_binary.
  replace (Zdigits2 (Z.pos m) + e - (Zdigits2 (Z.pos m) + e)) with 0 by ring.
  replace (e - e) with 0 by ring.
  change (Z.min (fexp prec emax 0) 0) with (-53).
  change (0 - -53) with 53.
  cbv beta iota zeta.
  rewrite Z.shiftl_mul_pow2 by lia.
  assert (E : Z.div_eucl (Z.pos m * 2 ^ 53) (Z.pos m) = (2 ^ 53, 0)).
  { pose proof (Z.div_mul (2 ^ 53) (Z.pos m) ltac:(lia)) as Q.
    pose proof (Z.mod_mul (2 ^ 53) (Z.pos m) ltac:(lia)) as R.
    rewrite (Z.mul_comm (2 ^ 53)) in Q, R.
    unfold Z.div, Z.modulo in Q, R.
    destruct (Z.div_eucl (Z.pos m * 2 ^ 53) (Z.pos m)) as [q r]. simpl in Q, R.
    now subst. }
  rewrite E.
  assert (L : new_location (Z.pos m) 0 = loc_Exact).
  { unfold new_location. destruct (Z.even (Z.pos m)); reflexivity. }
  rewrite L. reflexivity.
Qed.

(** X24: a salesperson whose total equals a positive, finite target is
    shown at exactly 100 percent. *)
Theorem met_target_shows_100_percent (ts : targets) (achs : achievements)
    (y m : number) (sp : Salesperson.t) (t : MonthlyTarget.t)
    (a : MonthlyAchievement.t) (mx : positive) (ex : Z) :
  findTarget ts (Salesperson._id sp) y m = Some t ->
  findAchievement achs (Salesperson._id sp) y m = Some a ->
  MonthlyTarget.target t = S754_finite false mx ex ->
  MonthlyAchievement.totalAchievement a = MonthlyTarget.target t ->
  row_totalPercent (dashboard_entry ts achs y m sp) = Some (of_Z 100).
Proof.
  intros T A E1 E2. unfold dashboard_entry. cbn [row_totalPercent]. rewrite T, A.
  unfold field_or_zero. rewrite E2, E1.
  change (or_number (S754_finite false mx ex) pos_zero) with (S754_finite false mx ex).
  change (gt (S754_finite false mx ex) pos_zero) with true.
  cbv iota. rewrite div_self. reflexivity.
Qed.

(** The theorem for a target and a total of 5000. *)
Lemma met_target_shows_100_percent_witness :
  row_totalPercent
    (dashboard_entry targets_sample achievements_sample y2025 january
       (Salesperson.mk 2 "RAVI" (Some "VIDEUM") (Some "TV")))
  = Some (of_Z 100).
Proof.
  apply (met_target_shows_100_percent targets_sample achievements_sample y2025 january
           (Salesperson.mk 2 "RAVI" (Some "VIDEUM") (Some "TV"))
           (MonthlyTarget.mk 2 y2025 january (of_Z 5000))
           (MonthlyAchievement.mk 2 y2025 january (of_Z 3000) (of_Z 2000) (of_Z 5000))
           5497558138880000 (-40)); reflexivity.
Defined.

(** ** num: commas and white space *)

Lemma remove_char_app c a b :
  remove_char c (a +:+ b) = remove_char c a +:+ remove_char c b.
Proof.
  induction a as [|d a IH]; simpl; [reflexivity|].
  destruct (Ascii.eqb d c); simpl; now rewrite IH.
Qed.

Lemma dropWhileEnd_snoc p u c :
  p c = true -> dropWhileEnd p (u +:+ String c "") = dropWhileEnd p u.
Proof.
  intros H. induction u as [|d u IH]; simpl; [now rewrite H|]. now rewrite IH.
Qed.

Lemma trim_snoc t c : is_space c = true -> trim (t +:+ String c "") = trim t.
Proof.
  intros H. unfold trim. induction t as [|d t IH]; simpl; [now rewrite H|].
  destruct (is_space d); [exact IH|].
  apply (dropWhileEnd_snoc is_space (String d t) c H).
Qed.

Lemma space_not_comma c : is_space c = true -> Ascii.eqb c "," = false.
Proof.
  destruct c as [[] [] [] [] [] [] [] []]; try reflexivity; discriminate.
Qed.

Lemma num_of_clean v w : clean v = clean w -> num v = num w.
Proof. intros E. now rewrite !num_eq, E. Qed.

(** X25: [num] never returns [NaN]; a comma anywhere in the text, and a
    white-space character before or after it, do not change the result. *)
Theorem num_ignores_commas_and_padding :
  (forall v, isNaN (num v) = false) /\
  (forall a b, num (VString (a +:+ "," +:+ b)) = num (VString (a +:+ b))) /\
  (forall c s, is_space c = true ->
     num (VString (String c s)) = num (VString s) /\
     num (VString (s +:+ String c "")) = num (VString s)).
Proof.
  split; [apply num_not_nan|]. split.
  - intros a b. apply num_of_clean. unfold clean. simpl.
    now rewrite !remove_char_app.
  - intros c s H. split; apply num_of_clean; unfold clean; simpl.
    + rewrite (space_not_comma c H). unfold trim. simpl. now rewrite H.
    + rewrite remove_char_app. simpl. rewrite (space_not_comma c H).
      now apply trim_snoc.
Qed.

(** The theorem for ["1,000"]. *)
Lemma num_ignores_commas_and_padding_witness :
  num (VString ("1" +:+ "," +:+ "000")) = num (VString ("1" +:+ "000")).
Proof. apply (proj1 (proj2 num_ignores_commas_and_padding) "1" "000"). Defined.

(** ** Sales numbers and return numbers *)

(** X26: an invoice whose canonical number holds white space is never
    skipped as returned, whatever the returns file: the entries of the
    return list are first tokens only. *)
Theorem spaced_invoice_is_never_returned (returns : sheet) (ob : option string)
    (totals : number * number) (invKey : string) (inv : Invoice.t) :
  any_char is_space invKey = true ->
  invoice_step (extractReturnInvoiceSet returns) ob totals (invKey, inv)
  = invoice_step ∅ ob totals (invKey, inv).
Proof.
  intros H. unfold invoice_step. destruct totals as [a b].
  rewrite (bool_decide_eq_false_2 (invKey ∈ extractReturnInvoiceSet returns)).
  - rewrite (bool_decide_eq_false_2 (invKey ∈ (∅ : gset string))); [reflexivity|].
    apply not_elem_of_empty.
  - intros K. destruct (return_entry_of_member _ _ K) as [col [r E]].
    apply return_entry_shape in E. destruct E as [_ [E _]]. congruence.
Qed.

(** The theorem for the number ["GI/16909 A"]. *)
Lemma spaced_invoice_is_never_returned_witness :
  invoice_step (extractReturnInvoiceSet sheet_returns) (Some "VIDEUM")
    (pos_zero, pos_zero) ("GI/16909 A", mismatch_invoice "BAJAJ FINANCE LTD")
  = invoice_step ∅ (Some "VIDEUM") (pos_zero, pos_zero)
      ("GI/16909 A", mismatch_invoice "BAJAJ FINANCE LTD").
Proof.
  apply (spaced_invoice_is_never_returned sheet_returns (Some "VIDEUM")
           (pos_zero, pos_zero) "GI/16909 A" (mismatch_invoice "BAJAJ FINANCE LTD")).
  reflexivity.
Defined.

(** ** From the upload to the dashboard *)

(** X27: after an upload with a period and a sales file, a salesperson
    whose name labels no block of the file has no record for the period,
    whatever was stored before and whatever the answer, and the dashboard
    row built for that salesperson shows 0 for the three achievements. *)
Theorem absent_salesperson_shows_zero (message : string) (sps : salespersons)
    (db : achievements) (ts : targets) (req : upload_request) (sales : sheet)
    (sp : Salesperson.t) :
  ids_identify sps ->
  truthy (body_year req) = true -> truthy (body_month req) = true ->
  salesUploaded req = Some sales ->
  In sp sps ->
  ~ In (Salesperson.name sp) (block_names (rowsBySalesperson (segment sales))) ->
  findAchievement (snd (upload_sales message sps db req)) (Salesperson._id sp)
    (ToNumber (body_year req)) (ToNumber (body_month req)) = None /\
  let r := dashboard_entry ts (snd (upload_sales message sps db req))
             (ToNumber (body_year req)) (ToNumber (body_month req)) sp in
  row_ownAchievement r = pos_zero /\ row_otherAchievement r = pos_zero /\
  row_totalAchievement r = pos_zero.
Proof.
  intros U Hy Hm Hs Hin Habs.
  set (y := ToNumber (body_year req)). set (m := ToNumber (body_month req)).
  assert (F : findAchievement (snd (upload_sales message sps db req))
                (Salesperson._id sp) y m = None).
  { destruct (findAchievement _ _ _ _) as [d|] eqn:E; [|reflexivity]. exfalso.
    destruct (found_key_is_number _ _ _ _ _ E) as [Ny Nm].
    unfold upload_sales in E. rewrite Hy, Hm, Hs in E. cbn [negb orb] in E.
    fold y m in E. rewrite Ny, Nm in E. cbn [negb orb] in E.
    unfold processExcelFileMulti in E.
    destruct (own_keys_order_names _ (segment_names sales)) as [G1 G2].
    assert (P0 : period_ok sps y m [] (deleteMany db y m)).
    { intros d0 H0 M0. apply deleteMany_period in H0. congruence. }
    pose proof (period_ok_fold sps y m (returns_of req) _ [] _ U G2 G1
                  (fun k _ (H : In k []) => H) P0) as P.
    fold (returns_of req) in E.
    assert (E' : findAchievement
                   (fst (process_blocks sps (deleteMany db y m)
                           (own_keys_order (rowsBySalesperson (segment sales)))
                           y m (returns_of req)))
                   (Salesperson._id sp) y m = Some d).
    { destruct (process_blocks _ _ _ _ _ _) as [db2 completed].
      now destruct completed. }
    unfold findAchievement in E'. apply List.find_some in E'.
    destruct E' as [E1 E2]. apply matches_key_period in E2. destruct E2 as [E2 E3].
    destruct (P d E1 E3) as [_ [sp' [S1 [S2 S3]]]].
    apply Habs. rewrite <- (U sp' sp S1 Hin) by congruence.
    rewrite app_nil_r in S2. apply List.in_rev in S2.
    unfold block_names in *.
    apply (Permutation_in _ (Permutation_map fst (own_keys_order_perm _)) S2). }
  split; [exact F|]. unfold dashboard_entry. simpl. fold y m. rewrite F. simpl. auto.
Qed.

(** The theorem for MEENA, whom the sample file does not mention. *)
Lemma absent_salesperson_shows_zero_witness :
  findAchievement
    (snd (upload_sales cast_failed [sp_videum; sp_no_brand] stored_2025
            request_with_sales_file))
    (Salesperson._id sp_no_brand) (ToNumber (VString "2025")) (ToNumber (VString "1"))
  = None.
Proof.
  apply (proj1 (absent_salesperson_shows_zero cast_failed [sp_videum; sp_no_brand]
                  stored_2025 [] request_with_sales_file sheet_total_header sp_no_brand
                  ltac:(intros a b [<-|[<-|[]]] [<-|[<-|[]]] E;
                        first [reflexivity | discriminate E])
                  eq_refl eq_refl eq_refl
                  ltac:(right; left; reflexivity)
                  ltac:(intros [E|[]]; discriminate E))).
Defined.

(** ** One item of the bulk target route *)

Lemma upsertSalesperson_trimmed newId sps s brand section :
  upsertSalesperson newId sps (VString (trim s)) brand section
  = upsertSalesperson newId sps (VString s) brand section.
Proof. unfold upsertSalesperson. now rewrite trim_idem. Qed.

(** X28: [POST /api/targets/bulk] with one item whose name is a string
    that is not empty leaves the collections as [POST /api/targets] does
    for the same name, period and target, and succeeds exactly when it
    does. *)
Theorem bulk_target_item_acts_as_single (newId : salespersons -> N)
    (sps : salespersons) (ts : targets) (s : string) (year month target : value) :
  is_empty s = false ->
  let single := post_targets newId sps ts (VString s) year month target in
  let bulk :=
    post_targets_bulk newId sps ts year month
      (Some [Some (mk_target_item (VString s) target)]) in
  snd (fst bulk) = snd (fst single) /\ snd bulk = snd single /\
  (fst (fst bulk) = Json tt <-> fst (fst single) = Json tt).
Proof.
  intros Ne.
  assert (Tn : truthy (VString s) = true) by (simpl; now rewrite Ne).
  unfold post_targets, post_targets_bulk. cbn [targets_loop target_name target_value].
  rewrite Tn.
  destruct (truthy year) eqn:Ty, (truthy month) eqn:Tm; simpl negb; simpl orb; cbv iota;
    try (split; [reflexivity|split; [reflexivity|split; discriminate]]).
  cbn [ToString]. rewrite upsertSalesperson_trimmed.
  destruct (upsertSalesperson newId sps (VString s) VUndefined VUndefined)
    as [[sps' sp]|].
  - destruct (store_target _ _ _ _ _); simpl;
      (split; [reflexivity|split; [reflexivity|split; auto; discriminate]]).
  - simpl. split; [reflexivity|split; [reflexivity|split; discriminate]].
Qed.

(** The theorem for a target of 100 for MEENA. *)
Lemma bulk_target_item_acts_as_single_witness :
  snd (post_targets_bulk next_id directory_sample targets_sample (VNumber y2025)
         (VNumber january) (Some [Some (mk_target_item (VString "meena") (VString "100"))]))
  = snd (post_targets next_id directory_sample targets_sample (VString "meena")
           (VNumber y2025) (VNumber january) (VString "100")).
Proof.
  apply (proj1 (proj2 (bulk_target_item_acts_as_single next_id directory_sample
                         targets_sample "meena" (VNumber y2025) (VNumber january)
                         (VString "100") eq_refl))).
Defined.

(** ** The form that adds a salesperson *)

(** X29: the form that adds a salesperson always succeeds once it is
    sent: the salesperson has the upper-cased, trimmed name, the brand
    typed, or none when the box was left empty, and, when the name was
    already in the directory, the identifier and the section it had. *)
Theorem add_salesperson_form (newId : salespersons -> N) (sps : salespersons)
    (spName spBrand : string) (name brand section : value) :
  App.addSalesperson_body spName spBrand = Some (name, brand, section) ->
  exists sp,
    fst (post_salespersons newId sps name brand section) = Json sp /\
    Salesperson.name sp = toUpperCase (trim spName) /\
    Salesperson.brand sp
    = (if is_empty spBrand then None else Some (toUpperCase (trim spBrand))) /\
    forall e, findSalesperson sps (toUpperCase (trim spName)) = Some e ->
      Salesperson._id sp = Salesperson._id e /\
      Salesperson.section sp = Salesperson.section e.
Proof.
  unfold App.addSalesperson_body.
  destruct (is_empty (trim spName)) eqn:Ne; [discriminate|]. intros [= <- <- <-].
  assert (Tn : truthy (VString spName) = true).
  { simpl. destruct spName; [discriminate | reflexivity]. }
  unfold post_salespersons. rewrite Tn. simpl negb. cbv iota.
  unfold upsertSalesperson.
  assert (B : forall old,
             updated_field (VString spBrand <||> VNull) old
             = Some (if is_empty spBrand then None else Some (toUpperCase (trim spBrand)))).
  { intros old. destruct spBrand; reflexivity. }
  assert (B' : initial_field (VString spBrand <||> VNull)
               = Some (if is_empty spBrand then None else Some (toUpperCase (trim spBrand)))).
  { destruct spBrand; reflexivity. }
  destruct (findSalesperson sps (toUpperCase (trim spName))) as [e|] eqn:F.
  - destruct (findSalesperson_name _ _ _ F) as [_ Hname].
    rewrite B. cbn [updated_field]. unfold validates. cbn [Salesperson.name].
    rewrite Hname, is_empty_upper, Ne. simpl negb. cbv iota.
    eexists. split; [reflexivity|]. simpl. split; [reflexivity|]. split; [reflexivity|].
    intros e' [= <-]. auto.
  - rewrite B'. cbn [initial_field]. unfold validates. cbn [Salesperson.name].
    rewrite is_empty_upper, Ne. simpl negb. cbv iota.
    eexists. split; [reflexivity|]. simpl. split; [reflexivity|]. split; [reflexivity|].
    intros e' [=].
Qed.

(** The theorem for [" ravi "] with the brand box left empty. *)
Lemma add_salesperson_form_witness :
  exists sp,
    fst (post_salespersons next_id directory_sample (VString " ravi ") VNull VUndefined)
    = Json sp /\
    Salesperson.name sp = toUpperCase (trim " ravi ") /\
    Salesperson.brand sp = (if is_empty "" then None else Some (toUpperCase (trim ""))) /\
    forall e, findSalesperson directory_sample (toUpperCase (trim " ravi ")) = Some e ->
      Salesperson._id sp = Salesperson._id e /\
      Salesperson.section sp = Salesperson.section e.
Proof.
  apply (add_salesperson_form next_id directory_sample " ravi " ""
           (VString " ravi ") VNull VUndefined).
  reflexivity.
Defined.
